(** * Weightio plan engine: index calculator, workout builder, meal
      allocator and adaptation rules.

    A shallow embedding of the Cloud Functions source (the Express
    handlers /recalculateIndexes, /generatePlan, /adaptPlan and the
    helpers they call), followed by the properties stated about it.

    Numbers.  A JavaScript number is modelled as an exact rational
    ([Q]); NaN and the infinities have no counterpart, so the places
    where the handlers can divide by zero are written out case by case,
    and a gram step of zero in the portion metadata (which makes the
    snapped grams NaN) is outside the model.  [Math.round] is "nearest
    integer, ties towards +infinity", that is [floor (x + 1/2)].  Sums
    and products are exact; where the rounding of the source's double
    precision can change an outcome (the counter of the piece loop with
    a fractional step), the properties are stated for the inputs on
    which both agree.

    Absent values.  A field that may be [undefined] or [null] is an
    [option] wherever the source reads the two alike, and both are
    [None].  The body-fat entry of an index request is the one field
    the source reads differently when it is [null]
    ([toNumberOrUndefined] turns [null] into 0, and [katch] and
    [computeFFMI] test that value against [null], not for truthiness),
    so it keeps the three cases apart ([JsonNumber]).

    Collections.  The two Firestore collections are passed in as lists,
    in the order the query returns them.

    Randomness.  [Math.random()] is the ambient, unseeded source of the
    JavaScript runtime.  It is modelled as an infinite tape of draws
    read through a cursor: a computation of type [Rand A] receives the
    tape and the cursor position and returns its result with the new
    position.

    Termination.  The only loop of the source whose bound comes from
    data is the piece loop of [portionCandidates]; where it does not
    end the model returns [None]. *)

From Stdlib Require Import ZArith QArith Qround Qabs List String Ascii Bool Lia Lqa.
From Stdlib Require Import DecimalString Sorted.
From Stdlib Require OrdersEx.
From stdpp Require Import gmap strings.
Import ListNotations.

Local Open Scope Q_scope.

(* ===================================================================== *)
(** ** JavaScript primitives                                              *)
(* ===================================================================== *)

Module Js.

Definition number := Q.

Definition Qlt_bool (x y : Q) : bool := negb (Qle_bool y x).

(** [Math.round], [Math.floor], [Math.ceil], [Math.abs]. *)
Definition Math_round (x : number) : number := inject_Z (Qfloor (x + (1 # 2))).
Definition Math_floor (x : number) : number := inject_Z (Qfloor x).
Definition Math_ceil (x : number) : number := inject_Z (Qceiling x).
Definition Math_abs (x : number) : number := Qabs x.

(** [Math.max(a, b)] and [Math.min(a, b)]. *)
Definition Math_max (a b : number) : number := if Qle_bool a b then b else a.
Definition Math_min (a b : number) : number := if Qle_bool a b then a else b.

(** [+(x).toFixed(d)]: rounding to [d] decimals, halves away from zero. *)
Definition toFixed (d : nat) (x : number) : number :=
  let scale := inject_Z (10 ^ Z.of_nat d) in
  let n := inject_Z (Qfloor (Qabs x * scale + (1 # 2))) / scale in
  if Qlt_bool x 0 then - n else n.

(** Truthiness of an optional number: [undefined], [null] and [0] are
    falsy. *)
Definition truthy (o : option number) : bool :=
  match o with
  | Some q => negb (Qeq_bool q 0)
  | None => false
  end.

(** [a ?? b]. *)
Definition nullish {A} (o : option A) (d : A) : A :=
  match o with Some a => a | None => d end.

(** Template rendering [`${n}`] of an integer. *)
Definition render_int (z : Z) : string := NilZero.string_of_int (Z.to_int z).

(** [s.includes(t)]. *)
Fixpoint includes (s t : string) : bool :=
  String.prefix t s ||
  match s with
  | EmptyString => false
  | String _ s' => includes s' t
  end.

(** [s.toLowerCase()], on the ASCII letters. *)
Definition lower_ascii (c : ascii) : ascii :=
  let n := nat_of_ascii c in
  if (65 <=? n)%nat && (n <=? 90)%nat then ascii_of_nat (n + 32) else c.
Fixpoint toLowerCase (s : string) : string :=
  match s with
  | EmptyString => EmptyString
  | String c s' => String (lower_ascii c) (toLowerCase s')
  end.

(** [s.replace(pat, by)] with a one-character string pattern: only the
    first occurrence is replaced. *)
Fixpoint replace_first (pat : ascii) (by_ : string) (s : string) : string :=
  match s with
  | EmptyString => EmptyString
  | String c s' =>
      if Ascii.eqb c pat then (by_ ++ s')%string
      else String c (replace_first pat by_ s')
  end.

(** [Array.prototype.sort(cmp)]: a stable sort; [x] is placed before
    [y] when [cmp x y <= 0]. *)
Section Sort.
Context {A : Type} (cmp : A -> A -> number).
Fixpoint sort_insert (x : A) (l : list A) : list A :=
  match l with
  | [] => [x]
  | y :: l' => if Qle_bool (cmp x y) 0 then x :: y :: l' else y :: sort_insert x l'
  end.
Definition sort (l : list A) : list A := fold_right sort_insert [] l.
End Sort.

(** [clamp(n, min, max)] of the source. *)
Definition clamp (n lo hi : number) : number := Math_max lo (Math_min hi n).

End Js.
Import Js.

(* ===================================================================== *)
(** ** Request and response types                                         *)
(* ===================================================================== *)

Inductive Sex := male | female.
Inductive Goal := fat_loss | lean_mass | strength | recomp | hypertrophy.
Inductive Equipment := full_gym | dumbbells_only | bands_only | bodyweight_only.
Inductive Experience := novice | intermediate | advanced.
Inductive BudgetTier := tier_low | tier_medium | tier_high.
Inductive Injury := shoulder | elbow | wrist | low_back | hip | knee | ankle.

(** The en dash of the age-range literals and of the rep ranges. *)
Definition en_dash : string := "–".

Record Overrides := {
  o_BMR : option number;
  o_TDEE : option number;
  o_BMI : option number
}.

(** A numeric field of a JSON body: the key is missing, or holds [null],
    or holds a number. *)
Inductive JsonNumber :=
| j_undefined
| j_null
| j_number (q : number).

(** [toNumberOrUndefined(n)]: [Number(n)] when that is finite, else
    [undefined].  [Number(undefined)] is NaN and [Number(null)] is 0. *)
Definition toNumberOrUndefined (n : JsonNumber) : option number :=
  match n with
  | j_undefined => None
  | j_null => Some 0
  | j_number q => Some q
  end.

(** The JSON body of an index request as it arrives: every field may be
    absent.  For the weight, the height and the waist a [null] and a
    missing key are one case, [None]: [toNumberOrUndefined] makes a
    [null] the number 0, which every reader ([!kg], [kg && cm],
    [waist && cm]) takes for a missing value, and the tests [!= null]
    and [??] do not tell the two apart. *)
Record IndexReqBase := {
  sex : option Sex;
  age_range : option string;
  height_cm : option number;
  weight_kg : option number;
  bodyfat_pct : JsonNumber;
  waist_cm : option number;
  overrides : option Overrides
}.

Inductive Method := mifflin_m | katch_m | override_m.
Inductive Accuracy := acc_low | acc_med | acc_high | acc_highest.

(** An HTTP outcome: 200 with a payload, 400 with a message, or 500. *)
Inductive Http (A : Type) :=
| Ok200 (payload : A)
| Err400 (msg : string)
| Err500.
Arguments Ok200 {A} payload.
Arguments Err400 {A} msg.
Arguments Err500 {A}.

(** A warning of [detectOverrideWarnings]; it stands for the string
    [`${label} override differs >15% from computed (${computed} vs ${override}).`]. *)
Record Warning := {
  w_label : string;
  w_computed : number;
  w_override : number
}.

(* ===================================================================== *)
(** ** Index calculator                                                   *)
(* ===================================================================== *)

Definition ACTIVITY_BY_DAYS : list (Z * number) :=
  [ (1%Z, 1.375); (2%Z, 1.375); (3%Z, 1.55); (4%Z, 1.55); (5%Z, 1.725); (6%Z, 1.725) ].

Fixpoint table_get {V} (t : list (Z * V)) (k : Z) : option V :=
  match t with
  | [] => None
  | (k', v) :: t' => if Z.eqb k k' then Some v else table_get t' k
  end.

Definition mapAgeRangeToNumeric (age_range : string) : number :=
  let ar := replace_first "-"%char en_dash age_range in
  if String.eqb ar "<18" then 16
  else if String.eqb ar ("18" ++ en_dash ++ "24") then 21
  else if String.eqb ar ("25" ++ en_dash ++ "34") then 29
  else if String.eqb ar ("35" ++ en_dash ++ "44") then 39
  else if String.eqb ar ("45" ++ en_dash ++ "54") then 49
  else if String.eqb ar ("55" ++ en_dash ++ "60") then 57
  else if String.eqb ar ">60" then 65
  else 29.

Definition computeFFMI (kg cm bf : option number) : option number :=
  match kg, cm, bf with
  | Some k, Some c, Some b =>
      if negb (truthy kg) || negb (truthy cm) then None
      else
        let height_m := c / 100 in
        let lbm := k * (1 - b / 100) in
        Some (toFixed 1 (lbm / (height_m * height_m)))
  | _, _, _ => None
  end.

Definition mifflin (s : option Sex) (kg cm age : option number) : option number :=
  match kg, cm, age with
  | Some k, Some c, Some a =>
      if negb (truthy kg) || negb (truthy cm) || negb (truthy age) then None
      else
        let base := 10 * k + 6.25 * c - 5 * a in
        Some (Math_round (match s with Some male => base + 5 | _ => base - 161 end))
  | _, _, _ => None
  end.

Definition katch (kg bodyfat_pct : option number) : option number :=
  match kg, bodyfat_pct with
  | Some k, Some bf =>
      if negb (truthy kg) then None
      else
        let LBM := k * (1 - bf / 100) in
        Some (Math_round (370 + 21.6 * LBM))
  | _, _ => None
  end.

Definition activityMultiplier (days : number) : number :=
  let d := clamp (Math_floor days) 1 6 in
  nullish (table_get ACTIVITY_BY_DAYS (Qfloor d)) 1.55.

Definition accuracyBand (req : IndexReqBase) : Accuracy * option string :=
  let hasSex := match sex req with Some _ => true | None => false end in
  let hasWeight := match weight_kg req with Some _ => true | None => false end in
  let hasHeight := match height_cm req with Some _ => true | None => false end in
  let hasAgeRange :=
    match age_range req with Some s => negb (String.eqb s "") | None => false end in
  let hasBodyfat := match bodyfat_pct req with j_number _ => true | _ => false end in
  let hasWaist := match waist_cm req with Some _ => true | None => false end in
  if hasBodyfat && hasWaist && hasHeight && hasWeight && hasAgeRange && hasSex then
    (acc_highest, None)
  else if hasBodyfat && hasHeight && hasWeight && hasAgeRange && hasSex then
    (acc_high, if hasWaist then None else Some "waist_cm"%string)
  else if hasHeight && hasWeight && hasAgeRange && hasSex then
    (acc_med, Some "bodyfat_pct"%string)
  else if hasSex && (hasWeight || hasHeight) then
    (acc_low, Some (if hasHeight then "weight_kg" else "height_cm")%string)
  else
    (acc_low, Some "height_cm"%string).

Definition setCalories (TDEE : number) (goal : Goal) : number :=
  if Qeq_bool TDEE 0 then 0
  else
    match goal with
    | fat_loss => Math_round (TDEE * 0.85)
    | lean_mass => Math_round (TDEE * 1.08)
    | hypertrophy => Math_round (TDEE * 1.05)
    | recomp | strength => Math_round (TDEE * 1.00)
    end.

Record Macros := {
  protein_g : number;
  fat_g : number;
  carb_g : number
}.

Definition setMacros (_ : option Sex) (weight : option number) (kcal : number)
    (goal : Goal) : Macros :=
  let w := nullish weight 70 in
  let protein_per_kg := match goal with fat_loss => 2.0 | _ => 1.8 end in
  let fat_per_kg := match goal with fat_loss => 0.6 | _ => 0.7 end in
  let protein := Math_round (w * protein_per_kg) in
  let fat := Math_round (w * fat_per_kg) in
  let kcal_from_protein := protein * 4 in
  let kcal_from_fat := fat * 9 in
  let carb_kcal := Math_max 0 (kcal - (kcal_from_protein + kcal_from_fat)) in
  let carb := Math_max 0 (Math_round (carb_kcal / 4)) in
  {| protein_g := protein; fat_g := fat; carb_g := carb |}.

Record Indexes := {
  BMR : option number;
  method : Method;
  BMI : option number;
  WHtR : option number;
  FFMI : option number;
  idx_age : number;
  idx_kg : option number;
  idx_cm : option number;
  idx_bf : option number;
  idx_overrides : Overrides
}.

Definition no_overrides : Overrides :=
  {| o_BMR := None; o_TDEE := None; o_BMI := None |}.

(** [computeIndexes].  The source reads [req.age_range] as a string; both
    handlers call it only after checking that [age_range] is present, so
    the age bucket is passed as the string it then is.  The four
    measurements go through [toNumberOrUndefined]: on a number and on a
    missing key it changes nothing; a [null] becomes 0, which for the
    weight, the height and the waist is the case [None] of the record
    (see [IndexReqBase]) and for the body fat is [Some 0]. *)
Definition computeIndexes (req : IndexReqBase) (age_range_s : string) : Indexes :=
  let age := mapAgeRangeToNumeric age_range_s in
  let kg := weight_kg req in
  let cm := height_cm req in
  let bf := toNumberOrUndefined (bodyfat_pct req) in
  let waist := waist_cm req in
  let bmr_katch := katch kg bf in
  let bmr_mifflin := mifflin (sex req) kg cm (Some age) in
  let ov := nullish (overrides req) no_overrides in
  let bmr_method :=
    match o_BMR ov with
    | Some o => (Some (clamp o 800 3000), override_m)
    | None =>
        match bmr_katch with
        | Some b => (Some b, katch_m)
        | None =>
            match bmr_mifflin with
            | Some b => (Some b, mifflin_m)
            | None => (None, mifflin_m)
            end
        end
    end in
  let bmi :=
    match o_BMI ov with
    | Some o => Some (clamp o 10 60)
    | None =>
        match kg, cm with
        | Some k, Some c =>
            if truthy kg && truthy cm then
              let m := c / 100 in Some (toFixed 1 (k / (m * m)))
            else None
        | _, _ => None
        end
    end in
  let whtr :=
    match waist, cm with
    | Some wa, Some c =>
        if truthy waist && truthy cm then Some (toFixed 2 (wa / c)) else None
    | _, _ => None
    end in
  {| BMR := fst bmr_method; method := snd bmr_method; BMI := bmi; WHtR := whtr;
     FFMI := computeFFMI kg cm bf;
     idx_age := age; idx_kg := kg; idx_cm := cm; idx_bf := bf;
     idx_overrides := ov |}.

Definition computeTDEE (bmr : option number) (schedule_days : option number)
    (TDEE_override : option number) : option number :=
  match TDEE_override with
  | Some o => Some (clamp o 1200 5000)
  | None =>
      if negb (truthy bmr) then None
      else
        let mult := activityMultiplier (nullish schedule_days 3) in
        Some (Math_round (nullish bmr 0 * mult))
  end.

(** [detectOverrideWarnings].  The quotient [|override - computed| / computed]
    is infinite when [computed] is zero and [override] is not, and is not a
    number when both are zero; the two cases are spelled out. *)
Definition detectOverrideWarnings (computed override : option number)
    (label : string) : list Warning :=
  match computed, override with
  | Some c, Some o =>
      let exceeds :=
        if Qeq_bool c 0 then negb (Qeq_bool o 0)
        else Qlt_bool 0.15 (Math_abs (o - c) / c) in
      if exceeds then [ {| w_label := label; w_computed := c; w_override := o |} ]
      else []
  | _, _ => []
  end.

Record RecalcRes := {
  r_BMR : option number;
  r_method : Method;
  r_TDEE : option number;
  r_BMI : option number;
  r_WHtR : option number;
  r_FFMI : option number;
  r_accuracy : Accuracy;
  r_next_best_input : option string;
  r_warnings : list Warning
}.

(** The handler of POST /recalculateIndexes. *)
Definition recalculateIndexes (body : IndexReqBase) : Http RecalcRes :=
  match sex body, age_range body with
  | Some _, Some ar =>
      if String.eqb ar "" then Err400 "sex and age_range are required."%string
      else
        let ci := computeIndexes body ar in
        let ov := idx_overrides ci in
        let TDEE := computeTDEE (BMR ci) (Some 3) (o_TDEE ov) in
        let accuracy := fst (accuracyBand body) in
        let next_best_input := snd (accuracyBand body) in
        let warnings :=
          detectOverrideWarnings (BMR ci) (o_BMR ov) "BMR" ++
          detectOverrideWarnings TDEE (o_TDEE ov) "TDEE" ++
          detectOverrideWarnings (BMI ci) (o_BMI ov) "BMI" in
        Ok200 {| r_BMR := BMR ci; r_method := method ci; r_TDEE := TDEE;
                 r_BMI := BMI ci; r_WHtR := WHtR ci; r_FFMI := FFMI ci;
                 r_accuracy := accuracy; r_next_best_input := next_best_input;
                 r_warnings := warnings |}
  | _, _ => Err400 "sex and age_range are required."%string
  end.

(* ===================================================================== *)
(** ** Workout generation                                                 *)
(* ===================================================================== *)

Inductive RepStyle := style_hypertrophy | style_strength.
Inductive Movement := compound | isolation.

Definition REP_RANGES (st : RepStyle) (e : Experience) : Z * Z :=
  match st, e with
  | style_hypertrophy, novice => (8, 12)
  | style_hypertrophy, intermediate => (6, 12)
  | style_hypertrophy, advanced => (5, 10)
  | style_strength, novice => (5, 6)
  | style_strength, intermediate => (3, 6)
  | style_strength, advanced => (2, 5)
  end%Z.

Definition SETS_BY_EXPERIENCE (e : Experience) : number * number :=
  match e with
  | novice => (8, 12)
  | intermediate => (12, 16)
  | advanced => (14, 20)
  end.

Definition RIR_BY_EXPERIENCE (st : RepStyle) (e : Experience) : string :=
  match st, e with
  | style_hypertrophy, novice => "2" ++ en_dash ++ "3"
  | style_hypertrophy, intermediate => "1" ++ en_dash ++ "2"
  | style_hypertrophy, advanced => "0" ++ en_dash ++ "2"
  | style_strength, novice => "2"
  | style_strength, intermediate => "1" ++ en_dash ++ "2"
  | style_strength, advanced => "0" ++ en_dash ++ "1"
  end%string.

Definition REST_TIMES (e : Experience) : string :=
  match e with
  | novice => "90" ++ en_dash ++ "120s"
  | intermediate => "120" ++ en_dash ++ "180s"
  | advanced => "2" ++ en_dash ++ "3+ min"
  end%string.

Definition PROGRESSION_HINTS (e : Experience) : string :=
  match e with
  | novice => "If reps hit top, +5% next time"
  | intermediate => "If reps hit top, +2" ++ en_dash ++ "2.5% or +1 rep"
  | advanced => "Microload +1" ++ en_dash ++ "2%; add back-off set if fresh"
  end%string.

Definition DEFAULT_MEALS_BY_GOAL (g : Goal) : number :=
  match g with
  | fat_loss => 3
  | lean_mass => 4
  | strength => 3
  | recomp => 3
  | hypertrophy => 4
  end.

Definition INJURY_AVOID (i : Injury) : list string :=
  match i with
  | shoulder => ["ohp"; "pike_pushup"; "db_ohp"; "handstand"; "lateral_raise"]
  | elbow => ["triceps"; "skullcrusher"; "dips"]
  | wrist => ["pushup"; "bench_press"; "db_press"]
  | low_back => ["deadlift"; "rdl"; "back_squat"; "hip_hinge"]
  | hip => ["deep_squat"; "split_squat"]
  | knee => ["squat"; "lunge"; "leg_press"; "step_up"]
  | ankle => ["calf_raises"; "step_up"; "jump"]
  end%string.

(** A catalog exercise; the descriptive fields the engine never reads
    (cues, regressions, progressions) are left out. *)
Record Exercise := {
  ex_id : string;
  ex_name : string;
  ex_muscles : list string;
  ex_equipment : list string;
  ex_movement : Movement
}.

Record WorkoutBlock := {
  muscle : string;
  exerciseId : string;
  musclesWorked : list string;
  sets : number;
  reps : string;
  rir : string;
  rir_hint : string;
  rest_hint : string;
  progression_hint : string;
  alt_compact : bool
}.

Record DayPlan := {
  day : number;
  blocks : list WorkoutBlock
}.

Definition setsTarget (experience : Experience) (goal : Goal) : number :=
  let '(lo, hi) := SETS_BY_EXPERIENCE experience in
  let mid := Math_round ((lo + hi) / 2) in
  let mid := match goal with strength => Math_round (mid * 0.8) | _ => mid end in
  let mid := match goal with fat_loss => Math_round (mid * 0.85) | _ => mid end in
  clamp mid 6 22.

Definition list_includes (l : list string) (s : string) : bool :=
  existsb (String.eqb s) l.

Definition checkEquipmentCompatibility (exerciseEquipment : list string)
    (userEquipment : Equipment) : bool :=
  match userEquipment with
  | full_gym => true
  | dumbbells_only =>
      list_includes exerciseEquipment "dumbbell" || list_includes exerciseEquipment "bodyweight"
  | bands_only =>
      list_includes exerciseEquipment "band" || list_includes exerciseEquipment "bodyweight"
  | bodyweight_only => list_includes exerciseEquipment "bodyweight"
  end.

Definition splitByDays (days : number) : list (number * list string) :=
  let d := clamp (Math_floor days) 1 7 in
  (if Qle_bool d 1 then
    [ (1, ["chest"; "back"; "quads"; "hams"; "glutes"; "shoulders"; "triceps"; "biceps"; "core"]) ]
  else if Qeq_bool d 2 then
    [ (1, ["chest"; "upper_chest"; "shoulders"; "triceps"; "core"]);
      (2, ["back"; "lats"; "quads"; "hams"; "glutes"; "biceps"; "rear_delts"]) ]
  else if Qeq_bool d 3 then
    [ (1, ["chest"; "upper_chest"; "triceps"]);
      (2, ["back"; "lats"; "biceps"; "rear_delts"]);
      (3, ["quads"; "hams"; "glutes"; "calves"]) ]
  else if Qeq_bool d 4 then
    [ (1, ["chest"; "upper_chest"; "shoulders"; "triceps"]);
      (2, ["back"; "lats"; "biceps"; "rear_delts"]);
      (3, ["chest"; "upper_chest"; "shoulders"; "triceps"]);
      (4, ["quads"; "hams"; "glutes"; "calves"]) ]
  else if Qeq_bool d 5 then
    [ (1, ["chest"; "upper_chest"; "triceps"]);
      (2, ["back"; "lats"; "biceps"; "rear_delts"]);
      (3, ["quads"; "hams"; "glutes"; "calves"]);
      (4, ["chest"; "shoulders"; "triceps"]);
      (5, ["back"; "lats"; "rear_delts"]) ]
  else
    [ (1, ["chest"; "upper_chest"; "triceps"]);
      (2, ["back"; "lats"; "biceps"; "rear_delts"]);
      (3, ["quads"; "hams"; "glutes"; "calves"]);
      (4, ["chest"; "upper_chest"; "triceps"]);
      (5, ["back"; "lats"; "biceps"; "rear_delts"]);
      (6, ["quads"; "hams"; "glutes"; "calves"]) ])%string.

Section Workouts.

(** [a.localeCompare(b)]: the collation of the runtime, a negative, zero
    or positive number.  It is left abstract. *)
Variable localeCompare : string -> string -> number.

(** The exercise catalog, as returned by the cached Firestore read. *)
Variable exercises : list Exercise.

(** The filter of [chooseExercise]. *)
Definition isCandidate (equipment : Equipment) (target : string)
    (injuries : list Injury) (exercise : Exercise) : bool :=
  if negb (list_includes (ex_muscles exercise) target) then false
  else if negb (checkEquipmentCompatibility (ex_equipment exercise) equipment) then false
  else
    let avoidTokens := flat_map INJURY_AVOID injuries in
    negb (existsb (fun token =>
                     includes (ex_id exercise) token
                     || includes (toLowerCase (ex_name exercise)) token)
                  avoidTokens).

(** The comparator of [chooseExercise]. *)
Definition exerciseOrder (a b : Exercise) : number :=
  match ex_movement a, ex_movement b with
  | compound, isolation => -1
  | isolation, compound => 1
  | _, _ => localeCompare (ex_name a) (ex_name b)
  end.

Definition chooseExercise (equipment : Equipment) (target : string)
    (injuries : list Injury) : string :=
  let candidates := List.filter (isCandidate equipment target injuries) exercises in
  match sort exerciseOrder candidates with
  | e :: _ => ex_id e
  | [] => (target ++ "_fallback_exercise")%string
  end.

(** The insertion-ordered [Map] from exercise id to the muscles it was
    chosen for. *)
Fixpoint selected_push (m : list (string * list string)) (id target : string)
    : list (string * list string) :=
  match m with
  | [] => [ (id, [target]) ]
  | (k, ms) :: m' =>
      if String.eqb k id then (k, ms ++ [target]) :: m'
      else (k, ms) :: selected_push m' id target
  end.

Definition buildWorkouts (days : number) (experience : Experience) (goal : Goal)
    (equipment : Equipment) (injuries : list Injury) : list DayPlan :=
  let split := splitByDays days in
  let targetSetsPerMuscle := setsTarget experience goal in
  let style := match goal with strength => style_strength | _ => style_hypertrophy end in
  let repRange := REP_RANGES style experience in
  let rir_s := RIR_BY_EXPERIENCE style experience in
  let restTime := REST_TIMES experience in
  let progressionHint := PROGRESSION_HINTS experience in
  let totalMusclesPerWeek :=
    fold_left (fun acc s => acc + inject_Z (Z.of_nat (length (snd s)))) split 0 in
  let setsPerMuscle :=
    Math_max 3 (Math_round (targetSetsPerMuscle /
                            (totalMusclesPerWeek / inject_Z (Z.of_nat (length split))))) in
  map (fun '(d, muscles) =>
         let selectedExercises :=
           fold_left (fun m target =>
                        selected_push m (chooseExercise equipment target injuries) target)
                     muscles [] in
         let blocks_ :=
           map (fun '(id, worked) =>
                  {| muscle := hd ""%string worked;
                     exerciseId := id;
                     musclesWorked := worked;
                     sets := setsPerMuscle;
                     reps := (render_int (fst repRange) ++ en_dash
                              ++ render_int (snd repRange))%string;
                     rir := rir_s;
                     rir_hint := ("RIR " ++ rir_s ++ "; rest " ++ restTime)%string;
                     rest_hint := restTime;
                     progression_hint := progressionHint;
                     alt_compact := true |})
               selectedExercises in
         {| day := d; blocks := blocks_ |})
      split.

End Workouts.

(* ===================================================================== *)
(** ** The random source                                                  *)
(* ===================================================================== *)

(** A computation that may call [Math.random()]: it reads the tape of
    draws from the cursor on and returns the advanced cursor. *)
Definition Rand (A : Type) : Type := (nat -> number) -> nat -> A * nat.

Definition ret {A} (a : A) : Rand A := fun _ n => (a, n).

Definition bind {A B} (m : Rand A) (k : A -> Rand B) : Rand B :=
  fun tape n => let '(a, n') := m tape n in k a tape n'.

Definition Math_random : Rand number := fun tape n => (tape n, S n).

Notation "x <- c1 ;; c2" := (bind c1 (fun x => c2))
  (at level 100, c1 at next level, right associativity).

Fixpoint forM {A B} (f : A -> Rand B) (l : list A) : Rand (list B) :=
  match l with
  | [] => ret []
  | a :: l' => b <- f a ;; bs <- forM f l' ;; ret (b :: bs)
  end.

Fixpoint foldM {A B} (f : B -> A -> Rand B) (l : list A) (b : B) : Rand B :=
  match l with
  | [] => ret b
  | a :: l' => b' <- f b a ;; foldM f l' b'
  end.

(* ===================================================================== *)
(** ** Meal planning                                                      *)
(* ===================================================================== *)

Inductive Category := cat_protein | cat_carb | cat_veg | cat_fat.
Inductive PortionUnit := unit_g | unit_piece.

Definition Category_eqb (a b : Category) : bool :=
  match a, b with
  | cat_protein, cat_protein | cat_carb, cat_carb
  | cat_veg, cat_veg | cat_fat, cat_fat => true
  | _, _ => false
  end.

Definition BudgetTier_eqb (a b : BudgetTier) : bool :=
  match a, b with
  | tier_low, tier_low | tier_medium, tier_medium | tier_high, tier_high => true
  | _, _ => false
  end.

Record PortionMeta := {
  pm_unit : option PortionUnit;
  typical_g : option number;
  min_g : option number;
  max_g : option number;
  step_g : option number;
  grams_per_piece : option number;
  min_pieces : option number;
  max_pieces : option number;
  step_pieces : option number
}.

Definition empty_portion : PortionMeta :=
  {| pm_unit := None; typical_g := None; min_g := None; max_g := None;
     step_g := None; grams_per_piece := None; min_pieces := None;
     max_pieces := None; step_pieces := None |}.

Record MacroPer100 := {
  m_kcal : number;
  m_p : number;
  m_c : number;
  m_f : number
}.

Record IngredientDocV2 := {
  ing_id : option string;
  ing_name : string;
  ing_category : Category;
  macro_per_100g : MacroPer100;
  typical_portion_g : option number;
  ing_budget_tier : BudgetTier;
  portion : option PortionMeta
}.

(** The label [`${pcs} pcs`] of a piece-based portion. *)
Inductive Label := Pcs (pcs : number).

Record PortionCandidate := {
  pc_grams : number;
  pc_p : number;
  pc_c : number;
  pc_f : number;
  pc_kcal : number;
  pc_label : option Label
}.

Record IngredientItem := {
  ingredientId : string;
  it_name : string;
  it_grams : number;
  it_label : option Label;
  it_p : number;
  it_c : number;
  it_f : number;
  it_kcal : number;
  it_category : Category
}.

Record MealCombo := {
  items : list IngredientItem;
  totP : number;
  totC : number;
  totF : number;
  totK : number;
  score : number
}.

Record MacroTotals := {
  t_p : number;
  t_c : number;
  t_f : number;
  t_kcal : number
}.

(** One labelled per-category entry of a meal in the response. *)
Record ComboOut := {
  combo_label : string;
  co_items : list IngredientItem;
  totals : MacroTotals
}.

Record MealOptions := {
  protein_opts : list ComboOut;
  carb_opts : list ComboOut;
  veg_opts : list ComboOut;
  fat_opts : list ComboOut
}.

Record MealTargets := {
  Ppm : number;
  Cpm : number;
  Fpm : number;
  Kpm : number
}.

Inductive Strictness := normal | tight | loose.

(** [qRound], for a step that is not zero.  With [step = 0] the source
    yields NaN ([Infinity * 0] or [round (0 / 0) * 0]), which has no
    counterpart here (the division of [Q] gives 0): properties of the
    snapped grams carry the hypothesis that the step is not zero. *)
Definition qRound (n step : number) : number := Math_round (n / step) * step.

Definition clampValue (n lo hi : number) : number := Math_max lo (Math_min hi n).

(** The counter loop [for (pcs = minP; pcs <= maxP; pcs += stepP)]. *)
Fixpoint pieces_from (fuel : nat) (pcs maxP stepP : number) : list number :=
  match fuel with
  | O => []
  | S fuel' =>
      if Qle_bool pcs maxP then pcs :: pieces_from fuel' (pcs + stepP) maxP stepP
      else []
  end.

(** The values [pcs] takes in that loop.  With a positive step the loop
    runs [floor ((maxP - minP) / stepP) + 1] times; with a step that is
    zero or negative and [minP <= maxP] it never ends ([None]).  The
    counter is advanced exactly.  The source adds the step in double
    precision, which is the same thing for whole-number piece counts
    ([safeInteger]); with a fractional step the rounded sums can leave
    the loop one round earlier or later than the exact ones (0.1, 0.2,
    0.30000000000000004 against a bound of 0.3), so what is stated about
    the number of portions is stated for whole-number counts. *)
Definition piece_counts (minP maxP stepP : number) : option (list number) :=
  if Qle_bool minP maxP then
    if Qlt_bool 0 stepP then
      Some (pieces_from (S (Z.to_nat (Qfloor ((maxP - minP) / stepP)))) minP maxP stepP)
    else None
  else Some [].

(** [Array.from(new Set(xs))] on numbers: first occurrences, in order. *)
Fixpoint dedupe (xs : list number) : list number :=
  match xs with
  | [] => []
  | x :: xs' => x :: List.filter (fun y => negb (Qeq_bool y x)) (dedupe xs')
  end.

Definition candidate_of (m : MacroPer100) (g : number) (lbl : option Label)
    : PortionCandidate :=
  {| pc_grams := g;
     pc_p := (m_p m * g) / 100;
     pc_c := (m_c m * g) / 100;
     pc_f := (m_f m * g) / 100;
     pc_kcal := (m_kcal m * g) / 100;
     pc_label := lbl |}.

(** [portionCandidates]; [None] when the piece loop does not end. *)
Definition portionCandidates (ing : IngredientDocV2) : option (list PortionCandidate) :=
  let m := macro_per_100g ing in
  let pm := nullish (portion ing) empty_portion in
  let typical := nullish (typical_g pm) (nullish (typical_portion_g ing) 100) in
  let unit := nullish (pm_unit pm) unit_g in
  match unit, truthy (grams_per_piece pm) with
  | unit_piece, true =>
      let gpp := nullish (grams_per_piece pm) 0 in
      let minP := nullish (min_pieces pm) 1 in
      let maxP := nullish (max_pieces pm) 3 in
      let stepP := nullish (step_pieces pm) 1 in
      match piece_counts minP maxP stepP with
      | Some counts =>
          Some (map (fun pcs => candidate_of m (pcs * gpp) (Some (Pcs pcs))) counts)
      | None => None
      end
  | _, _ =>
      let minG := nullish (min_g pm) (Math_max 50 (Math_floor (typical * 0.5))) in
      let maxG := nullish (max_g pm) (Math_min 300 (Math_ceil (typical * 2.0))) in
      let stepG := nullish (step_g pm) 10 in
      let mults := [0.75; 1.0; 1.25; 1.5] in
      let raw :=
        sort (fun a b => a - b)
             (dedupe (map (fun x => clampValue (qRound (typical * x) stepG) minG maxG) mults)) in
      Some (map (fun g => candidate_of m g None) raw)
  end.

Definition scoreCombo (totP_ totC_ totF_ targetP targetC targetF targetK : number)
    : number :=
  let kPenalty := 0.05 in
  let eP := Math_abs (totP_ - targetP) in
  let eC := Math_abs (totC_ - targetC) in
  let eF := Math_abs (totF_ - targetF) in
  let kcal := totP_ * 4 + totC_ * 4 + totF_ * 9 in
  let eK := Math_abs (kcal - targetK) in
  1.2 * eP + 1.0 * eC + 0.8 * eF + kPenalty * eK.

Definition cartesian {T} (a b : list T) : list (T * T) :=
  flat_map (fun i => map (fun j => (i, j)) b) a.

(** The index pairs [i < j] of the pair loop, as the elements they select. *)
Fixpoint pairs_of {T} (l : list T) : list (T * T) :=
  match l with
  | [] => []
  | a :: l' => map (fun b => (a, b)) l' ++ pairs_of l'
  end.

(** [[a[i], a[j]] = [a[j], a[i]]].  Both indices are in range whenever the
    draw lies in [0, 1). *)
Definition swap {T} (i j : nat) (l : list T) : list T :=
  match l !! i, l !! j with
  | Some a, Some b => <[i := b]> (<[j := a]> l)
  | _, _ => l
  end.

(** The Fisher-Yates loop of [extendBeams]. *)
Definition shuffle {T} (l : list T) : Rand (list T) :=
  foldM (fun arr i =>
           u <- Math_random ;;
           let j := Z.to_nat (Qfloor (u * inject_Z (Z.of_nat (i + 1)))) in
           ret (swap i j arr))
        (rev (seq 1 (length l - 1))) l.

Definition categories : list Category := [cat_protein; cat_carb; cat_veg; cat_fat].

Definition targetFor (cat : Category) (t : MealTargets) : number :=
  match cat with
  | cat_protein => Ppm t
  | cat_carb => Cpm t
  | cat_fat => Fpm t
  | cat_veg => 0
  end.

Section Allocator.

(** The ingredients of the requested budget tier, as fetched. *)
Variable all : list IngredientDocV2.

Definition pool (cat : Category) : list IngredientDocV2 :=
  List.filter (fun i => Category_eqb (ing_category i) cat) all.

(** The even-split per-meal targets [{Ppm, Cpm, Fpm, Kpm}]. *)
Variable base : MealTargets.

(** The up-to-four portion candidates kept for an ingredient. *)
Definition chosenCandidates (cat : Category) (cands : list PortionCandidate)
    : list PortionCandidate :=
  let targetPer100 := targetFor cat base in
  let sortKey := fun cand : PortionCandidate =>
    let macro := match cat with
                 | cat_protein => pc_p cand
                 | cat_carb => pc_c cand
                 | cat_fat => pc_f cand
                 | cat_veg => 0
                 end in
    Math_abs (macro - targetPer100) in
  firstn 4 (sort (fun a b => sortKey a - sortKey b) cands).

(** The table [pcands], keyed by ingredient name: a later ingredient of
    the same name overwrites an earlier one.  [None] when some
    [portionCandidates] call does not end. *)
Definition pcandsStep (cat : Category)
    (acc : option (gmap string (list (IngredientDocV2 * PortionCandidate))))
    (ing : IngredientDocV2)
    : option (gmap string (list (IngredientDocV2 * PortionCandidate))) :=
  match acc with
  | None => None
  | Some table =>
      match portionCandidates ing with
      | None => None
      | Some cands =>
          Some (<[ing_name ing :=
                    map (fun c => (ing, c)) (chosenCandidates cat cands)]> table)
      end
  end.

Definition precompute : option (gmap string (list (IngredientDocV2 * PortionCandidate))) :=
  fold_left (fun acc cat => fold_left (pcandsStep cat) (pool cat) acc)
            categories (Some ∅).

Variable pcands : gmap string (list (IngredientDocV2 * PortionCandidate)).

Definition pcands_get (name : string) : list (IngredientDocV2 * PortionCandidate) :=
  nullish (pcands !! name) [].

Definition hasIngredient (beam : MealCombo) (ingredientName : string) : bool :=
  existsb (fun item => String.eqb (it_name item) ingredientName) (items beam).

Definition item_of (ing : IngredientDocV2) (pc : IngredientDocV2 * PortionCandidate)
    : IngredientItem :=
  {| ingredientId := nullish (ing_id ing) (ing_name ing);
     it_name := ing_name ing;
     it_grams := pc_grams (snd pc);
     it_label := pc_label (snd pc);
     it_p := pc_p (snd pc);
     it_c := pc_c (snd pc);
     it_f := pc_f (snd pc);
     it_kcal := pc_kcal (snd pc);
     it_category := ing_category ing |}.

(** The single-item extensions of one beam. *)
Definition singles (targets : MealTargets) (beam : MealCombo)
    (choices : list IngredientDocV2) : list MealCombo :=
  flat_map
    (fun ing =>
       if hasIngredient beam (ing_name ing) then []
       else
         map (fun pc =>
                let item := item_of ing pc in
                let totP_ := totP beam + it_p item in
                let totC_ := totC beam + it_c item in
                let totF_ := totF beam + it_f item in
                let totK_ := totK beam + it_kcal item in
                {| items := items beam ++ [item];
                   totP := totP_; totC := totC_; totF := totF_; totK := totK_;
                   score := scoreCombo totP_ totC_ totF_
                              (Ppm targets) (Cpm targets) (Fpm targets) (Kpm targets) |})
             (pcands_get (ing_name ing)))
    choices.

(** The two-item extensions of one beam. *)
Definition pairs (targets : MealTargets) (beam : MealCombo)
    (choices : list IngredientDocV2) : list MealCombo :=
  flat_map
    (fun '(a, b) =>
       if hasIngredient beam (ing_name a) || hasIngredient beam (ing_name b) then []
       else
         map (fun '(pca, pcb) =>
                let itemA := item_of a pca in
                let itemB := item_of b pcb in
                let totP_ := totP beam + it_p itemA + it_p itemB in
                let totC_ := totC beam + it_c itemA + it_c itemB in
                let totF_ := totF beam + it_f itemA + it_f itemB in
                let totK_ := totK beam + it_kcal itemA + it_kcal itemB in
                {| items := items beam ++ [itemA; itemB];
                   totP := totP_; totC := totC_; totF := totF_; totK := totK_;
                   score := scoreCombo totP_ totC_ totF_
                              (Ppm targets) (Cpm targets) (Fpm targets) (Kpm targets) |})
             (cartesian (pcands_get (ing_name a)) (pcands_get (ing_name b))))
    (pairs_of choices).

(** The comparator that ranks the extended beams. *)
Definition beamOrder (x y : MealCombo) : number :=
  if negb (Qeq_bool (score x) (score y)) then score x - score y
  else inject_Z (Z.of_nat (length (items x))) - inject_Z (Z.of_nat (length (items y))).

Definition extendBeams (beams : list MealCombo) (cat : Category) (kMin kMax : nat)
    (beamSize : nat) (mealTargets : option MealTargets) : Rand (list MealCombo) :=
  let ingList := pool cat in
  let targets := nullish mealTargets base in
  let targetMacro := targetFor cat targets in
  let macroGetter := fun ing : IngredientDocV2 =>
    let m := macro_per_100g ing in
    let portion_ :=
      if truthy (typical_portion_g ing) then nullish (typical_portion_g ing) 100 else 100 in
    match cat with
    | cat_protein => m_p m * portion_ / 100
    | cat_carb => m_c m * portion_ / 100
    | cat_fat => m_f m * portion_ / 100
    | cat_veg => 0
    end in
  let ranked :=
    sort (fun a b => Math_abs (macroGetter a - targetMacro)
                     - Math_abs (macroGetter b - targetMacro)) ingList in
  shuffled <- shuffle ranked ;;
  out <- forM
    (fun beam =>
       per_k <- forM
         (fun k =>
            if (k =? 0)%nat then ret [beam]
            else
              u <- Math_random ;;
              let useShuffled := Qlt_bool u 0.6 in
              let choices :=
                firstn (Nat.min 20 (length ingList))
                       (if useShuffled then shuffled else ranked) in
              ret ((if (1 <=? k)%nat then singles targets beam choices else [])
                   ++ (if (2 <=? k)%nat then pairs targets beam choices else [])))
         (seq kMin (S kMax - kMin)) ;;
       ret (concat per_k))
    beams ;;
  ret (firstn beamSize (sort beamOrder (concat out))).

Variable tol : number.

(** The tolerance test of the final selection. *)
Definition withinTolerance (b : MealCombo) : bool :=
  let okP := Qle_bool (Math_abs (totP b - Ppm base)) (Ppm base * tol) in
  let okC := Qle_bool (Math_abs (totC b - Cpm base)) (Cpm base * tol)
             || Qlt_bool (Cpm base) 15 in
  let okF := Qle_bool (Math_abs (totF b - Fpm base)) (Fpm base * tol)
             || Qlt_bool (Fpm base) 10 in
  okP && okC && okF.

(** The category count ranges [ranges] by goal. *)
Definition ranges (goalHint : Goal) (cat : Category) : nat * nat :=
  match cat with
  | cat_protein => (1, 1)
  | cat_veg => (1, 1)
  | cat_carb => match goalHint with fat_loss => (0, 1) | _ => (1, 1) end
  | cat_fat => (1, 1)
  end%nat.

(** The beams that survive the four category steps of one meal. *)
Definition mealBeams (goalHint : Goal) : Rand (list MealCombo) :=
  let beams :=
    [ {| items := []; totP := 0; totC := 0; totF := 0; totK := 0;
         score := scoreCombo 0 0 0 (Ppm base) (Cpm base) (Fpm base) (Kpm base) |} ] in
  let varietyFactor := 0.15 in
  u1 <- Math_random ;;
  let mealPpm := Ppm base * (1 + (u1 - 0.5) * varietyFactor) in
  u2 <- Math_random ;;
  let mealCpm := Cpm base * (1 + (u2 - 0.5) * varietyFactor) in
  u3 <- Math_random ;;
  let mealFpm := Fpm base * (1 + (u3 - 0.5) * varietyFactor) in
  let mealTargets :=
    {| Ppm := mealPpm; Cpm := mealCpm; Fpm := mealFpm;
       Kpm := mealPpm * 4 + mealCpm * 4 + mealFpm * 9 |} in
  let r := ranges goalHint in
  beams <- extendBeams beams cat_protein (fst (r cat_protein)) (snd (r cat_protein))
                       40 (Some mealTargets) ;;
  beams <- extendBeams beams cat_carb (fst (r cat_carb)) (snd (r cat_carb))
                       60 (Some mealTargets) ;;
  beams <- extendBeams beams cat_veg (fst (r cat_veg)) (snd (r cat_veg))
                       60 (Some mealTargets) ;;
  extendBeams beams cat_fat (fst (r cat_fat)) (snd (r cat_fat)) 60 (Some mealTargets).

(** The final selection among the surviving beams: [final[0]]. *)
Definition selectBest (beams : list MealCombo) : option MealCombo :=
  let withinTol := List.filter withinTolerance beams in
  let final :=
    firstn 1 (sort (fun a b => score a - score b)
                   (match withinTol with [] => beams | _ => withinTol end)) in
  hd_error final.

Definition formatItems (its : list IngredientItem) : list IngredientItem :=
  map (fun it =>
         {| ingredientId := ingredientId it;
            it_name := it_name it;
            it_grams := Math_round (it_grams it);
            it_label := it_label it;
            it_p := Math_round (it_p it);
            it_c := Math_round (it_c it);
            it_f := Math_round (it_f it);
            it_kcal := Math_round (it_kcal it);
            it_category := it_category it |})
      its.

Definition sumBy (f : IngredientItem -> number) (its : list IngredientItem) : number :=
  fold_left (fun sum it => sum + f it) its 0.

Definition categoryOpts (label : string) (its : list IngredientItem) : list ComboOut :=
  match its with
  | [] => []
  | _ =>
      [ {| combo_label := label;
           co_items := formatItems its;
           totals := {| t_p := Math_round (sumBy it_p its);
                        t_c := Math_round (sumBy it_c its);
                        t_f := Math_round (sumBy it_f its);
                        t_kcal := Math_round (sumBy it_kcal its) |} |} ]
  end.

Definition formatMeal (best : option MealCombo) : MealOptions :=
  match best with
  | None => {| protein_opts := []; carb_opts := []; veg_opts := []; fat_opts := [] |}
  | Some bestCombo =>
      let of_cat := fun cat =>
        List.filter (fun it => Category_eqb (it_category it) cat) (items bestCombo) in
      {| protein_opts := categoryOpts "Protein" (of_cat cat_protein);
         carb_opts := categoryOpts "Carbs" (of_cat cat_carb);
         veg_opts := categoryOpts "Vegetables" (of_cat cat_veg);
         fat_opts := categoryOpts "Fats" (of_cat cat_fat) |}
  end.

(** One iteration of the per-meal loop: the selected combination and
    the entry pushed onto [meals]. *)
Definition planMeal (goalHint : Goal) : Rand (option MealCombo * MealOptions) :=
  beams <- mealBeams goalHint ;;
  let best := selectBest beams in
  ret (best, formatMeal best).

End Allocator.

Definition toleranceOf (strictness : Strictness) : number :=
  match strictness with
  | tight => 0.07
  | loose => 0.15
  | normal => 0.10
  end.

Definition baseTargets (macros : Macros) (meals_per_day : number) : MealTargets :=
  let P := protein_g macros / meals_per_day in
  let C := carb_g macros / meals_per_day in
  let F := fat_g macros / meals_per_day in
  {| Ppm := P; Cpm := C; Fpm := F; Kpm := P * 4 + C * 4 + F * 9 |}.

(** The number of iterations of [for (mealIdx = 0; mealIdx < meals_per_day; mealIdx++)]. *)
Definition mealCount (meals_per_day : number) : nat :=
  Z.to_nat (Qceiling meals_per_day).

(** [buildIngredientPlan], given the fetched ingredients of the tier.
    The selected combinations are returned next to the formatted meals.
    [None]: the portion precomputation does not end. *)
Definition buildIngredientPlanFull (all : list IngredientDocV2) (macros : Macros)
    (meals_per_day : number) (strictness : Strictness) (goalHint : Goal)
    : option (Rand (list (option MealCombo * MealOptions))) :=
  let tol := toleranceOf strictness in
  let base := baseTargets macros meals_per_day in
  match precompute all base with
  | None => None
  | Some pcands =>
      Some (forM (fun _ => planMeal all base pcands tol goalHint)
                 (seq 0 (mealCount meals_per_day)))
  end.

Definition mapR {A B} (f : A -> B) (m : Rand A) : Rand B := a <- m ;; ret (f a).

Definition buildIngredientPlan (all : list IngredientDocV2) (macros : Macros)
    (meals_per_day : number) (strictness : Strictness) (goalHint : Goal)
    : option (Rand (list MealOptions)) :=
  option_map (mapR (map snd))
             (buildIngredientPlanFull all macros meals_per_day strictness goalHint).

(* ===================================================================== *)
(** ** POST /generatePlan                                                 *)
(* ===================================================================== *)

Record GenerateReq := {
  g_index : IndexReqBase;
  goal : option Goal;
  schedule_days : option number;
  equipment : option Equipment;
  experience : option Experience;
  injuries : option (list Injury);
  budget_tier : option BudgetTier;
  meals_per_day : option number
}.

Inductive Confidence := conf_low | conf_med | conf_high.

Record GenerateRes := {
  idx_BMR : option number;
  idx_method : Method;
  idx_TDEE : number;
  idx_BMI : option number;
  idx_WHtR : option number;
  idx_FFMI : option number;
  kcal : number;
  macros : Macros;
  workouts : list DayPlan;
  ingredients : list MealOptions;
  confidence : Confidence;
  tips : list string;
  notes : list string
}.

Definition join_comma (l : list string) : string :=
  match l with
  | [] => ""
  | s :: l' => fold_left (fun acc x => acc ++ ", " ++ x) l' s
  end%string.

Definition missingFields (body : GenerateReq) : list string :=
  let need := fun (present : bool) (name : string) =>
    if present then [] else [name] in
  need (match sex (g_index body) with Some _ => true | None => false end) "sex"%string
  ++ need (match age_range (g_index body) with
           | Some s => negb (String.eqb s "")
           | None => false
           end) "age_range"%string
  ++ need (match schedule_days body with Some _ => true | None => false end)
          "schedule_days"%string
  ++ need (match equipment body with Some _ => true | None => false end) "equipment"%string
  ++ need (match experience body with Some _ => true | None => false end) "experience"%string
  ++ need (match goal body with Some _ => true | None => false end) "goal"%string
  ++ need (match budget_tier body with Some _ => true | None => false end)
          "budget_tier"%string.

Section Handlers.

Variable localeCompare : string -> string -> number.

(** The two Firestore collections. *)
Variable exercises : list Exercise.
Variable ingredients_db : list IngredientDocV2.

Definition fetchIngredientsByTierV2 (tier : BudgetTier) : list IngredientDocV2 :=
  List.filter (fun i => BudgetTier_eqb (ing_budget_tier i) tier) ingredients_db.

(** The handler; [None] when it never answers. *)
Definition generatePlan (body : GenerateReq) : option (Rand (Http GenerateRes)) :=
  match missingFields body,
        age_range (g_index body), schedule_days body, equipment body,
        experience body, goal body, budget_tier body with
  | [], Some ar, Some daysRaw, Some equip, Some exper, Some gl, Some tier =>
      let days := if Qeq_bool daysRaw 7 then 6 else clamp daysRaw 1 6 in
      let idx := computeIndexes (g_index body) ar in
      let TDEE := computeTDEE (BMR idx) (Some days) (o_TDEE (idx_overrides idx)) in
      let fallbackBMR := nullish (BMR idx) 1500 in
      let safeTDEE :=
        nullish TDEE (Math_round (fallbackBMR * activityMultiplier days)) in
      let kcal_ := setCalories safeTDEE gl in
      let kcal_or := if Qeq_bool kcal_ 0 then safeTDEE else kcal_ in
      let macros_ := setMacros (sex (g_index body)) (weight_kg (g_index body)) kcal_or gl in
      let workouts_ :=
        buildWorkouts localeCompare exercises days exper gl equip
                      (nullish (injuries body) []) in
      let mealsPerDay := nullish (meals_per_day body) (DEFAULT_MEALS_BY_GOAL gl) in
      match buildIngredientPlan (fetchIngredientsByTierV2 tier) macros_ mealsPerDay
                                normal gl with
      | None => None
      | Some plan =>
          Some (ingredients_ <- plan ;;
                let accuracy := fst (accuracyBand (g_index body)) in
                let next_best_input := snd (accuracyBand (g_index body)) in
                ret (Ok200
                  {| idx_BMR := BMR idx; idx_method := method idx; idx_TDEE := safeTDEE;
                     idx_BMI := BMI idx; idx_WHtR := WHtR idx; idx_FFMI := FFMI idx;
                     kcal := kcal_or;
                     macros := macros_;
                     workouts := workouts_;
                     ingredients := ingredients_;
                     confidence :=
                       match accuracy with
                       | acc_highest | acc_high => conf_high
                       | acc_med => conf_med
                       | acc_low => conf_low
                       end;
                     tips :=
                       match next_best_input with
                       | Some nb => [("Add " ++ nb ++ " to improve accuracy")%string]
                       | None => []
                       end;
                     notes :=
                       if Qeq_bool daysRaw 7
                       then [("Input 7 days " ++ "→" ++
                              " using 6 training days + 1 active recovery.")%string]
                       else [] |}))
      end
  | missing, _, _, _, _, _, _ =>
      Some (ret (Err400 ("Missing required fields: " ++ join_comma missing)%string))
  end.

End Handlers.

(* ===================================================================== *)
(** ** POST /adaptPlan                                                    *)
(* ===================================================================== *)

(** The plan is arbitrary JSON to the handler.  The model keeps the parts
    the rules read or write; every other field passes through the deep
    copy untouched.  [pb_muscle] is [String(b.muscle)]; [pb_sets] is
    [None] when [Number(b.sets)] is not a number. *)
Record PlanBlock := {
  pb_muscle : string;
  pb_sets : option number;
  pb_rir : option string
}.

Record PlanDay := {
  pd_blocks : option (list PlanBlock)
}.

Record Plan := {
  plan_kcal : option number;
  plan_workouts : option (list PlanDay)
}.

Inductive WeightTrend := below | on_target | above.

Record ReadinessPayload := {
  sleep_h : number;
  soreness : option (list (string * number));
  stress : number;
  motivation : number
}.

Record AdaptReq := {
  current_plan : option Plan;
  readiness : option ReadinessPayload;
  last_week_adherence_pct : option number;
  weight_trend_2w : option WeightTrend
}.

(** The change-log lines, each standing for its string. *)
Inductive LogLine :=
| SorenessLine (region : string) (score_ : number)
| GlobalFatigueLine
| CaloriesDownLine
| CaloriesUpLine
| LowAdherenceLine.

Record AdaptRes := {
  patched_plan : Plan;
  change_log : list LogLine
}.

(** [Number(b.sets) || 3]. *)
Definition setsOr3 (b : PlanBlock) : number :=
  match pb_sets b with
  | Some s => if Qeq_bool s 0 then 3 else s
  | None => 3
  end.

(** Apply [f] to every block of every workout of the plan. *)
Definition forEachBlock (f : PlanBlock -> PlanBlock) (p : Plan) : Plan :=
  {| plan_kcal := plan_kcal p;
     plan_workouts :=
       option_map (map (fun w => {| pd_blocks := option_map (map f) (pd_blocks w) |}))
                  (plan_workouts p) |}.

Definition regionMatches (region : string) (b : PlanBlock) : bool :=
  includes (pb_muscle b) region || includes region (pb_muscle b).

Definition decrementFor (region : string) (b : PlanBlock) : PlanBlock :=
  if regionMatches region b then
    {| pb_muscle := pb_muscle b;
       pb_sets := Some (Math_max 1 (setsOr3 b - 1));
       pb_rir := pb_rir b |}
  else b.

Definition scaleSets (factor : number) (b : PlanBlock) : PlanBlock :=
  {| pb_muscle := pb_muscle b;
     pb_sets := Some (Math_max 1 (Math_round (setsOr3 b * factor)));
     pb_rir := pb_rir b |}.

(** Rule 1, over [Object.entries(soreness)]. *)
Definition sorenessRule (entries : list (string * number)) (st : Plan * list LogLine)
    : Plan * list LogLine :=
  fold_left
    (fun '(p, log) '(region, score_) =>
       if Qle_bool 4 score_ then
         (forEachBlock (decrementFor region) p, log ++ [SorenessLine region score_])
       else (p, log))
    entries st.

(** Rule 2. *)
Definition fatigueRule (r : ReadinessPayload) (st : Plan * list LogLine)
    : Plan * list LogLine :=
  let '(p, log) := st in
  if Qle_bool 4 (stress r) && Qle_bool (motivation r) 2 then
    (forEachBlock (fun b => {| pb_muscle := pb_muscle b;
                               pb_sets := pb_sets (scaleSets 0.9 b);
                               pb_rir := Some "2"%string |}) p,
     log ++ [GlobalFatigueLine])
  else st.

(** Rule 3. *)
Definition calorieRule (trend : option WeightTrend) (st : Plan * list LogLine)
    : Plan * list LogLine :=
  let '(p, log) := st in
  match plan_kcal p with
  | Some k =>
      if Qeq_bool k 0 then st
      else
        match trend with
        | Some above =>
            let newKcal := Math_round (k * 0.95) in
            if negb (Qeq_bool newKcal k) then
              ({| plan_kcal := Some newKcal; plan_workouts := plan_workouts p |},
               log ++ [CaloriesDownLine])
            else st
        | Some below =>
            let newKcal := Math_round (k * 1.05) in
            if negb (Qeq_bool newKcal k) then
              ({| plan_kcal := Some newKcal; plan_workouts := plan_workouts p |},
               log ++ [CaloriesUpLine])
            else st
        | _ => st
        end
  | None => st
  end.

(** Rule 4. *)
Definition adherenceRule (pct : option number) (st : Plan * list LogLine)
    : Plan * list LogLine :=
  let '(p, log) := st in
  if Qlt_bool (nullish pct 100) 60 then
    (forEachBlock (scaleSets 0.85) p, log ++ [LowAdherenceLine])
  else st.

(** The handler. *)
Definition adaptPlan (body : AdaptReq) : Http AdaptRes :=
  match current_plan body, readiness body with
  | Some plan, Some r =>
      let st := (plan, []) in
      let st := sorenessRule (nullish (soreness r) []) st in
      let st := fatigueRule r st in
      let st := calorieRule (weight_trend_2w body) st in
      let st := adherenceRule (last_week_adherence_pct body) st in
      Ok200 {| patched_plan := fst st; change_log := snd st |}
  | _, _ => Err400 "current_plan and readiness are required."%string
  end.

(* ===================================================================== *)
(** ** Vocabulary of the properties and example inputs                    *)
(* ===================================================================== *)

Definition age_25_34 : string := ("25" ++ en_dash ++ "34")%string.

(** The reference profile: male, 75 kg, 175 cm, age bucket 25-34, no
    body-fat, no overrides. *)
Definition reference_profile : IndexReqBase :=
  {| sex := Some male; age_range := Some age_25_34;
     height_cm := Some 175; weight_kg := Some 75;
     bodyfat_pct := j_undefined; waist_cm := None; overrides := None |}.

(** The override read by the handlers: [overrides?.X ?? null]. *)
Definition overridesOf (body : IndexReqBase) : Overrides :=
  nullish (overrides body) no_overrides.


(** The reference profile with a BMR override of 2500. *)
Definition override_profile : IndexReqBase :=
  {| sex := Some male; age_range := Some age_25_34;
     height_cm := Some 175; weight_kg := Some 75;
     bodyfat_pct := j_undefined; waist_cm := None;
     overrides := Some {| o_BMR := Some 2500; o_TDEE := None; o_BMI := None |} |}.

Definition band_rank (a : Accuracy) : nat :=
  match a with
  | acc_low => 0
  | acc_med => 1
  | acc_high => 2
  | acc_highest => 3
  end.

(** [adds_field r r']: [r'] is [r] with one input field, missing in [r],
    filled in.  An age range counts as missing when it is absent or the
    empty string, and a body-fat entry when its key is missing or holds
    [null], which is how the band reads them. *)
Inductive adds_field (r : IndexReqBase) : IndexReqBase -> Prop :=
| add_sex s :
    sex r = None ->
    adds_field r {| sex := Some s; age_range := age_range r; height_cm := height_cm r;
                    weight_kg := weight_kg r; bodyfat_pct := bodyfat_pct r;
                    waist_cm := waist_cm r; overrides := overrides r |}
| add_age_range a :
    age_range r = None \/ age_range r = Some ""%string ->
    adds_field r {| sex := sex r; age_range := Some a; height_cm := height_cm r;
                    weight_kg := weight_kg r; bodyfat_pct := bodyfat_pct r;
                    waist_cm := waist_cm r; overrides := overrides r |}
| add_height h :
    height_cm r = None ->
    adds_field r {| sex := sex r; age_range := age_range r; height_cm := Some h;
                    weight_kg := weight_kg r; bodyfat_pct := bodyfat_pct r;
                    waist_cm := waist_cm r; overrides := overrides r |}
| add_weight w :
    weight_kg r = None ->
    adds_field r {| sex := sex r; age_range := age_range r; height_cm := height_cm r;
                    weight_kg := Some w; bodyfat_pct := bodyfat_pct r;
                    waist_cm := waist_cm r; overrides := overrides r |}
| add_bodyfat bf :
    bodyfat_pct r = j_undefined \/ bodyfat_pct r = j_null ->
    adds_field r {| sex := sex r; age_range := age_range r; height_cm := height_cm r;
                    weight_kg := weight_kg r; bodyfat_pct := j_number bf;
                    waist_cm := waist_cm r; overrides := overrides r |}
| add_waist w :
    waist_cm r = None ->
    adds_field r {| sex := sex r; age_range := age_range r; height_cm := height_cm r;
                    weight_kg := weight_kg r; bodyfat_pct := bodyfat_pct r;
                    waist_cm := Some w; overrides := overrides r |}.

(** The reference profile with a body-fat entry of 15 %. *)
Definition reference_profile_bf15 : IndexReqBase :=
  {| sex := Some male; age_range := Some age_25_34;
     height_cm := Some 175; weight_kg := Some 75;
     bodyfat_pct := j_number 15; waist_cm := None; overrides := None |}.

(** Equipment compatibility in words: a full gym matches anything; the
    other classes need a matching tag or the bodyweight tag. *)
Definition spec_equipment_ok (userEquipment : Equipment) (tags : list string) : Prop :=
  match userEquipment with
  | full_gym => True
  | dumbbells_only => In "dumbbell"%string tags \/ In "bodyweight"%string tags
  | bands_only => In "band"%string tags \/ In "bodyweight"%string tags
  | bodyweight_only => In "bodyweight"%string tags
  end.

(** A survivor of the filter, in words: the exercise works the target
    muscle, fits the equipment class, and neither its id nor its name
    (read in lower case) contains an avoid-token of a listed injury. *)
Definition spec_survivor (userEquipment : Equipment) (target : string)
    (injuries_ : list Injury) (e : Exercise) : Prop :=
  In target (ex_muscles e) /\
  spec_equipment_ok userEquipment (ex_equipment e) /\
  forall inj token, In inj injuries_ -> In token (INJURY_AVOID inj) ->
    includes (ex_id e) token = false /\
    includes (toLowerCase (ex_name e)) token = false.

(** The ranking in words: compound before isolation, then by name. *)
Definition spec_ranks_before (localeCompare : string -> string -> number)
    (a b : Exercise) : Prop :=
  match ex_movement a, ex_movement b with
  | compound, isolation => True
  | isolation, compound => False
  | _, _ => localeCompare (ex_name a) (ex_name b) <= 0
  end.

(** A concrete collation for examples: the lexicographic order on the
    character codes. *)
Definition byteCompare (a b : string) : number :=
  match OrdersEx.String_as_OT.compare a b with
  | Lt => -1
  | Eq => 0
  | Gt => 1
  end.

(** A two-exercise catalog. *)
Definition demo_exercises : list Exercise :=
  [ {| ex_id := "cable_fly"; ex_name := "Cable Fly";
       ex_muscles := ["chest"; "upper_chest"]%string;
       ex_equipment := ["cable"]%string; ex_movement := isolation |};
    {| ex_id := "bench_press"; ex_name := "Bench Press";
       ex_muscles := ["chest"; "triceps"]%string;
       ex_equipment := ["barbell"]%string; ex_movement := compound |};
    {| ex_id := "incline_press"; ex_name := "Incline Press";
       ex_muscles := ["chest"; "upper_chest"]%string;
       ex_equipment := ["barbell"]%string; ex_movement := compound |} ].

(** The per-day, per-muscle set count of [buildWorkouts] for a split. *)
Definition setsPerMuscleOf (split : list (number * list string))
    (experience_ : Experience) (goal_ : Goal) : number :=
  Math_max 3
    (Math_round
       (setsTarget experience_ goal_ /
        (fold_left (fun acc s => acc + inject_Z (Z.of_nat (length (snd s)))) split 0
         / inject_Z (Z.of_nat (length split))))).

Definition repRangeOf (experience_ : Experience) (goal_ : Goal) : Z * Z :=
  REP_RANGES (match goal_ with strength => style_strength | _ => style_hypertrophy end)
             experience_.

Definition split_table : list (list (number * list string)) :=
  [ splitByDays 1; splitByDays 2; splitByDays 3; splitByDays 4; splitByDays 5;
    splitByDays 6 ].

(** The training days the handler passes on: 7 becomes 6, anything else is
    clamped to [1, 6]. *)
Definition trainingDays (daysRaw : number) : number :=
  if Qeq_bool daysRaw 7 then 6 else clamp daysRaw 1 6.

(** The end-to-end request of the specification, with the reference
    profile. *)
Definition reference_request : GenerateReq :=
  {| g_index := reference_profile_bf15;
     goal := Some hypertrophy; schedule_days := Some 4;
     equipment := Some full_gym; experience := Some intermediate;
     injuries := None; budget_tier := Some tier_medium;
     meals_per_day := Some 4 |}.

Definition constant_tape (u : number) : nat -> number := fun _ => u.



(** A catalog entry sold in one fixed portion. *)
Definition fixed_ingredient (name : string) (cat : Category)
    (kc p c f : number) (grams : number) : IngredientDocV2 :=
  {| ing_id := Some name; ing_name := name; ing_category := cat;
     macro_per_100g := {| m_kcal := kc; m_p := p; m_c := c; m_f := f |};
     typical_portion_g := Some grams; ing_budget_tier := tier_medium;
     portion := Some {| pm_unit := Some unit_g; typical_g := Some grams;
                        min_g := Some grams; max_g := Some grams; step_g := Some 10;
                        grams_per_piece := None; min_pieces := None;
                        max_pieces := None; step_pieces := None |} |}.

(** A small ingredient collection of the medium tier. *)
Definition gram_ingredient (name : string) (cat : Category)
    (kc p c f : number) (typical : number) : IngredientDocV2 :=
  {| ing_id := Some name; ing_name := name; ing_category := cat;
     macro_per_100g := {| m_kcal := kc; m_p := p; m_c := c; m_f := f |};
     typical_portion_g := Some typical; ing_budget_tier := tier_medium;
     portion := None |}.

Definition demo_ingredients : list IngredientDocV2 :=
  [ gram_ingredient "Chicken breast" cat_protein 165 31 0 3.6 100;
    fixed_ingredient "Rice" cat_carb 130 2.7 28 0.3 150;
    fixed_ingredient "Broccoli" cat_veg 34 2.8 7 0.4 100;
    fixed_ingredient "Olive oil" cat_fat 884 0 0 100 10 ].

Definition demo_macros : Macros := {| protein_g := 35; fat_g := 9; carb_g := 50 |}.


(** The run of an allocator call that is known to end. *)
Definition runOf {A} (o : option (Rand A)) (d : A) : Rand A :=
  match o with
  | Some run => run
  | None => ret d
  end.

Definition demo_plan : Rand (list MealOptions) :=
  runOf (buildIngredientPlan demo_ingredients demo_macros 1 normal recomp) [].

Definition demo_full : Rand (list (option MealCombo * MealOptions)) :=
  runOf (buildIngredientPlanFull demo_ingredients demo_macros 1 normal recomp) [].

(** The number of items of a category in a combination, and in a
    per-category list of the response. *)
Definition count_cat (cat : Category) (b : MealCombo) : nat :=
  length (List.filter (fun it => Category_eqb (it_category it) cat) (items b)).

Definition items_in (opts : list ComboOut) : nat :=
  length (flat_map co_items opts).

Definition empty_meal : MealOptions :=
  {| protein_opts := []; carb_opts := []; veg_opts := []; fat_opts := [] |}.

(** A category is needed when its minimum count is at least one. *)
Definition needed (goalHint : Goal) (cat : Category) : bool :=
  (1 <=? fst (ranges goalHint cat))%nat.

(** Every entry of the candidate table is a non-empty list. *)
Definition good_table (table : gmap string (list (IngredientDocV2 * PortionCandidate)))
    : Prop :=
  forall name l, table !! name = Some l -> l <> [].

(** Every item of the combination bears the name of a catalog ingredient
    whose category is one of [cs]. *)
Definition items_from (all : list IngredientDocV2) (cs : list Category) (b : MealCombo)
    : Prop :=
  forall it, In it (items b) ->
    exists ing0, In ing0 all /\ it_name it = ing_name ing0 /\ In (ing_category ing0) cs.

(** A catalog in which the only fat source bears the name of the only
    protein source. *)
Definition shared_name_ingredients : list IngredientDocV2 :=
  [ {| ing_id := Some "peanut_butter_protein"%string; ing_name := "Peanut butter";
       ing_category := cat_protein;
       macro_per_100g := {| m_kcal := 588; m_p := 25; m_c := 20; m_f := 50 |};
       typical_portion_g := Some 30; ing_budget_tier := tier_medium; portion := None |};
    fixed_ingredient "Rice" cat_carb 130 2.7 28 0.3 150;
    fixed_ingredient "Broccoli" cat_veg 34 2.8 7 0.4 100;
    {| ing_id := Some "peanut_butter_fat"%string; ing_name := "Peanut butter";
       ing_category := cat_fat;
       macro_per_100g := {| m_kcal := 588; m_p := 25; m_c := 20; m_f := 50 |};
       typical_portion_g := Some 15; ing_budget_tier := tier_medium; portion := None |} ].

Definition shared_name_full : Rand (list (option MealCombo * MealOptions)) :=
  runOf (buildIngredientPlanFull shared_name_ingredients demo_macros 1 normal recomp) [].

(** The block at position [j] of workout [i]. *)
Definition blockAt (p : Plan) (i j : nat) : option PlanBlock :=
  match plan_workouts p with
  | Some ws =>
      match nth_error ws i with
      | Some w =>
          match pd_blocks w with
          | Some bs => nth_error bs j
          | None => None
          end
      | None => None
      end
  | None => None
  end.

(** The number of sore regions (soreness at least 4) that match a block. *)
Definition hits (entries : list (string * number)) (b : PlanBlock) : nat :=
  length (List.filter (fun e => Qle_bool 4 (snd e) && regionMatches (fst e) b) entries).

(** One decrement: [sets = max(1, (Number(sets) || 3) - 1)]. *)
Definition decBlock (b : PlanBlock) : PlanBlock :=
  {| pb_muscle := pb_muscle b;
     pb_sets := Some (Math_max 1 (setsOr3 b - 1));
     pb_rir := pb_rir b |}.

(** What rule 1 does to one block over all the soreness entries. *)
Definition sorenessBlock (entries : list (string * number)) (b : PlanBlock) : PlanBlock :=
  fold_left (fun b e => if Qle_bool 4 (snd e) then decrementFor (fst e) b else b)
            entries b.

(** The same request on another plan. *)
Definition withPlan (body : AdaptReq) (p : Plan) : AdaptReq :=
  {| current_plan := Some p; readiness := readiness body;
     last_week_adherence_pct := last_week_adherence_pct body;
     weight_trend_2w := weight_trend_2w body |}.

(** Rules 2 and 4 do not fire. *)
Definition onlySorenessAndTrend (body : AdaptReq) : Prop :=
  match readiness body with
  | Some r => Qle_bool 4 (stress r) && Qle_bool (motivation r) 2 = false
  | None => True
  end /\
  Qlt_bool (nullish (last_week_adherence_pct body) 100) 60 = false.

Definition sorenessEntries (body : AdaptReq) : list (string * number) :=
  match readiness body with
  | Some r => nullish (soreness r) []
  | None => []
  end.

(** A plan with one workout of three blocks. *)
Definition demo_workout_plan : Plan :=
  {| plan_kcal := Some 2500;
     plan_workouts :=
       Some [ {| pd_blocks :=
                   Some [ {| pb_muscle := "upper_chest"; pb_sets := Some 6;
                             pb_rir := Some "1-2"%string |};
                          {| pb_muscle := "chest"; pb_sets := Some 4;
                             pb_rir := Some "1-2"%string |};
                          {| pb_muscle := "quads"; pb_sets := Some 5;
                             pb_rir := Some "1-2"%string |} ] |} ] |}.

(** Sore chest only. *)
Definition sore_chest_request : AdaptReq :=
  {| current_plan := Some demo_workout_plan;
     readiness := Some {| sleep_h := 7;
                          soreness := Some [("chest"%string, 4); ("quads"%string, 2)];
                          stress := 2; motivation := 4 |};
     last_week_adherence_pct := None;
     weight_trend_2w := None |}.

(** Sore chest and sore upper chest: both regions match an upper-chest
    block. *)
Definition sore_chest_and_upper_request : AdaptReq :=
  {| current_plan := Some demo_workout_plan;
     readiness := Some {| sleep_h := 7;
                          soreness := Some [("chest"%string, 4);
                                            ("upper_chest"%string, 5)];
                          stress := 2; motivation := 4 |};
     last_week_adherence_pct := None;
     weight_trend_2w := None |}.

(** A plan whose only block has a set count of zero, with a sore chest. *)
Definition zero_sets_request : AdaptReq :=
  {| current_plan :=
       Some {| plan_kcal := None;
               plan_workouts :=
                 Some [ {| pd_blocks :=
                             Some [ {| pb_muscle := "chest"; pb_sets := Some 0;
                                       pb_rir := None |} ] |} ] |};
     readiness := Some {| sleep_h := 7; soreness := Some [("chest"%string, 4)];
                          stress := 2; motivation := 4 |};
     last_week_adherence_pct := None;
     weight_trend_2w := None |}.

Definition patchedOf (r : Http AdaptRes) : AdaptRes :=
  match r with
  | Ok200 res => res
  | _ => {| patched_plan := demo_workout_plan; change_log := [] |}
  end.

(** The training-day class that selects the activity multiplier and the
    weekly split: the whole days, kept within 1 and 6. *)
Definition dayClass (days : number) : Z := Z.max 1 (Z.min 6 (Qfloor days)).

(** A string without an ASCII hyphen. *)
Fixpoint hyphen_free (s : string) : bool :=
  match s with
  | EmptyString => true
  | String c s' => negb (Ascii.eqb c "-"%char) && hyphen_free s'
  end.


(** The reference profile with every override inside its clamp range. *)
Definition all_overrides_profile : IndexReqBase :=
  {| sex := Some male; age_range := Some age_25_34;
     height_cm := Some 175; weight_kg := Some 75;
     bodyfat_pct := j_undefined; waist_cm := None;
     overrides := Some {| o_BMR := Some 2500; o_TDEE := Some 3000; o_BMI := Some 30 |} |}.

(** Equipment classes ordered by what they admit: bodyweight only admits
    the least, a full gym everything. *)
Definition equipment_le (a b : Equipment) : bool :=
  match a, b with
  | bodyweight_only, _ => true
  | _, full_gym => true
  | dumbbells_only, dumbbells_only => true
  | bands_only, bands_only => true
  | _, _ => false
  end.

(** The insertion-ordered map of [buildWorkouts] is well grouped for a
    choice function [f]: its keys are pairwise distinct, and every key
    holds a non-empty list of muscles that [f] maps to that key. *)
Definition wellGrouped (f : string -> string) (m : list (string * list string)) : Prop :=
  List.NoDup (map fst m) /\
  Forall (fun km => snd km <> [] /\ Forall (fun t => f t = fst km) (snd km)) m.

(** A bodyweight exercise for the chest. *)
Definition demo_pushup : Exercise :=
  {| ex_id := "knee_pushup"; ex_name := "Knee Push-up";
     ex_muscles := ["chest"; "triceps"]%string;
     ex_equipment := ["bodyweight"]%string; ex_movement := compound |}.



(** The portion metadata [ing.portion || {}] and the gram bounds
    [portionCandidates] derives from it. *)
Definition portionOf (ing : IngredientDocV2) : PortionMeta :=
  nullish (portion ing) empty_portion.

Definition typicalOf (ing : IngredientDocV2) : number :=
  nullish (typical_g (portionOf ing)) (nullish (typical_portion_g ing) 100).

Definition minGOf (ing : IngredientDocV2) : number :=
  nullish (min_g (portionOf ing)) (Math_max 50 (Math_floor (typicalOf ing * 0.5))).

Definition maxGOf (ing : IngredientDocV2) : number :=
  nullish (max_g (portionOf ing)) (Math_min 300 (Math_ceil (typicalOf ing * 2.0))).

(** The items of the four per-category lists of a formatted meal. *)
Definition mealItems (m : MealOptions) : list IngredientItem :=
  flat_map co_items (protein_opts m) ++ flat_map co_items (carb_opts m)
  ++ flat_map co_items (veg_opts m) ++ flat_map co_items (fat_opts m).

(** A combination whose running totals are the sums over its items and
    whose items bear pairwise distinct ingredient names. *)
Definition balanced (b : MealCombo) : Prop :=
  totP b = sumBy it_p (items b) /\
  totC b = sumBy it_c (items b) /\
  totF b = sumBy it_f (items b) /\
  totK b = sumBy it_kcal (items b) /\
  List.NoDup (map it_name (items b)).

(** Every field /generatePlan requires is present. *)
Definition allPresent (body : GenerateReq) : Prop :=
  sex (g_index body) <> None /\
  (exists ar, age_range (g_index body) = Some ar /\ ar <> ""%string) /\
  schedule_days body <> None /\ equipment body <> None /\
  experience body <> None /\ goal body <> None /\ budget_tier body <> None.

(** The reference request without height and weight. *)
Definition unmeasured_request : GenerateReq :=
  {| g_index := {| sex := Some male; age_range := Some age_25_34;
                   height_cm := None; weight_kg := None;
                   bodyfat_pct := j_undefined; waist_cm := None; overrides := None |};
     goal := Some hypertrophy; schedule_days := Some 7;
     equipment := Some full_gym; experience := Some intermediate;
     injuries := None; budget_tier := Some tier_medium;
     meals_per_day := None |}.

(** What rule 2 does to one block. *)
Definition fatigued (b : PlanBlock) : PlanBlock :=
  {| pb_muscle := pb_muscle b;
     pb_sets := pb_sets (scaleSets 0.9 b);
     pb_rir := Some "2"%string |}.

(** What the four rules of /adaptPlan do, in order, to one block. *)
Definition adaptBlock (r : ReadinessPayload) (pct : option number) (b : PlanBlock)
    : PlanBlock :=
  let b1 := sorenessBlock (nullish (soreness r) []) b in
  let b2 := if Qle_bool 4 (stress r) && Qle_bool (motivation r) 2 then fatigued b1 else b1 in
  if Qlt_bool (nullish pct 100) 60 then scaleSets 0.85 b2 else b2.

(** The block has a whole number [z] of sets. *)
Definition wholeSets (b : PlanBlock) (z : Z) : Prop :=
  exists s, pb_sets b = Some s /\ s == inject_Z z.

(** A request that fires every block rule on the demonstration plan: sore
    chest, high stress with low motivation, and low adherence. *)
Definition worn_out_request : AdaptReq :=
  {| current_plan := Some demo_workout_plan;
     readiness := Some {| sleep_h := 5; soreness := Some [("chest"%string, 5)];
                          stress := 5; motivation := 1 |};
     last_week_adherence_pct := Some 40;
     weight_trend_2w := Some above |}.

(** A request whose signals are all calm. *)
Definition calm_request : AdaptReq :=
  {| current_plan := Some demo_workout_plan;
     readiness := Some {| sleep_h := 8; soreness := Some [("chest"%string, 2)];
                          stress := 1; motivation := 5 |};
     last_week_adherence_pct := Some 90;
     weight_trend_2w := Some on_target |}.

(* ===================================================================== *)
(** ** The seeding script: batched upserts                                *)
(* ===================================================================== *)

(** [items.slice(a, b)] for [a <= b]. *)
Definition slice {T} (a b : nat) (l : list T) : list T := firstn (b - a) (skipn a l).

(** The batches committed by
    [for (let i = 0; i < items.length; i += batchSize)] with
    [batchSize = 400]: one list of written items per [batch.commit()]. *)
Fixpoint upsert_loop {T} (fuel i : nat) (items : list T) : list (list T) :=
  match fuel with
  | O => []
  | S fuel' =>
      if (i <? length items)%nat
      then slice i (i + 400) items :: upsert_loop fuel' (i + 400) items
      else []
  end.

(** [upsertCollection]: the loop runs at most once per item. *)
Definition upsertCollection {T} (items : list T) : list (list T) :=
  upsert_loop (S (length items)) 0 items.





(* ===================================================================== *)
(** * Properties                                                          *)
(* ===================================================================== *)

(** ** Index calculator *)

Lemma Qeq_bool_false (x y : Q) : ~ x == y -> Qeq_bool x y = false.
Proof.
  intros Hne. destruct (Qeq_bool x y) eqn:E; [|reflexivity].
  apply Qeq_bool_iff in E. contradiction.
Qed.


Lemma recalculateIndexes_ok (body : IndexReqBase) (r : RecalcRes) :
  recalculateIndexes body = Ok200 r ->
  exists ar,
    age_range body = Some ar /\
    r_BMR r = BMR (computeIndexes body ar) /\
    r_BMI r = BMI (computeIndexes body ar) /\
    r_TDEE r = computeTDEE (BMR (computeIndexes body ar)) (Some 3) (o_TDEE (overridesOf body)) /\
    r_warnings r =
      detectOverrideWarnings (r_BMR r) (o_BMR (overridesOf body)) "BMR" ++
      detectOverrideWarnings (r_TDEE r) (o_TDEE (overridesOf body)) "TDEE" ++
      detectOverrideWarnings (r_BMI r) (o_BMI (overridesOf body)) "BMI".
Proof.
  unfold recalculateIndexes. intros H.
  destruct (sex body); [|discriminate].
  destruct (age_range body) as [ar|]; [|discriminate].
  destruct (String.eqb ar ""); [discriminate|].
  injection H as <-. exists ar. cbn. repeat split; reflexivity.
Qed.

(** C1 (as amended).  For the reference profile the age bucket maps to 29,
    the Mifflin expression 10*75 + 6.25*175 - 5*29 + 5 is 1703.75, and the
    BMR returned by the index calculator is that value rounded: 1704, with
    method mifflin. *)
Theorem C1_reference_bmr_is_1704 :
  mapAgeRangeToNumeric age_25_34 = 29 /\
  10 * 75 + 6.25 * 175 - 5 * 29 + 5 == 1703.75 /\
  BMR (computeIndexes reference_profile age_25_34) = Some 1704 /\
  method (computeIndexes reference_profile age_25_34) = mifflin_m /\
  exists r, recalculateIndexes reference_profile = Ok200 r /\ r_BMR r = Some 1704.
Proof.
  repeat split; try reflexivity.
  eexists. split; reflexivity.
Qed.

(** C1 as stated fails: the BMR of the reference profile is not 1730. *)
Lemma C1_reference_bmr_is_not_1730 :
  ~ (exists b, BMR (computeIndexes reference_profile age_25_34) = Some b /\ b == 1730).
Proof.
  intros [b [Hb Heq]]. vm_compute in Hb. injection Hb as <-.
  vm_compute in Heq. discriminate.
Qed.

Example katch_reference_bmr :
  BMR (computeIndexes reference_profile_bf15 age_25_34) = Some 1747 /\
  method (computeIndexes reference_profile_bf15 age_25_34) = katch_m.
Proof. split; reflexivity. Qed.

Example tdee_four_days_bmr_1730 : computeTDEE (Some 1730) (Some 4) None = Some 2682.
Proof. reflexivity. Qed.




(** ** Override warnings *)

Lemma clamp_Qeq (x lo hi : number) :
  lo <= x -> x <= hi -> clamp x lo hi == x.
Proof.
  intros Hlo Hhi. unfold clamp, Math_max, Math_min.
  destruct (Qle_bool hi x) eqn:E1.
  - apply Qle_bool_iff in E1.
    assert (Hx : hi == x) by (apply Qle_antisym; assumption).
    destruct (Qle_bool lo hi) eqn:E2; [assumption|].
    assert (Hle : lo <= hi) by (rewrite Hx; assumption).
    apply Qle_bool_iff in Hle. congruence.
  - destruct (Qle_bool lo x) eqn:E2; [reflexivity|].
    apply Qle_bool_iff in Hlo. congruence.
Qed.

Lemma detectOverrideWarnings_same (c o : number) (label : string) :
  c == o -> ~ c == 0 -> detectOverrideWarnings (Some c) (Some o) label = [].
Proof.
  intros Hco Hc. unfold detectOverrideWarnings.
  rewrite (Qeq_bool_false c 0 Hc).
  assert (Hz : Math_abs (o - c) / c == 0).
  { assert (H0 : o - c == 0) by (rewrite <- Hco; ring).
    unfold Math_abs. rewrite H0. change (Qabs 0) with 0. unfold Qdiv. ring. }
  unfold Qlt_bool.
  assert (Hle : Math_abs (o - c) / c <= 0.15) by (rewrite Hz; discriminate).
  apply Qle_bool_iff in Hle. rewrite Hle. reflexivity.
Qed.

(** Whatever the profile computes, a BMR override inside the clamp range
    [800, 3000] is compared with itself and never yields a BMR warning. *)
Lemma bmr_override_within_clamp_never_warns
    (body : IndexReqBase) (r : RecalcRes) (o : number) :
  recalculateIndexes body = Ok200 r ->
  o_BMR (overridesOf body) = Some o ->
  800 <= o -> o <= 3000 ->
  detectOverrideWarnings (r_BMR r) (Some o) "BMR" = [].
Proof.
  intros Hok Ho Hlo Hhi.
  destruct (recalculateIndexes_ok body r Hok) as (ar & _ & HB & _).
  rewrite HB. unfold computeIndexes. cbn [BMR].
  fold (overridesOf body). rewrite Ho. cbn [fst].
  pose proof (clamp_Qeq o 800 3000 Hlo Hhi) as Hc.
  apply detectOverrideWarnings_same; [assumption|].
  rewrite Hc. intros Hz. rewrite Hz in Hlo.
  apply Qle_bool_iff in Hlo. discriminate Hlo.
Qed.

(** C3 (the code departs from it).  For the reference profile the computed
    (Mifflin) BMR is 1704; an override of 2500 differs from it by more than
    15 % of 1704, yet the response carries no warning: the handler compares
    the override with the BMR that already is the override. *)
Theorem C3_override_far_from_computed_yields_no_warning :
  mifflin (sex override_profile) (weight_kg override_profile)
          (height_cm override_profile) (Some (mapAgeRangeToNumeric age_25_34))
    = Some 1704 /\
  katch (weight_kg override_profile)
        (toNumberOrUndefined (bodyfat_pct override_profile)) = None /\
  Qlt_bool 0.15 (Math_abs (2500 - 1704) / 1704) = true /\
  exists r, recalculateIndexes override_profile = Ok200 r /\
            r_BMR r = Some 2500 /\
            r_warnings r = [].
Proof.
  repeat split; try reflexivity.
  eexists. repeat split; reflexivity.
Qed.

(** ** Accuracy band *)

(** C7.  Filling in any one missing field never lowers the accuracy band
    on the ladder low < med < high < highest. *)
Theorem C7_accuracy_band_monotone (r r' : IndexReqBase) :
  adds_field r r' ->
  (band_rank (fst (accuracyBand r)) <= band_rank (fst (accuracyBand r')))%nat.
Proof.
  intros H.
  destruct H as [s' Hm|a' Hm|h' Hm|w' Hm|bf' Hm|wa' Hm];
    destruct r as [s a h w bf wa ov]; cbn in Hm;
    try (destruct Hm as [Hm|Hm]); subst;
    unfold accuracyBand; cbn;
    repeat match goal with
           | |- context [match ?x with _ => _ end] =>
               is_var x; destruct x
           | |- context [String.eqb ?x ""] => destruct (String.eqb x "")
           end;
    cbn; lia.
Qed.

Lemma C7_accuracy_band_monotone_witness :
  (band_rank (fst (accuracyBand reference_profile))
   <= band_rank (fst (accuracyBand reference_profile_bf15)))%nat.
Proof.
  apply (C7_accuracy_band_monotone reference_profile).
  apply (add_bodyfat reference_profile 15). left. reflexivity.
Defined.

(** ** Facts about [sort] *)

Section SortFacts.

Context {A : Type} (cmp : A -> A -> number).

Lemma sort_insert_In (x y : A) (l : list A) :
  In y (sort_insert cmp x l) <-> y = x \/ In y l.
Proof.
  induction l as [|z l IH]; cbn.
  - intuition.
  - destruct (Qle_bool (cmp x z) 0); cbn; rewrite ?IH; intuition.
Qed.

Lemma sort_cons (x : A) (l : list A) :
  sort cmp (x :: l) = sort_insert cmp x (sort cmp l).
Proof. reflexivity. Qed.

Lemma sort_In (y : A) (l : list A) : In y (sort cmp l) <-> In y l.
Proof.
  induction l as [|x l IH]; [cbn; tauto|].
  rewrite sort_cons, sort_insert_In, IH. cbn. intuition.
Qed.

Lemma sort_insert_length (x : A) (l : list A) :
  length (sort_insert cmp x l) = S (length l).
Proof.
  induction l as [|z l IH]; cbn; [reflexivity|].
  destruct (Qle_bool (cmp x z) 0); cbn; [reflexivity|]. now rewrite IH.
Qed.

Lemma sort_length (l : list A) : length (sort cmp l) = length l.
Proof.
  induction l as [|x l IH]; [reflexivity|].
  rewrite sort_cons, sort_insert_length, IH. reflexivity.
Qed.

Lemma sort_nil_inv (l : list A) : sort cmp l = [] -> l = [].
Proof.
  intros H. apply (f_equal (@length A)) in H. rewrite sort_length in H.
  destruct l; [reflexivity|discriminate].
Qed.

Hypothesis before_total :
  forall x y, Qle_bool (cmp x y) 0 = true \/ Qle_bool (cmp y x) 0 = true.
Hypothesis before_trans :
  forall x y z, Qle_bool (cmp x y) 0 = true -> Qle_bool (cmp y z) 0 = true ->
                Qle_bool (cmp x z) 0 = true.

(** The first element of a sorted list is before every element. *)
Lemma sort_head_min (l : list A) (x : A) (t : list A) :
  sort cmp l = x :: t -> forall y, In y l -> Qle_bool (cmp x y) 0 = true.
Proof.
  revert x t. induction l as [|a l IH]; intros x t Hs y Hy; [contradiction|].
  rewrite sort_cons in Hs. destruct (sort cmp l) as [|m t'] eqn:El.
  - apply sort_nil_inv in El. subst l. cbn in Hs. injection Hs as <- <-.
    destruct Hy as [<-|[]]. destruct (before_total a a); assumption.
  - cbn in Hs. destruct (Qle_bool (cmp a m) 0) eqn:Ea.
    + injection Hs as <- <-. destruct Hy as [<-|Hy].
      * destruct (before_total a a); assumption.
      * apply before_trans with m; [exact Ea|]. now apply (IH m t').
    + injection Hs as <- <-. destruct Hy as [<-|Hy].
      * destruct (before_total m a) as [H|H]; [exact H|].
        congruence.
      * now apply (IH m t').
Qed.

End SortFacts.

(** ** Exercise selection *)

Lemma list_includes_In (l : list string) (s : string) :
  list_includes l s = true <-> In s l.
Proof.
  unfold list_includes. rewrite existsb_exists. split.
  - intros [x [Hx He]]. apply String.eqb_eq in He. now subst.
  - intros H. exists s. split; [assumption|apply String.eqb_refl].
Qed.

Lemma checkEquipmentCompatibility_spec (tags : list string) (u : Equipment) :
  checkEquipmentCompatibility tags u = true <-> spec_equipment_ok u tags.
Proof.
  destruct u; cbn; rewrite ?orb_true_iff, ?list_includes_In; tauto.
Qed.

Lemma isCandidate_spec (u : Equipment) (target : string) (inj : list Injury)
    (e : Exercise) :
  isCandidate u target inj e = true <-> spec_survivor u target inj e.
Proof.
  unfold isCandidate, spec_survivor.
  destruct (list_includes (ex_muscles e) target) eqn:Em; cbn.
  2:{ split; [discriminate|]. intros [H _]. apply list_includes_In in H. congruence. }
  apply list_includes_In in Em.
  destruct (checkEquipmentCompatibility (ex_equipment e) u) eqn:Ec; cbn.
  2:{ split; [discriminate|]. intros (_ & H & _).
      apply checkEquipmentCompatibility_spec in H. congruence. }
  apply checkEquipmentCompatibility_spec in Ec.
  rewrite negb_true_iff. split.
  - intros Hno. repeat split; try assumption.
    all: destruct (includes _ token) eqn:Ei; [exfalso|reflexivity].
    all: assert (Hex : existsb (fun token0 =>
             includes (ex_id e) token0 || includes (toLowerCase (ex_name e)) token0)
             (flat_map INJURY_AVOID inj) = true)
           by (apply existsb_exists; exists token; split;
               [apply in_flat_map; eauto | rewrite Ei; auto using orb_true_r]).
    all: congruence.
  - intros (_ & _ & Hno).
    destruct (existsb _ _) eqn:Ex; [exfalso|reflexivity].
    apply existsb_exists in Ex. destruct Ex as [token [Hin Ht]].
    apply in_flat_map in Hin. destruct Hin as [i [Hi Htok]].
    destruct (Hno i token Hi Htok) as [H1 H2]. rewrite H1, H2 in Ht. discriminate.
Qed.

Section ChooseExercise.

Variable localeCompare : string -> string -> number.
Variable exercises : list Exercise.

(** The collation is a total preorder. *)
Hypothesis localeCompare_total :
  forall a b, localeCompare a b <= 0 \/ localeCompare b a <= 0.
Hypothesis localeCompare_trans :
  forall a b c, localeCompare a b <= 0 -> localeCompare b c <= 0 ->
                localeCompare a c <= 0.

Lemma exerciseOrder_spec (a b : Exercise) :
  Qle_bool (exerciseOrder localeCompare a b) 0 = true
  <-> spec_ranks_before localeCompare a b.
Proof.
  unfold exerciseOrder, spec_ranks_before.
  destruct (ex_movement a), (ex_movement b); rewrite ?Qle_bool_iff; try tauto.
  - split; [trivial|]. intros _. discriminate.
  - split; [|contradiction]. intros H. apply Qle_bool_iff in H. discriminate.
Qed.

(** C8.  [chooseExercise] returns the fallback id when no catalog
    exercise survives the filter; otherwise it returns the id of a
    survivor that ranks before every survivor (compound before
    isolation, then by name). *)
Theorem C8_chooseExercise_picks_first_ranked_survivor
    (userEquipment : Equipment) (target : string) (injuries_ : list Injury) :
  ((forall e, In e exercises -> ~ spec_survivor userEquipment target injuries_ e) ->
   chooseExercise localeCompare exercises userEquipment target injuries_
     = (target ++ "_fallback_exercise")%string)
  /\
  ((exists e, In e exercises /\ spec_survivor userEquipment target injuries_ e) ->
   exists e, In e exercises /\ spec_survivor userEquipment target injuries_ e /\
     chooseExercise localeCompare exercises userEquipment target injuries_ = ex_id e /\
     forall e', In e' exercises -> spec_survivor userEquipment target injuries_ e' ->
                spec_ranks_before localeCompare e e').
Proof.
  unfold chooseExercise.
  set (cands := List.filter (isCandidate userEquipment target injuries_) exercises).
  split.
  - intros Hnone.
    assert (Hc : cands = []).
    { destruct cands as [|c cs] eqn:Ec; [reflexivity|exfalso].
      assert (Hin : In c cands) by (rewrite Ec; left; reflexivity).
      apply filter_In in Hin. destruct Hin as [Hin Hcand].
      apply isCandidate_spec in Hcand. exact (Hnone c Hin Hcand). }
    rewrite Hc. reflexivity.
  - intros [e0 [Hin0 Hs0]].
    assert (Hin0' : In e0 cands)
      by (apply filter_In; split; [assumption|now apply isCandidate_spec]).
    destruct (sort (exerciseOrder localeCompare) cands) as [|e t] eqn:Es.
    { apply sort_nil_inv in Es. rewrite Es in Hin0'. contradiction. }
    assert (He : In e cands) by (apply (sort_In (exerciseOrder localeCompare));
                                 rewrite Es; left; reflexivity).
    apply filter_In in He. destruct He as [He Hc].
    exists e. split; [assumption|]. split; [now apply isCandidate_spec|].
    split; [reflexivity|].
    intros e' Hin' Hs'. apply exerciseOrder_spec.
    apply (sort_head_min (exerciseOrder localeCompare)) with (l := cands) (t := t);
      [| |assumption|apply filter_In; split; [assumption|now apply isCandidate_spec]].
    + intros x y. rewrite !exerciseOrder_spec. unfold spec_ranks_before.
      destruct (ex_movement x), (ex_movement y); auto.
    + intros x y z. rewrite !exerciseOrder_spec. unfold spec_ranks_before.
      destruct (ex_movement x), (ex_movement y), (ex_movement z); eauto; tauto.
Qed.

End ChooseExercise.

Lemma byteCompare_le (a b : string) :
  byteCompare a b <= 0 <-> a = b \/ OrdersEx.String_as_OT.lt a b.
Proof.
  unfold byteCompare.
  destruct (OrdersEx.String_as_OT.compare_spec a b) as [He|Hl|Hg].
  - split; [auto|]. intros _. discriminate.
  - split; [auto|]. intros _. discriminate.
  - split.
    + intros H. apply Qle_bool_iff in H. discriminate.
    + intros [->|Hl]; exfalso.
      * exact (StrictOrder_Irreflexive _ Hg).
      * exact (StrictOrder_Irreflexive _ (StrictOrder_Transitive _ _ _ Hg Hl)).
Qed.

Lemma byteCompare_total (a b : string) :
  byteCompare a b <= 0 \/ byteCompare b a <= 0.
Proof.
  rewrite !byteCompare_le.
  destruct (OrdersEx.String_as_OT.compare_spec a b) as [He|Hl|Hg]; auto.
Qed.

Lemma byteCompare_trans (a b c : string) :
  byteCompare a b <= 0 -> byteCompare b c <= 0 -> byteCompare a c <= 0.
Proof.
  rewrite !byteCompare_le. intros [->|H1] [->|H2]; auto.
  right. exact (StrictOrder_Transitive _ _ _ H1 H2).
Qed.

Lemma C8_chooseExercise_witness :
  exists e, In e demo_exercises /\ spec_survivor full_gym "chest" [wrist] e /\
    chooseExercise byteCompare demo_exercises full_gym "chest" [wrist] = ex_id e /\
    forall e', In e' demo_exercises -> spec_survivor full_gym "chest" [wrist] e' ->
               spec_ranks_before byteCompare e e'.
Proof.
  apply (proj2 (C8_chooseExercise_picks_first_ranked_survivor
                  byteCompare demo_exercises byteCompare_total byteCompare_trans
                  full_gym "chest"%string [wrist])).
  eexists. split; [right; right; left; reflexivity|].
  split; [left; reflexivity|]. split; [exact I|].
  intros inj token [<-|[]] Htok. cbn in Htok.
  destruct Htok as [<-|[<-|[<-|[]]]]; split; reflexivity.
Defined.

Example chooseExercise_demo_wrist :
  chooseExercise byteCompare demo_exercises full_gym "chest" [wrist] = "incline_press"%string
  /\ chooseExercise byteCompare demo_exercises full_gym "chest" [] = "bench_press"%string
  /\ chooseExercise byteCompare demo_exercises bodyweight_only "chest" []
     = "chest_fallback_exercise"%string.
Proof. repeat split; reflexivity. Qed.

(** ** Workout blocks *)

Lemma splitByDays_in_table (days : number) : In (splitByDays days) split_table.
Proof.
  unfold splitByDays at 1.
  destruct (Qle_bool _ 1); [left; reflexivity|].
  destruct (Qeq_bool _ 2); [right; left; reflexivity|].
  destruct (Qeq_bool _ 3); [right; right; left; reflexivity|].
  destruct (Qeq_bool _ 4); [right; right; right; left; reflexivity|].
  destruct (Qeq_bool _ 5); [right; right; right; right; left; reflexivity|].
  right; right; right; right; right; left; reflexivity.
Qed.

Lemma setsPerMuscleOf_bounds (days : number) (experience_ : Experience) (goal_ : Goal) :
  3 <= setsPerMuscleOf (splitByDays days) experience_ goal_ /\
  setsPerMuscleOf (splitByDays days) experience_ goal_ <= 22.
Proof.
  pose proof (splitByDays_in_table days) as Hin.
  unfold split_table in Hin. cbn [In] in Hin.
  destruct Hin as [<-|[<-|[<-|[<-|[<-|[<-|[]]]]]]];
    destruct experience_, goal_;
    split; apply Qle_bool_iff; vm_compute; reflexivity.
Qed.

Lemma repRangeOf_ordered (experience_ : Experience) (goal_ : Goal) :
  (fst (repRangeOf experience_ goal_) <= snd (repRangeOf experience_ goal_))%Z.
Proof. destruct experience_, goal_; cbn; lia. Qed.

(** Every block built by [buildWorkouts] carries the set count of the
    split and the rendered rep range of the experience and goal. *)
Lemma buildWorkouts_block_shape (localeCompare : string -> string -> number)
    (exercises : list Exercise) (days : number) (experience_ : Experience)
    (goal_ : Goal) (equipment_ : Equipment) (injuries_ : list Injury)
    (d : DayPlan) (b : WorkoutBlock) :
  In d (buildWorkouts localeCompare exercises days experience_ goal_ equipment_ injuries_) ->
  In b (blocks d) ->
  sets b = setsPerMuscleOf (splitByDays days) experience_ goal_ /\
  reps b = (render_int (fst (repRangeOf experience_ goal_)) ++ en_dash
            ++ render_int (snd (repRangeOf experience_ goal_)))%string.
Proof.
  unfold buildWorkouts. intros Hd Hb.
  apply in_map_iff in Hd. destruct Hd as [[dn muscles] [<- _]].
  cbn [blocks] in Hb. apply in_map_iff in Hb. destruct Hb as [[id worked] [<- _]].
  split; reflexivity.
Qed.

(** What a successful /generatePlan response is made of. *)
Lemma generatePlan_ok (localeCompare : string -> string -> number)
    (exercises : list Exercise) (ingredients_db : list IngredientDocV2)
    (body : GenerateReq) (run : Rand (Http GenerateRes))
    (tape : nat -> number) (n n' : nat) (resp : GenerateRes) :
  generatePlan localeCompare exercises ingredients_db body = Some run ->
  run tape n = (Ok200 resp, n') ->
  exists daysRaw equip exper gl tier plan,
    schedule_days body = Some daysRaw /\
    equipment body = Some equip /\
    experience body = Some exper /\
    goal body = Some gl /\
    budget_tier body = Some tier /\
    workouts resp =
      buildWorkouts localeCompare exercises (trainingDays daysRaw) exper gl equip
                    (nullish (injuries body) []) /\
    buildIngredientPlan (fetchIngredientsByTierV2 ingredients_db tier) (macros resp)
                        (nullish (meals_per_day body) (DEFAULT_MEALS_BY_GOAL gl))
                        normal gl = Some plan /\
    ingredients resp = fst (plan tape n).
Proof.
  unfold generatePlan. intros Hgen Hrun.
  destruct (missingFields body) as [|m ms].
  2:{ injection Hgen as <-. cbn in Hrun. discriminate. }
  destruct (age_range (g_index body)) as [ar|];
    [|injection Hgen as <-; cbn in Hrun; discriminate].
  destruct (schedule_days body) as [daysRaw|];
    [|injection Hgen as <-; cbn in Hrun; discriminate].
  destruct (equipment body) as [equip|];
    [|injection Hgen as <-; cbn in Hrun; discriminate].
  destruct (experience body) as [exper|];
    [|injection Hgen as <-; cbn in Hrun; discriminate].
  destruct (goal body) as [gl|];
    [|injection Hgen as <-; cbn in Hrun; discriminate].
  destruct (budget_tier body) as [tier|];
    [|injection Hgen as <-; cbn in Hrun; discriminate].
  match type of Hgen with
  | match ?bp with _ => _ end = _ => destruct bp as [plan|] eqn:Eplan; [|discriminate]
  end.
  injection Hgen as <-. unfold bind, ret in Hrun.
  destruct (plan tape n) as [ing n1] eqn:Ep.
  injection Hrun as <- <-.
  exists daysRaw, equip, exper, gl, tier, plan. cbn [workouts macros ingredients].
  repeat split; try reflexivity; [exact Eplan|now rewrite Ep].
Qed.

(** C6.  In every successful /generatePlan response, every block of every
    workout day has [sets] in [3, 22] and [reps] rendered as lo, en dash,
    hi with lo <= hi. *)
Theorem C6_generated_blocks_sets_and_reps
    (localeCompare : string -> string -> number)
    (exercises : list Exercise) (ingredients_db : list IngredientDocV2)
    (body : GenerateReq) (run : Rand (Http GenerateRes))
    (tape : nat -> number) (n n' : nat) (resp : GenerateRes)
    (d : DayPlan) (b : WorkoutBlock) :
  generatePlan localeCompare exercises ingredients_db body = Some run ->
  run tape n = (Ok200 resp, n') ->
  In d (workouts resp) ->
  In b (blocks d) ->
  (3 <= sets b /\ sets b <= 22) /\
  exists lo hi : Z,
    reps b = (render_int lo ++ en_dash ++ render_int hi)%string /\ (lo <= hi)%Z.
Proof.
  intros Hgen Hrun Hd Hb.
  destruct (generatePlan_ok _ _ _ _ _ _ _ _ _ Hgen Hrun)
    as (daysRaw & equip & exper & gl & tier & plan & _ & _ & _ & _ & _ & Hw & _).
  rewrite Hw in Hd.
  destruct (buildWorkouts_block_shape _ _ _ _ _ _ _ _ _ Hd Hb) as [Hs Hr].
  split.
  - rewrite Hs. apply setsPerMuscleOf_bounds.
  - exists (fst (repRangeOf exper gl)), (snd (repRangeOf exper gl)).
    split; [exact Hr|apply repRangeOf_ordered].
Qed.

Lemma C6_generated_blocks_witness :
  exists b : WorkoutBlock,
    exerciseId b = "bench_press"%string /\
    (3 <= sets b /\ sets b <= 22) /\
    exists lo hi : Z,
      reps b = (render_int lo ++ en_dash ++ render_int hi)%string /\ (lo <= hi)%Z.
Proof.
  eexists. split; [|
    eapply (C6_generated_blocks_sets_and_reps byteCompare demo_exercises []
              reference_request _ (constant_tape 0.5) 0%nat);
    [ vm_compute; reflexivity
    | vm_compute; reflexivity
    | left; reflexivity
    | left; reflexivity ] ].
  reflexivity.
Defined.

(** ** The random source: only the draws that are read matter *)












(** ** The piece loop ends when its test fails *)

(** More fuel does not lengthen the loop once the fuel exceeds the
    number of steps that fit below [maxP]. *)
Lemma pieces_from_enough (fuel extra : nat) (pcs maxP stepP : number) :
  0 < stepP ->
  maxP - pcs < inject_Z (Z.of_nat fuel) * stepP ->
  pieces_from (fuel + extra) pcs maxP stepP = pieces_from fuel pcs maxP stepP.
Proof.
  intros Hstep. revert pcs. induction fuel as [|fuel IH]; intros pcs Hlt.
  - change (inject_Z (Z.of_nat 0)) with 0 in Hlt.
    assert (Hgt : maxP < pcs) by lra.
    cbn [Nat.add pieces_from]. destruct extra as [|extra]; [reflexivity|].
    cbn [pieces_from]. destruct (Qle_bool pcs maxP) eqn:E; [|reflexivity].
    apply Qle_bool_iff in E. lra.
  - cbn [Nat.add pieces_from]. destruct (Qle_bool pcs maxP); [|reflexivity].
    f_equal. apply IH.
    assert (Hs : inject_Z (Z.of_nat (S fuel)) == inject_Z (Z.of_nat fuel) + 1).
    { rewrite Nat2Z.inj_succ. unfold Z.succ. rewrite inject_Z_plus. reflexivity. }
    rewrite Hs in Hlt. lra.
Qed.

(** The fuel chosen by [piece_counts] is enough: the list it returns is
    the one the loop produces with any larger fuel. *)
Lemma piece_counts_complete (minP maxP stepP : number) (extra : nat) :
  0 < stepP -> minP <= maxP ->
  piece_counts minP maxP stepP
  = Some (pieces_from (S (Z.to_nat (Qfloor ((maxP - minP) / stepP))) + extra)
                      minP maxP stepP).
Proof.
  intros Hstep Hle. unfold piece_counts.
  apply Qle_bool_iff in Hle. rewrite Hle. apply Qle_bool_iff in Hle.
  unfold Qlt_bool.
  assert (Hn : Qle_bool stepP 0 = false).
  { destruct (Qle_bool stepP 0) eqn:E; [|reflexivity]. apply Qle_bool_iff in E. lra. }
  rewrite Hn. cbn [negb]. f_equal. symmetry. apply pieces_from_enough; [exact Hstep|].
  set (q := (maxP - minP) / stepP).
  assert (Hq : q * stepP == maxP - minP).
  { unfold q. field. intros H0. rewrite H0 in Hstep. lra. }
  assert (Hq0 : 0 <= q).
  { unfold q. apply Qle_shift_div_l; [exact Hstep|]. lra. }
  assert (Hf0 : (0 <= Qfloor q)%Z).
  { change 0%Z with (Qfloor 0). now apply Qfloor_resp_le. }
  assert (Hfuel : inject_Z (Z.of_nat (S (Z.to_nat (Qfloor q)))) == inject_Z (Qfloor q + 1)).
  { rewrite Nat2Z.inj_succ, Z2Nat.id by exact Hf0. reflexivity. }
  rewrite Hfuel. pose proof (Qlt_floor q) as Hlt.
  rewrite <- Hq. apply Qmult_lt_r; assumption.
Qed.

(** ** Meal allocator: dependence on the draws *)

Lemma runOf_eq {A} (o : option (Rand A)) (d : A) : o <> None -> o = Some (runOf o d).
Proof. destruct o; [reflexivity|contradiction]. Qed.

Lemma pcandsStep_fold_defined base cat (l : list IngredientDocV2)
    (table : gmap string (list (IngredientDocV2 * PortionCandidate))) :
  (forall ing, In ing l -> portionCandidates ing <> None) ->
  fold_left (pcandsStep base cat) l (Some table) <> None.
Proof.
  revert table. induction l as [|a l IH]; intros table Hterm; [discriminate|].
  cbn [fold_left]. unfold pcandsStep at 2.
  destruct (portionCandidates a) eqn:Ea;
    [|exfalso; apply (Hterm a); [left; reflexivity|exact Ea]].
  apply IH. intros ing Hing. apply Hterm. right. exact Hing.
Qed.

Lemma precompute_defined (all : list IngredientDocV2) (base : MealTargets) :
  (forall ing, In ing all -> portionCandidates ing <> None) ->
  precompute all base <> None.
Proof.
  intros Hterm. unfold precompute, categories. cbn [fold_left].
  assert (Hp : forall cat ing, In ing (pool all cat) -> portionCandidates ing <> None).
  { intros cat ing H. apply Hterm. unfold pool in H. now apply filter_In in H. }
  destruct (fold_left (pcandsStep base cat_protein) (pool all cat_protein) (Some ∅))
    as [t1|] eqn:E1; [|now apply pcandsStep_fold_defined in E1; eauto].
  destruct (fold_left (pcandsStep base cat_carb) (pool all cat_carb) (Some t1))
    as [t2|] eqn:E2; [|now apply pcandsStep_fold_defined in E2; eauto].
  destruct (fold_left (pcandsStep base cat_veg) (pool all cat_veg) (Some t2))
    as [t3|] eqn:E3; [|now apply pcandsStep_fold_defined in E3; eauto].
  apply pcandsStep_fold_defined. eauto.
Qed.

Lemma buildIngredientPlanFull_defined all macros_ mpd strictness goalHint :
  (forall ing, In ing all -> portionCandidates ing <> None) ->
  buildIngredientPlanFull all macros_ mpd strictness goalHint <> None.
Proof.
  intros Hterm. unfold buildIngredientPlanFull.
  pose proof (precompute_defined all (baseTargets macros_ mpd) Hterm) as H.
  destruct (precompute all (baseTargets macros_ mpd)); [discriminate|contradiction].
Qed.

Lemma buildIngredientPlan_defined all macros_ mpd strictness goalHint :
  (forall ing, In ing all -> portionCandidates ing <> None) ->
  buildIngredientPlan all macros_ mpd strictness goalHint <> None.
Proof.
  intros Hterm. unfold buildIngredientPlan.
  pose proof (buildIngredientPlanFull_defined all macros_ mpd strictness goalHint Hterm) as H.
  destruct (buildIngredientPlanFull all macros_ mpd strictness goalHint);
    [discriminate|contradiction].
Qed.

Example chicken_portions :
  option_map (map pc_grams)
    (portionCandidates (gram_ingredient "Chicken breast" cat_protein 165 31 0 3.6 100))
  = Some [80; 100; 130; 150].
Proof. vm_compute. reflexivity. Qed.

Example egg_portions :
  piece_counts 1 3 1 = Some [1; 1 + 1; 1 + 1 + 1] /\ piece_counts 1 3 0 = None
  /\ piece_counts 2 1 1 = Some [].
Proof. repeat split; reflexivity. Qed.

Lemma demo_ingredients_end (ing : IngredientDocV2) :
  In ing demo_ingredients -> portionCandidates ing <> None.
Proof.
  intros Hing. cbn in Hing.
  destruct Hing as [<-|[<-|[<-|[<-|[]]]]]; vm_compute; discriminate.
Qed.

Lemma demo_plan_eq :
  buildIngredientPlan demo_ingredients demo_macros 1 normal recomp = Some demo_plan.
Proof.
  apply runOf_eq. apply buildIngredientPlan_defined. exact demo_ingredients_end.
Qed.

Lemma demo_full_eq :
  buildIngredientPlanFull demo_ingredients demo_macros 1 normal recomp = Some demo_full.
Proof.
  apply runOf_eq. apply buildIngredientPlanFull_defined. exact demo_ingredients_end.
Qed.



(** With the same arguments, two runs that meet different draws return
    different plans: the plan is not a function of the arguments alone. *)
Lemma same_arguments_other_draws_other_plan :
  exists run,
    buildIngredientPlan demo_ingredients demo_macros 1 normal recomp = Some run /\
    fst (run (constant_tape 0) 0%nat) <> fst (run (constant_tape 0.99) 0%nat).
Proof.
  exists demo_plan. split; [exact demo_plan_eq|].
  vm_compute. intros H. discriminate H.
Qed.

(** ** Meal allocator: the final selection *)

Lemma Qle_bool_sub (x y : Q) : Qle_bool (x - y) 0 = true <-> x <= y.
Proof.
  rewrite Qle_bool_iff. destruct x as [a b], y as [c d].
  unfold Qle, Qminus, Qplus, Qopp. cbn [Qnum Qden]. lia.
Qed.

Lemma forM_elements {A B} (f : A -> Rand B) (l : list A) (t : nat -> number) (n : nat)
    (y : B) :
  In y (fst (forM f l t n)) -> exists a k, In a l /\ y = fst (f a t k).
Proof.
  revert n. induction l as [|a l IH]; intros n; cbn [forM].
  - cbn. contradiction.
  - unfold bind, ret. destruct (f a t n) as [b n1] eqn:Ef.
    destruct (forM f l t n1) as [bs n2] eqn:El. cbn [fst].
    intros [<-|Hy].
    + exists a, n. split; [left; reflexivity|now rewrite Ef].
    + specialize (IH n1). rewrite El in IH. destruct (IH Hy) as (a' & k & Ha & ->).
      exists a', k. split; [right; assumption|reflexivity].
Qed.

Lemma forM_length {A B} (f : A -> Rand B) (l : list A) (t : nat -> number) (n : nat) :
  length (fst (forM f l t n)) = length l.
Proof.
  revert n. induction l as [|a l IH]; intros n; cbn [forM]; [reflexivity|].
  unfold bind, ret. destruct (f a t n) as [b n1].
  specialize (IH n1). destruct (forM f l t n1) as [bs n2]. cbn in *. now rewrite IH.
Qed.

(** The selection returns a beam; it passes the tolerance test and scores
    best among those that pass, or nothing passes and it scores best of
    all. *)
Lemma selectBest_spec (base : MealTargets) (tol : number) (beams : list MealCombo)
    (b : MealCombo) :
  selectBest base tol beams = Some b ->
  In b beams /\
  ( (withinTolerance base tol b = true /\
     forall b', In b' beams -> withinTolerance base tol b' = true -> score b <= score b')
    \/
    ((forall b', In b' beams -> withinTolerance base tol b' = false) /\
     forall b', In b' beams -> score b <= score b') ).
Proof.
  unfold selectBest.
  set (byScore := fun a b0 : MealCombo => score a - score b0).
  assert (Htot : forall x y, Qle_bool (byScore x y) 0 = true \/ Qle_bool (byScore y x) 0 = true).
  { intros x y. unfold byScore. rewrite !Qle_bool_sub.
    destruct (Qlt_le_dec (score y) (score x)) as [H|H]; [right; now apply Qlt_le_weak|left; exact H]. }
  assert (Htr : forall x y z, Qle_bool (byScore x y) 0 = true ->
                              Qle_bool (byScore y z) 0 = true ->
                              Qle_bool (byScore x z) 0 = true).
  { intros x y z. unfold byScore. rewrite !Qle_bool_sub. apply Qle_trans. }
  destruct (List.filter (withinTolerance base tol) beams) as [|w ws] eqn:Ew.
  - destruct (sort byScore beams) as [|h t] eqn:Es; [discriminate|].
    cbn. intros H. injection H as <-.
    assert (Hin : In h beams)
      by (apply (sort_In byScore); rewrite Es; left; reflexivity).
    split; [exact Hin|]. right. split.
    + intros b' Hb'. destruct (withinTolerance base tol b') eqn:Eb; [|reflexivity].
      assert (Hf : In b' (List.filter (withinTolerance base tol) beams))
        by (apply filter_In; auto).
      rewrite Ew in Hf. contradiction.
    + intros b' Hb'. apply Qle_bool_sub.
      exact (sort_head_min byScore Htot Htr beams h t Es b' Hb').
  - rewrite <- Ew.
    destruct (sort byScore (List.filter (withinTolerance base tol) beams)) as [|h t] eqn:Es;
      [discriminate|].
    cbn. intros H. injection H as <-.
    assert (Hin : In h (List.filter (withinTolerance base tol) beams))
      by (apply (sort_In byScore); rewrite Es; left; reflexivity).
    apply filter_In in Hin. destruct Hin as [Hin Hok].
    split; [exact Hin|]. left. split; [exact Hok|].
    intros b' Hb' Hok'. apply Qle_bool_sub.
    apply (sort_head_min byScore Htot Htr _ h t Es b').
    apply filter_In; auto.
Qed.

Lemma withinTolerance_protein (base : MealTargets) (tol : number) (b : MealCombo) :
  withinTolerance base tol b = true ->
  Math_abs (totP b - Ppm base) <= Ppm base * tol.
Proof.
  unfold withinTolerance. rewrite !andb_true_iff. intros [[H _] _].
  now apply Qle_bool_iff.
Qed.

Example toleranceOf_normal : toleranceOf normal = 0.10.
Proof. reflexivity. Qed.

(** What [buildIngredientPlanFull] returns for each meal. *)
Lemma buildIngredientPlanFull_meal all macros_ mpd strictness goalHint run tape n
    (best : option MealCombo) (meal : MealOptions) :
  buildIngredientPlanFull all macros_ mpd strictness goalHint = Some run ->
  In (best, meal) (fst (run tape n)) ->
  exists pcands k,
    precompute all (baseTargets macros_ mpd) = Some pcands /\
    best = selectBest (baseTargets macros_ mpd) (toleranceOf strictness)
             (fst (mealBeams all (baseTargets macros_ mpd) pcands goalHint tape k)) /\
    meal = formatMeal best.
Proof.
  unfold buildIngredientPlanFull. intros Hrun Hin.
  destruct (precompute all (baseTargets macros_ mpd)) as [pcands|]; [|discriminate].
  injection Hrun as <-.
  apply forM_elements in Hin. destruct Hin as (i & k & _ & Heq).
  exists pcands, k. split; [reflexivity|].
  unfold planMeal, bind, ret in Heq.
  destruct (mealBeams all (baseTargets macros_ mpd) pcands goalHint tape k) as [beams k'].
  cbn in Heq. injection Heq as -> ->. split; reflexivity.
Qed.

(** C4.  For every meal of the allocator's result, the selected
    combination is one of the beams that survived that meal's search, and
    either its summed protein is within the tolerance of the per-meal
    protein target, or no surviving beam passes the tolerance test and the
    selected one has the best (lowest) score of all surviving beams. *)
Theorem C4_selected_within_tolerance_or_best_fallback
    (all : list IngredientDocV2) (macros_ : Macros) (mpd : number)
    (strictness : Strictness) (goalHint : Goal)
    (run : Rand (list (option MealCombo * MealOptions)))
    (tape : nat -> number) (n : nat) (best : MealCombo) (meal : MealOptions) :
  buildIngredientPlanFull all macros_ mpd strictness goalHint = Some run ->
  In (Some best, meal) (fst (run tape n)) ->
  exists pcands k,
    precompute all (baseTargets macros_ mpd) = Some pcands /\
    In best (fst (mealBeams all (baseTargets macros_ mpd) pcands goalHint tape k)) /\
    ( Math_abs (totP best - Ppm (baseTargets macros_ mpd))
        <= Ppm (baseTargets macros_ mpd) * toleranceOf strictness
      \/
      ((forall b,
          In b (fst (mealBeams all (baseTargets macros_ mpd) pcands goalHint tape k)) ->
          withinTolerance (baseTargets macros_ mpd) (toleranceOf strictness) b = false) /\
       (forall b,
          In b (fst (mealBeams all (baseTargets macros_ mpd) pcands goalHint tape k)) ->
          score best <= score b)) ).
Proof.
  intros Hrun Hin.
  destruct (buildIngredientPlanFull_meal _ _ _ _ _ _ _ _ _ _ Hrun Hin)
    as (pcands & k & Hpre & Hbest & _).
  exists pcands, k. split; [exact Hpre|].
  symmetry in Hbest. apply selectBest_spec in Hbest.
  destruct Hbest as [Hb [[Hok _]|[Hnone Hmin]]].
  - split; [exact Hb|]. left. now apply withinTolerance_protein.
  - split; [exact Hb|]. right. split; assumption.
Qed.

Lemma C4_selected_witness :
  exists best pcands k,
    precompute demo_ingredients (baseTargets demo_macros 1) = Some pcands /\
    In best (fst (mealBeams demo_ingredients (baseTargets demo_macros 1) pcands recomp
                            (constant_tape 0) k)) /\
    ( Math_abs (totP best - Ppm (baseTargets demo_macros 1))
        <= Ppm (baseTargets demo_macros 1) * toleranceOf normal
      \/
      ((forall b,
          In b (fst (mealBeams demo_ingredients (baseTargets demo_macros 1) pcands recomp
                               (constant_tape 0) k)) ->
          withinTolerance (baseTargets demo_macros 1) (toleranceOf normal) b = false) /\
       (forall b,
          In b (fst (mealBeams demo_ingredients (baseTargets demo_macros 1) pcands recomp
                               (constant_tape 0) k)) ->
          score best <= score b)) ).
Proof.
  eexists.
  eapply (C4_selected_within_tolerance_or_best_fallback demo_ingredients demo_macros 1
            normal recomp demo_full (constant_tape 0) 0%nat).
  - exact demo_full_eq.
  - vm_compute. left. reflexivity.
Defined.

(** Every meal of a /generatePlan response is the formatted selection of
    one entry of the allocator run in normal mode. *)
Lemma generatePlan_meal (localeCompare : string -> string -> number)
    (exercises : list Exercise) (ingredients_db : list IngredientDocV2)
    (body : GenerateReq) (run : Rand (Http GenerateRes))
    (tape : nat -> number) (n n' : nat) (resp : GenerateRes) (meal : MealOptions) :
  generatePlan localeCompare exercises ingredients_db body = Some run ->
  run tape n = (Ok200 resp, n') ->
  In meal (ingredients resp) ->
  exists gl tier full best,
    goal body = Some gl /\ budget_tier body = Some tier /\
    buildIngredientPlanFull (fetchIngredientsByTierV2 ingredients_db tier) (macros resp)
      (nullish (meals_per_day body) (DEFAULT_MEALS_BY_GOAL gl)) normal gl = Some full /\
    In (best, meal) (fst (full tape n)).
Proof.
  intros Hgen Hrun Hin.
  destruct (generatePlan_ok _ _ _ _ _ _ _ _ _ Hgen Hrun)
    as (daysRaw & equip & exper & gl & tier & plan & _ & _ & _ & Hg & Ht & _ & Hplan & Hing).
  unfold buildIngredientPlan in Hplan.
  destruct (buildIngredientPlanFull _ _ _ _ _) as [full|] eqn:Efull; [|discriminate].
  cbn in Hplan. injection Hplan as <-.
  rewrite Hing in Hin. unfold mapR, bind, ret in Hin.
  destruct (full tape n) as [entries k] eqn:Ek. cbn [fst] in Hin.
  apply in_map_iff in Hin. destruct Hin as [[best m] [<- Hin]].
  exists gl, tier, full, best. repeat split; try assumption.
  rewrite Ek. exact Hin.
Qed.

(** ** Meal allocator: the shape of a combination *)

Lemma In_firstn {T} (x : T) (k : nat) (l : list T) : In x (firstn k l) -> In x l.
Proof.
  revert k. induction l as [|a l IH]; intros [|k]; cbn; try tauto.
  intros [H|H]; [auto|right; eauto].
Qed.

Lemma In_list_insert {T} (x y : T) (i : nat) (l : list T) :
  In x (<[i := y]> l) -> x = y \/ In x l.
Proof.
  rewrite <- !list_elem_of_In. intros H.
  apply list_elem_of_lookup in H. destruct H as [k Hk].
  apply list_lookup_insert_Some in Hk.
  destruct Hk as [(_ & -> & _)|[_ Hk]]; [left; reflexivity|right].
  eapply list_elem_of_lookup_2; eassumption.
Qed.

Lemma In_swap {T} (x : T) (i j : nat) (l : list T) : In x (swap i j l) -> In x l.
Proof.
  unfold swap. destruct (l !! i) as [a|] eqn:Ea; [|auto].
  destruct (l !! j) as [b|] eqn:Eb; [|auto].
  intros H. apply In_list_insert in H. destruct H as [->|H].
  - apply list_elem_of_In. eapply list_elem_of_lookup_2; eassumption.
  - apply In_list_insert in H. destruct H as [->|H]; [|assumption].
    apply list_elem_of_In. eapply list_elem_of_lookup_2; eassumption.
Qed.

Lemma swap_length {T} (i j : nat) (l : list T) : length (swap i j l) = length l.
Proof.
  unfold swap. destruct (l !! i); [|reflexivity]. destruct (l !! j); [|reflexivity].
  now rewrite !length_insert.
Qed.

(** An invariant of the state carried through [foldM]. *)
Lemma foldM_invariant {A B} (P : B -> Prop) (f : B -> A -> Rand B) (l : list A) :
  (forall b a t n, P b -> P (fst (f b a t n))) ->
  forall b t n, P b -> P (fst (foldM f l b t n)).
Proof.
  intros Hf. induction l as [|a l IH]; intros b t n Hb; cbn [foldM]; [exact Hb|].
  unfold bind. specialize (Hf b a t n Hb). destruct (f b a t n) as [b' n'].
  apply IH. exact Hf.
Qed.

Lemma shuffle_In {T} (l : list T) (t : nat -> number) (n : nat) (x : T) :
  In x (fst (shuffle l t n)) -> In x l.
Proof.
  unfold shuffle. revert x.
  apply (foldM_invariant (fun arr => forall x, In x arr -> In x l)); [|auto].
  intros arr i t' n' Harr x. unfold bind, ret, Math_random. cbn.
  intros H. apply Harr. eapply In_swap. exact H.
Qed.

Lemma shuffle_length {T} (l : list T) (t : nat -> number) (n : nat) :
  length (fst (shuffle l t n)) = length l.
Proof.
  unfold shuffle.
  apply (foldM_invariant (fun arr => length arr = length l)); [|reflexivity].
  intros arr i t' n' Harr. unfold bind, ret, Math_random. cbn.
  now rewrite swap_length.
Qed.

Lemma pool_category (all : list IngredientDocV2) (cat : Category) (ing : IngredientDocV2) :
  In ing (pool all cat) -> In ing all /\ ing_category ing = cat.
Proof.
  unfold pool. intros H. apply filter_In in H. destruct H as [Hin Hc].
  split; [exact Hin|]. destruct (ing_category ing), cat; (reflexivity || discriminate).
Qed.

Lemma pairs_of_In {T} (a b : T) (l : list T) :
  In (a, b) (pairs_of l) -> In a l /\ In b l.
Proof.
  induction l as [|x l IH]; cbn; [tauto|].
  rewrite in_app_iff, in_map_iff. intros [[y [Hy Hin]]|H].
  - injection Hy as <- <-. auto.
  - destruct (IH H). auto.
Qed.

Section AllocatorShape.

Variable all : list IngredientDocV2.
Variable base : MealTargets.
Variable pcands : gmap string (list (IngredientDocV2 * PortionCandidate)).

Lemma singles_inv targets beam choices b' :
  In b' (singles pcands targets beam choices) ->
  exists ing pc, In ing choices /\ items b' = items beam ++ [item_of ing pc].
Proof.
  unfold singles. intros H. apply in_flat_map in H. destruct H as [ing [Hing H]].
  destruct (hasIngredient beam (ing_name ing)); [contradiction|].
  apply in_map_iff in H. destruct H as [pc [<- _]].
  exists ing, pc. split; [exact Hing|reflexivity].
Qed.

Lemma pairs_inv targets beam choices b' :
  In b' (pairs pcands targets beam choices) ->
  exists a b pca pcb, In a choices /\ In b choices /\
    items b' = items beam ++ [item_of a pca; item_of b pcb].
Proof.
  unfold pairs. intros H. apply in_flat_map in H. destruct H as [[a b] [Hab H]].
  apply pairs_of_In in Hab. destruct Hab as [Ha Hb].
  destruct (hasIngredient beam (ing_name a) || hasIngredient beam (ing_name b));
    [contradiction|].
  apply in_map_iff in H. destruct H as [[pca pcb] [<- _]].
  exists a, b, pca, pcb. repeat split; assumption.
Qed.

(** Every beam that leaves [extendBeams] is a beam that entered it,
    unchanged (only when [kMin] is 0), or extended by one item of the
    category (only when [kMax >= 1]), or by two (only when [kMax >= 2]). *)
Lemma extendBeams_inv beams cat kMin kMax beamSize mealTargets t n b' :
  In b' (fst (extendBeams all base pcands beams cat kMin kMax beamSize mealTargets t n)) ->
  exists beam, In beam beams /\
    ( (kMin = 0%nat /\ b' = beam)
      \/ ((1 <= kMax)%nat /\ exists ing pc,
            In ing (pool all cat) /\ items b' = items beam ++ [item_of ing pc])
      \/ ((2 <= kMax)%nat /\ exists a b pca pcb,
            In a (pool all cat) /\ In b (pool all cat) /\
            items b' = items beam ++ [item_of a pca; item_of b pcb]) ).
Proof.
  unfold extendBeams, bind, ret.
  set (ranked := sort _ (pool all cat)).
  destruct (shuffle ranked t n) as [shuffled n1] eqn:Eshuf.
  assert (Hchoice : forall (u : bool) k ing,
             In ing (firstn k (if u then shuffled else ranked)) -> In ing (pool all cat)).
  { intros u k ing H. apply In_firstn in H.
    assert (Hr : In ing ranked).
    { destruct u; [|exact H].
      apply (shuffle_In ranked t n). rewrite Eshuf. exact H. }
    unfold ranked in Hr. now apply sort_In in Hr. }
  match goal with
  | |- context [forM ?F beams t n1] => set (perBeam := F)
  end.
  destruct (forM perBeam beams t n1) as [out n2] eqn:Eout. cbn [fst].
  intros H. apply In_firstn in H. apply sort_In in H.
  apply in_concat in H. destruct H as [per [Hper Hb']].
  assert (Hper' : In per (fst (forM perBeam beams t n1))) by (rewrite Eout; exact Hper).
  apply forM_elements in Hper'. destruct Hper' as (beam & k0 & Hbeam & ->).
  exists beam. split; [exact Hbeam|].
  unfold perBeam in Hb'.
  match type of Hb' with
  | context [forM ?G (seq kMin _) t k0] => set (perK := G) in Hb'
  end.
  destruct (forM perK (seq kMin (S kMax - kMin)) t k0) as [per_k k1] eqn:Ek.
  cbn [fst] in Hb'. apply in_concat in Hb'. destruct Hb' as [xs [Hxs Hb']].
  assert (Hxs' : In xs (fst (forM perK (seq kMin (S kMax - kMin)) t k0)))
    by (rewrite Ek; exact Hxs).
  apply forM_elements in Hxs'. destruct Hxs' as (k & k2 & Hk & ->).
  apply in_seq in Hk. unfold perK in Hb'.
  destruct (Nat.eqb_spec k 0) as [->|Hk0].
  - cbn in Hb'. destruct Hb' as [<-|[]]. left. split; [lia|reflexivity].
  - cbn [fst] in Hb'. apply in_app_iff in Hb'. destruct Hb' as [Hs|Hp].
    + destruct (Nat.leb_spec 1 k); [|contradiction].
      apply singles_inv in Hs. destruct Hs as (ing & pc & Hing & Hit).
      right; left. split; [lia|]. exists ing, pc. split; [|exact Hit].
      eapply Hchoice. exact Hing.
    + destruct (Nat.leb_spec 2 k); [|contradiction].
      apply pairs_inv in Hp. destruct Hp as (a & b & pca & pcb & Ha & Hb & Hit).
      right; right. split; [lia|]. exists a, b, pca, pcb.
      repeat split; [eapply Hchoice; exact Ha|eapply Hchoice; exact Hb|exact Hit].
Qed.

End AllocatorShape.

Section MealShape.

Variable all : list IngredientDocV2.
Variable base : MealTargets.
Variable pcands : gmap string (list (IngredientDocV2 * PortionCandidate)).

(** One step with the range [1..1]: exactly one item of the category is
    appended. *)
Lemma extendBeams_one beams cat beamSize mealTargets t n b' :
  In b' (fst (extendBeams all base pcands beams cat 1 1 beamSize mealTargets t n)) ->
  exists beam ing pc, In beam beams /\ In ing (pool all cat) /\
    items b' = items beam ++ [item_of ing pc].
Proof.
  intros H. apply extendBeams_inv in H.
  destruct H as [beam [Hbeam [[H0 _]|[[_ (ing & pc & Hing & Hit)]|[H2 _]]]]];
    [discriminate| |lia].
  exists beam, ing, pc. auto.
Qed.

(** One step with the range [0..1]: the beam is kept or one item is
    appended. *)
Lemma extendBeams_zero_one beams cat beamSize mealTargets t n b' :
  In b' (fst (extendBeams all base pcands beams cat 0 1 beamSize mealTargets t n)) ->
  exists beam, In beam beams /\
    (b' = beam \/ exists ing pc, In ing (pool all cat) /\
                   items b' = items beam ++ [item_of ing pc]).
Proof.
  intros H. apply extendBeams_inv in H.
  destruct H as [beam [Hbeam [[_ ->]|[[_ (ing & pc & Hing & Hit)]|[H2 _]]]]];
    [| |lia]; exists beam; split; eauto.
Qed.

(** The beams that survive a meal's four steps: one protein, one carb
    (none is possible for fat loss), one vegetable and one fat item, in
    this order. *)
Lemma mealBeams_inv goalHint t n b :
  In b (fst (mealBeams all base pcands goalHint t n)) ->
  exists ip pcp iv pcv ifat pcf,
    In ip (pool all cat_protein) /\ In iv (pool all cat_veg) /\
    In ifat (pool all cat_fat) /\
    ( (exists ic pcc, In ic (pool all cat_carb) /\
         items b = [item_of ip pcp; item_of ic pcc; item_of iv pcv; item_of ifat pcf])
      \/ (goalHint = fat_loss /\
          items b = [item_of ip pcp; item_of iv pcv; item_of ifat pcf]) ).
Proof.
  unfold mealBeams, bind, Math_random. cbn [fst snd ranges].
  match goal with
  | |- context [extendBeams all base pcands ?b0 cat_protein 1 1 40 ?mt t ?k] =>
      destruct (extendBeams all base pcands b0 cat_protein 1 1 40 mt t k)
        as [beams1 n1] eqn:E1; set (targets := mt) in *
  end.
  destruct (extendBeams all base pcands beams1 cat_carb
              (fst match goalHint with fat_loss => (0, 1) | _ => (1, 1) end)%nat
              (snd match goalHint with fat_loss => (0, 1) | _ => (1, 1) end)%nat
              60 targets t n1) as [beams2 n2] eqn:E2.
  destruct (extendBeams all base pcands beams2 cat_veg 1 1 60 targets t n2)
    as [beams3 n3] eqn:E3.
  intros H4.
  apply extendBeams_one in H4. destruct H4 as (b3 & ifat & pcf & Hb3 & Hfat & It4).
  assert (H3 : In b3 (fst (extendBeams all base pcands beams2 cat_veg 1 1 60 targets t n2)))
    by (rewrite E3; exact Hb3).
  apply extendBeams_one in H3. destruct H3 as (b2 & iv & pcv & Hb2 & Hveg & It3).
  assert (H1 : forall b1, In b1 beams1 ->
             exists ip pcp, In ip (pool all cat_protein) /\ items b1 = [item_of ip pcp]).
  { intros b1 Hb1.
    assert (H : In b1 (fst (extendBeams all base pcands
                [ {| items := []; totP := 0; totC := 0; totF := 0; totK := 0;
                     score := scoreCombo 0 0 0 (Ppm base) (Cpm base) (Fpm base)
                                         (Kpm base) |} ]
                cat_protein 1 1 40 targets t (S (S (S n))))))
      by (rewrite E1; exact Hb1).
    apply extendBeams_one in H. destruct H as (b0 & ip & pcp & Hb0 & Hip & It1).
    destruct Hb0 as [<-|[]]. exists ip, pcp. split; [exact Hip|exact It1]. }
  assert (H2 : In b2 (fst (extendBeams all base pcands beams1 cat_carb
              (fst match goalHint with fat_loss => (0, 1) | _ => (1, 1) end)%nat
              (snd match goalHint with fat_loss => (0, 1) | _ => (1, 1) end)%nat
              60 targets t n1))) by (rewrite E2; exact Hb2).
  destruct goalHint; cbn [fst snd] in H2.
  1: apply extendBeams_zero_one in H2;
     destruct H2 as (b1 & Hb1 & [->|(ic & pcc & Hic & It2)]).
  3-6: apply extendBeams_one in H2; destruct H2 as (b1 & ic & pcc & Hb1 & Hic & It2).
  all: destruct (H1 b1 Hb1) as (ip & pcp & Hip & It1);
       exists ip, pcp, iv, pcv, ifat, pcf; repeat split; try assumption.
  1: right; split; [reflexivity|]; rewrite It4, It3, It1; reflexivity.
  all: left; exists ic, pcc; split; [assumption|];
       rewrite It4, It3, It2, It1; reflexivity.
Qed.

End MealShape.

(** ** Meal allocator: when a combination is found *)

Lemma sort_nonempty {T} (cmp : T -> T -> number) (l : list T) :
  l <> [] -> exists x t, sort cmp l = x :: t.
Proof.
  intros H. destruct (sort cmp l) as [|x t] eqn:E; [|eauto].
  apply sort_nil_inv in E. contradiction.
Qed.

Lemma chosenCandidates_nonempty base cat cands :
  cands <> [] -> chosenCandidates base cat cands <> [].
Proof.
  intros H. unfold chosenCandidates.
  match goal with
  | |- context [sort ?c cands] => destruct (sort_nonempty c cands H) as (x & t & ->)
  end.
  discriminate.
Qed.

Lemma pcandsStep_fold base cat (l : list IngredientDocV2)
    (table : gmap string (list (IngredientDocV2 * PortionCandidate))) :
  (forall ing, In ing l -> portionCandidates ing <> None) ->
  exists table',
    fold_left (pcandsStep base cat) l (Some table) = Some table' /\
    (forall name, is_Some (table !! name) -> is_Some (table' !! name)) /\
    (forall ing, In ing l -> is_Some (table' !! ing_name ing)) /\
    ((forall ing cands, In ing l -> portionCandidates ing = Some cands -> cands <> []) ->
     good_table table -> good_table table').
Proof.
  revert table. induction l as [|a l IH]; intros table Hterm.
  - exists table. cbn. repeat split; auto. intros ing [].
  - cbn [fold_left]. unfold pcandsStep at 2.
    destruct (portionCandidates a) as [cands|] eqn:Ea;
      [|exfalso; apply (Hterm a); [left; reflexivity|exact Ea]].
    set (table1 := <[ing_name a := map (fun c => (a, c)) (chosenCandidates base cat cands)]>
                     table).
    destruct (IH table1) as (table' & Hfold & Hkeep & Hnew & Hgood).
    { intros ing Hing. apply Hterm. right. exact Hing. }
    exists table'. split; [exact Hfold|].
    assert (Hkeep1 : forall name, is_Some (table !! name) -> is_Some (table1 !! name)).
    { intros name Hn. unfold table1.
      destruct (decide (ing_name a = name)) as [<-|Hne].
      - rewrite lookup_insert_eq. eauto.
      - rewrite lookup_insert_ne by exact Hne. exact Hn. }
    split; [auto|]. split.
    + intros ing [<-|Hing]; [|auto].
      apply Hkeep. unfold table1. rewrite lookup_insert_eq. eauto.
    + intros Hne Hg. apply Hgood.
      * intros ing cs Hing. apply Hne. right. exact Hing.
      * intros name l' Hl'. unfold table1 in Hl'.
        destruct (decide (ing_name a = name)) as [<-|Hd].
        -- rewrite lookup_insert_eq in Hl'. injection Hl' as <-.
           intros Hnil. apply map_eq_nil in Hnil.
           revert Hnil. apply chosenCandidates_nonempty.
           apply (Hne a cands); [left; reflexivity|exact Ea].
        -- rewrite lookup_insert_ne in Hl' by exact Hd. exact (Hg name l' Hl').
Qed.

Lemma In_pool (all : list IngredientDocV2) (ing : IngredientDocV2) :
  In ing all -> In ing (pool all (ing_category ing)).
Proof.
  intros H. unfold pool. apply filter_In. split; [exact H|].
  destruct (ing_category ing); reflexivity.
Qed.

(** When every [portionCandidates] call ends, the table is built and has
    an entry for the name of every ingredient. *)
Lemma precompute_total (all : list IngredientDocV2) (base : MealTargets) :
  (forall ing, In ing all -> portionCandidates ing <> None) ->
  exists pcands,
    precompute all base = Some pcands /\
    (forall ing, In ing all -> is_Some (pcands !! ing_name ing)) /\
    ((forall ing cands, In ing all -> portionCandidates ing = Some cands -> cands <> []) ->
     good_table pcands).
Proof.
  intros Hterm. unfold precompute, categories. cbn [fold_left].
  assert (Hp : forall cat ing, In ing (pool all cat) -> In ing all)
    by (intros cat ing H; now apply pool_category in H).
  destruct (pcandsStep_fold base cat_protein (pool all cat_protein) ∅)
    as (t1 & -> & K1 & N1 & G1); [eauto|].
  destruct (pcandsStep_fold base cat_carb (pool all cat_carb) t1)
    as (t2 & -> & K2 & N2 & G2); [eauto|].
  destruct (pcandsStep_fold base cat_veg (pool all cat_veg) t2)
    as (t3 & -> & K3 & N3 & G3); [eauto|].
  destruct (pcandsStep_fold base cat_fat (pool all cat_fat) t3)
    as (t4 & -> & K4 & N4 & G4); [eauto|].
  exists t4. split; [reflexivity|]. split.
  - intros ing Hing. pose proof (In_pool all ing Hing) as Hpool.
    destruct (ing_category ing); auto.
  - intros Hne. apply G4; [eauto|]. apply G3; [eauto|]. apply G2; [eauto|].
    apply G1; [eauto|]. intros name l Hl. rewrite lookup_empty in Hl. discriminate.
Qed.

Lemma precompute_terminates (all : list IngredientDocV2) (base : MealTargets) pcands :
  precompute all base = Some pcands ->
  forall ing, In ing all -> portionCandidates ing <> None.
Proof.
  assert (Hnone : forall cat l, fold_left (pcandsStep base cat) l None = None)
    by (intros cat l; induction l; [reflexivity|assumption]).
  assert (Hstep : forall cat l acc r ing,
             fold_left (pcandsStep base cat) l acc = Some r -> In ing l ->
             portionCandidates ing <> None).
  { intros cat l. induction l as [|a l IH]; intros acc r ing Hf Hin; [contradiction|].
    cbn [fold_left] in Hf. destruct Hin as [<-|Hin]; [|eauto].
    intros Ha. unfold pcandsStep at 2 in Hf. rewrite Ha in Hf.
    destruct acc; rewrite Hnone in Hf; discriminate. }
  unfold precompute, categories. cbn [fold_left]. intros H ing Hing.
  pose proof (In_pool all ing Hing) as Hpool.
  destruct (fold_left (pcandsStep base cat_protein) (pool all cat_protein) (Some ∅))
    as [t1|] eqn:E1; [|rewrite !Hnone in H; discriminate].
  destruct (fold_left (pcandsStep base cat_carb) (pool all cat_carb) (Some t1))
    as [t2|] eqn:E2; [|rewrite !Hnone in H; discriminate].
  destruct (fold_left (pcandsStep base cat_veg) (pool all cat_veg) (Some t2))
    as [t3|] eqn:E3; [|rewrite !Hnone in H; discriminate].
  destruct (ing_category ing); eauto.
Qed.

Lemma forM_cons_fst {A B} (f : A -> Rand B) (a : A) (l : list A)
    (t : nat -> number) (n : nat) :
  fst (forM f (a :: l) t n) = fst (f a t n) :: fst (forM f l t (snd (f a t n))).
Proof.
  cbn [forM]. unfold bind, ret. destruct (f a t n) as [b n1]. cbn [snd].
  destruct (forM f l t n1) as [bs n2]. reflexivity.
Qed.

Lemma NoDup_map_eq {A B} (f : A -> B) (l : list A) (x y : A) :
  List.NoDup (map f l) -> In x l -> In y l -> f x = f y -> x = y.
Proof.
  induction l as [|a l IH]; [contradiction|].
  cbn [map]. intros Hnd Hx Hy Hf. apply NoDup_cons_iff in Hnd. destruct Hnd as [Hna Hnd].
  destruct Hx as [<-|Hx], Hy as [<-|Hy]; auto.
  - exfalso. apply Hna. rewrite Hf. now apply in_map.
  - exfalso. apply Hna. rewrite <- Hf. now apply in_map.
Qed.

Section MealFound.

Variable all : list IngredientDocV2.
Variable base : MealTargets.
Variable pcands : gmap string (list (IngredientDocV2 * PortionCandidate)).

Hypothesis names_distinct : List.NoDup (map ing_name all).
Hypothesis table_covers : forall ing, In ing all -> is_Some (pcands !! ing_name ing).
Hypothesis table_good : good_table pcands.

Lemma pcands_get_nonempty ing : In ing all -> pcands_get pcands (ing_name ing) <> [].
Proof.
  intros Hing. unfold pcands_get. destruct (table_covers ing Hing) as [l Hl].
  rewrite Hl. cbn. exact (table_good _ _ Hl).
Qed.

Lemma hasIngredient_false cs beam cat ing :
  items_from all cs beam -> ~ In cat cs -> In ing (pool all cat) ->
  hasIngredient beam (ing_name ing) = false.
Proof.
  intros Hfrom Hcat Hing. apply pool_category in Hing. destruct Hing as [Hing Hc].
  unfold hasIngredient. destruct (existsb _ (items beam)) eqn:E; [exfalso|reflexivity].
  apply existsb_exists in E. destruct E as [it [Hit Hname]].
  apply String.eqb_eq in Hname.
  destruct (Hfrom it Hit) as (ing0 & Hing0 & Hn0 & Hc0).
  assert (ing0 = ing)
    by (apply (NoDup_map_eq ing_name all); auto; congruence).
  subst ing0. rewrite Hc in Hc0. contradiction.
Qed.

Lemma extendBeams_items_from cs beams cat kMin kMax beamSize mealTargets t n b' :
  (forall b, In b beams -> items_from all cs b) ->
  In b' (fst (extendBeams all base pcands beams cat kMin kMax beamSize mealTargets t n)) ->
  items_from all (cat :: cs) b'.
Proof.
  intros Hbeams H. apply extendBeams_inv in H.
  assert (Hweak : forall b, In b beams -> items_from all (cat :: cs) b).
  { intros b Hb it Hit. destruct (Hbeams b Hb it Hit) as (i0 & ? & ? & ?).
    exists i0. repeat split; auto. now right. }
  assert (Hitem : forall ing pc it, In ing (pool all cat) -> it = item_of ing pc ->
            exists ing0, In ing0 all /\ it_name it = ing_name ing0
                         /\ In (ing_category ing0) (cat :: cs)).
  { intros ing pc it Hing ->. apply pool_category in Hing. destruct Hing as [Hing Hc].
    exists ing. repeat split; auto. left. now rewrite Hc. }
  destruct H as [beam [Hbeam [[_ ->]|[[_ (ing & pc & Hing & Hit)]
                                      |[_ (a & b & pca & pcb & Ha & Hb & Hit)]]]]].
  - now apply Hweak.
  - intros it Hin. rewrite Hit in Hin. apply in_app_iff in Hin.
    destruct Hin as [Hin|[<-|[]]]; [now apply (Hweak beam)|eauto].
  - intros it Hin. rewrite Hit in Hin. apply in_app_iff in Hin.
    destruct Hin as [Hin|[<-|[<-|[]]]]; [now apply (Hweak beam)|eauto|eauto].
Qed.

(** A step leaves a beam when one enters it and either the category may
    be skipped or its pool offers an ingredient that is not yet in the
    beam. *)
Lemma extendBeams_nonempty cs beams cat kMin beamSize mealTargets t n :
  beams <> [] -> (1 <= beamSize)%nat -> (kMin <= 1)%nat ->
  (forall b, In b beams -> items_from all cs b) -> ~ In cat cs ->
  (kMin = 0%nat \/ pool all cat <> []) ->
  fst (extendBeams all base pcands beams cat kMin 1 beamSize mealTargets t n) <> [].
Proof.
  intros Hne Hsize Hk Hfrom Hcat Hpool.
  destruct beams as [|beam rest]; [contradiction|].
  unfold extendBeams, bind, ret.
  set (ranked := sort _ (pool all cat)).
  destruct (shuffle ranked t n) as [shuffled n1] eqn:Eshuf.
  assert (Hlen_r : length ranked = length (pool all cat))
    by (unfold ranked; apply sort_length).
  assert (Hlen_s : length shuffled = length (pool all cat)).
  { rewrite <- Hlen_r. pose proof (shuffle_length ranked t n) as H.
    rewrite Eshuf in H. exact H. }
  assert (Hin_r : forall x, In x ranked -> In x (pool all cat)).
  { intros x Hx. unfold ranked in Hx. now apply sort_In in Hx. }
  assert (Hin_s : forall x, In x shuffled -> In x (pool all cat)).
  { intros x Hx. apply Hin_r. apply (shuffle_In ranked t n). rewrite Eshuf. exact Hx. }
  match goal with
  | |- context [forM ?F (beam :: rest) t n1] => set (perBeam := F)
  end.
  rewrite (surjective_pairing (forM perBeam (beam :: rest) t n1)).
  cbn [fst]. rewrite forM_cons_fst. cbn [concat].
  assert (Hfirst : fst (perBeam beam t n1) <> []).
  { unfold perBeam.
    match goal with
    | |- context [forM ?G (seq kMin _) t n1] => set (perK := G)
    end.
    rewrite (surjective_pairing (forM perK (seq kMin (2 - kMin)) t n1)). cbn [fst].
    replace (2 - kMin)%nat with (S (1 - kMin)) by lia. cbn [seq].
    rewrite forM_cons_fst. cbn [concat].
    assert (Hk0 : fst (perK kMin t n1) <> []).
    { unfold perK. destruct (Nat.eqb_spec kMin 0) as [->|Hk0]; [cbn; discriminate|].
      assert (kMin = 1%nat) by lia. subst kMin. cbn [Nat.leb fst bind ret].
      destruct Hpool as [|Hpool]; [lia|].
      unfold bind, ret, Math_random. cbn [fst].
      set (src := if Qlt_bool (t n1) 0.6 then shuffled else ranked).
      assert (Hsrc_len : length src = length (pool all cat))
        by (unfold src; destruct (Qlt_bool _ _); assumption).
      assert (Hsrc_in : forall x, In x src -> In x (pool all cat))
        by (unfold src; destruct (Qlt_bool _ _); assumption).
      destruct (pool all cat) as [|p0 ps] eqn:Epool; [contradiction|].
      destruct src as [|x xs]; [discriminate|].
      cbn [length Nat.min firstn]. unfold singles. cbn [flat_map].
      assert (Hx : In x (pool all cat)) by (rewrite Epool; apply Hsrc_in; now left).
      rewrite (hasIngredient_false cs beam cat x); [|apply Hfrom; now left|exact Hcat|exact Hx].
      apply pool_category in Hx. destruct Hx as [Hx _].
      pose proof (pcands_get_nonempty x Hx) as Hpc.
      destruct (pcands_get pcands (ing_name x)); [contradiction|]. discriminate. }
    destruct (fst (perK kMin t n1)); [contradiction|]. discriminate. }
  destruct (fst (perBeam beam t n1)) as [|c cs'] eqn:Ec; [contradiction|].
  cbn [app].
  match goal with
  | |- firstn beamSize (sort ?cmp ?l) <> [] =>
      destruct (sort_nonempty cmp l) as (y & ys & ->); [discriminate|]
  end.
  destruct beamSize; [lia|]. discriminate.
Qed.

End MealFound.

Section MealFoundChain.

Variable all : list IngredientDocV2.
Variable base : MealTargets.
Variable pcands : gmap string (list (IngredientDocV2 * PortionCandidate)).

Hypothesis names_distinct : List.NoDup (map ing_name all).
Hypothesis table_covers : forall ing, In ing all -> is_Some (pcands !! ing_name ing).
Hypothesis table_good : good_table pcands.

Variable goalHint : Goal.
Hypothesis pools_stocked : forall cat, needed goalHint cat = true -> pool all cat <> [].

(** With distinct names, a candidate for every ingredient and every
    needed pool stocked, a meal's search leaves at least one beam. *)
Lemma mealBeams_nonempty t n : fst (mealBeams all base pcands goalHint t n) <> [].
Proof.
  unfold mealBeams, bind, Math_random. cbn [fst snd ranges].
  match goal with
  | |- context [extendBeams all base pcands ?b0 cat_protein 1 1 40 ?mt t ?k] =>
      set (beams0 := b0); set (targets := mt);
      pose proof (extendBeams_nonempty all base pcands names_distinct table_covers
                    table_good [] beams0 cat_protein 1 40 targets t k) as N1;
      pose proof (fun b' => extendBeams_items_from all base pcands [] beams0
                    cat_protein 1 1 40 targets t k b') as F1;
      destruct (extendBeams all base pcands beams0 cat_protein 1 1 40 targets t k)
        as [beams1 n1]
  end.
  cbn [fst] in N1, F1.
  assert (H0 : forall b, In b beams0 -> items_from all [] b).
  { intros b [<-|[]] it []. }
  assert (Hb1 : beams1 <> []).
  { apply N1; [discriminate|lia|lia|exact H0|cbn; tauto|].
    right. apply pools_stocked. reflexivity. }
  assert (Hf1 : forall b, In b beams1 -> items_from all [cat_protein] b) by auto.
  clear N1 F1.
  set (kc := fst match goalHint with fat_loss => (0, 1) | _ => (1, 1) end%nat).
  assert (Hkc : snd match goalHint with fat_loss => (0, 1) | _ => (1, 1) end%nat = 1%nat)
    by (destruct goalHint; reflexivity).
  rewrite Hkc.
  pose proof (extendBeams_nonempty all base pcands names_distinct table_covers
                table_good [cat_protein] beams1 cat_carb kc 60 targets t n1) as N2.
  pose proof (fun b' => extendBeams_items_from all base pcands [cat_protein] beams1
                cat_carb kc 1 60 targets t n1 b') as F2.
  destruct (extendBeams all base pcands beams1 cat_carb kc 1 60 targets t n1)
    as [beams2 n2].
  cbn [fst] in N2, F2.
  assert (Hb2 : beams2 <> []).
  { apply N2; [exact Hb1|lia| |exact Hf1| |].
    - unfold kc. destruct goalHint; cbn; lia.
    - cbn. intros [H|[]]. discriminate.
    - unfold kc. destruct goalHint; cbn [fst]; [left; reflexivity|..];
        right; apply pools_stocked; reflexivity. }
  assert (Hf2 : forall b, In b beams2 -> items_from all [cat_carb; cat_protein] b) by auto.
  clear N2 F2.
  pose proof (extendBeams_nonempty all base pcands names_distinct table_covers
                table_good [cat_carb; cat_protein] beams2 cat_veg 1 60 targets t n2) as N3.
  pose proof (fun b' => extendBeams_items_from all base pcands [cat_carb; cat_protein]
                beams2 cat_veg 1 1 60 targets t n2 b') as F3.
  destruct (extendBeams all base pcands beams2 cat_veg 1 1 60 targets t n2)
    as [beams3 n3].
  cbn [fst] in N3, F3.
  assert (Hb3 : beams3 <> []).
  { apply N3; [exact Hb2|lia|lia|exact Hf2|cbn; intros [H|[H|[]]]; discriminate|].
    right. apply pools_stocked. reflexivity. }
  assert (Hf3 : forall b, In b beams3 ->
                          items_from all [cat_veg; cat_carb; cat_protein] b) by auto.
  clear N3 F3.
  apply (extendBeams_nonempty all base pcands names_distinct table_covers table_good
           [cat_veg; cat_carb; cat_protein]);
    [exact Hb3|lia|lia|exact Hf3|cbn; intros [H|[H|[H|[]]]]; discriminate|].
  right. apply pools_stocked. reflexivity.
Qed.

End MealFoundChain.

Lemma selectBest_nonempty (base : MealTargets) (tol : number) (beams : list MealCombo) :
  beams <> [] -> selectBest base tol beams <> None.
Proof.
  intros Hne. unfold selectBest.
  destruct (List.filter (withinTolerance base tol) beams) as [|w ws].
  - match goal with
    | |- context [sort ?c beams] => destruct (sort_nonempty c beams Hne) as (x & t & ->)
    end.
    discriminate.
  - match goal with
    | |- context [sort ?c (w :: ws)] =>
        destruct (sort_nonempty c (w :: ws)) as (x & t & ->); [discriminate|]
    end.
    discriminate.
Qed.

Lemma selectBest_nil (base : MealTargets) (tol : number) :
  selectBest base tol [] = None.
Proof. reflexivity. Qed.

(** The counts read off a combination of the shape found by the search. *)
Lemma item_of_category ing pc : it_category (item_of ing pc) = ing_category ing.
Proof. reflexivity. Qed.

Lemma formatMeal_counts (b : MealCombo) (cat : Category) (label : string) :
  items_in (categoryOpts label
              (List.filter (fun it => Category_eqb (it_category it) cat) (items b)))
  = count_cat cat b.
Proof.
  unfold items_in, count_cat, categoryOpts.
  destruct (List.filter _ (items b)) as [|x xs]; [reflexivity|].
  cbn [flat_map co_items]. rewrite app_nil_r. unfold formatItems.
  now rewrite length_map.
Qed.

(** C5 (as amended).  On a catalog whose portion loops end, the allocator
    returns one entry per meal.  For each entry: when a combination is
    selected it holds exactly one protein, one vegetable and one fat item,
    and one carb item (for fat loss: one or none), and the response lists
    hold the same counts; when none is selected the four lists are empty.
    None is selected when a needed pool is empty.  One is selected when
    the ingredient names are pairwise distinct, every ingredient has a
    portion candidate and every needed pool is stocked. *)
Theorem C5_meal_holds_one_item_per_category
    (all : list IngredientDocV2) (macros_ : Macros) (mpd : number)
    (strictness : Strictness) (goalHint : Goal) :
  (forall ing, In ing all -> portionCandidates ing <> None) ->
  exists run,
    buildIngredientPlanFull all macros_ mpd strictness goalHint = Some run /\
    forall tape n,
      length (fst (run tape n)) = mealCount mpd /\
      forall best meal, In (best, meal) (fst (run tape n)) ->
        meal = formatMeal best /\
        match best with
        | Some b =>
            count_cat cat_protein b = 1%nat /\
            count_cat cat_veg b = 1%nat /\
            count_cat cat_fat b = 1%nat /\
            (count_cat cat_carb b = 1%nat
             \/ (goalHint = fat_loss /\ count_cat cat_carb b = 0%nat)) /\
            items_in (protein_opts meal) = 1%nat /\
            items_in (veg_opts meal) = 1%nat /\
            items_in (fat_opts meal) = 1%nat /\
            items_in (carb_opts meal) = count_cat cat_carb b
        | None => meal = empty_meal
        end /\
        ((exists cat, needed goalHint cat = true /\ pool all cat = []) -> best = None) /\
        (List.NoDup (map ing_name all) ->
         (forall ing cands, In ing all -> portionCandidates ing = Some cands -> cands <> []) ->
         (forall cat, needed goalHint cat = true -> pool all cat <> []) ->
         best <> None).
Proof.
  intros Hterm.
  destruct (precompute_total all (baseTargets macros_ mpd) Hterm)
    as (pcands & Hpre & Hcov & Hgood).
  assert (Hrun : buildIngredientPlanFull all macros_ mpd strictness goalHint
                 = Some (forM (fun _ => planMeal all (baseTargets macros_ mpd) pcands
                                          (toleranceOf strictness) goalHint)
                              (seq 0 (mealCount mpd))))
    by (unfold buildIngredientPlanFull; rewrite Hpre; reflexivity).
  eexists. split; [exact Hrun|]. intros tape n. split.
  { rewrite forM_length. apply length_seq. }
  intros best meal Hin.
  destruct (buildIngredientPlanFull_meal _ _ _ _ _ _ _ _ _ _ Hrun Hin)
    as (pcands' & k & Hpre' & Hbest & Hmeal).
  rewrite Hpre in Hpre'. injection Hpre' as <-.
  set (beams := fst (mealBeams all (baseTargets macros_ mpd) pcands goalHint tape k)) in *.
  assert (Hshape : forall b, best = Some b ->
            exists ip pcp iv pcv ifat pcf,
              ing_category ip = cat_protein /\ ing_category iv = cat_veg /\
              ing_category ifat = cat_fat /\
              ( (exists ic pcc, ing_category ic = cat_carb /\
                   items b = [item_of ip pcp; item_of ic pcc; item_of iv pcv;
                              item_of ifat pcf])
                \/ (goalHint = fat_loss /\
                    items b = [item_of ip pcp; item_of iv pcv; item_of ifat pcf]) )
              /\ pool all cat_protein <> [] /\ pool all cat_veg <> []
              /\ pool all cat_fat <> []
              /\ (goalHint <> fat_loss -> pool all cat_carb <> [])).
  { intros b Hb. rewrite Hb in Hbest. symmetry in Hbest.
    apply selectBest_spec in Hbest. destruct Hbest as [Hbin _].
    apply mealBeams_inv in Hbin.
    destruct Hbin as (ip & pcp & iv & pcv & ifat & pcf & Hip & Hiv & Hif & Hits).
    assert (Hne : forall cat (x : IngredientDocV2), In x (pool all cat) -> pool all cat <> [])
      by (intros cat x Hx E; rewrite E in Hx; contradiction).
    exists ip, pcp, iv, pcv, ifat, pcf.
    split; [apply (pool_category all _ _ Hip)|].
    split; [apply (pool_category all _ _ Hiv)|].
    split; [apply (pool_category all _ _ Hif)|].
    split.
    - destruct Hits as [(ic & pcc & Hic & Hits)|[Hg Hits]]; [left|right; auto].
      exists ic, pcc. split; [apply (pool_category all _ _ Hic)|exact Hits].
    - repeat split; eauto.
      intros Hg. destruct Hits as [(ic & pcc & Hic & _)|[Hg' _]]; [eauto|contradiction]. }
  split; [exact Hmeal|]. split; [|split].
  - destruct best as [b|]; [|rewrite Hmeal; reflexivity].
    destruct (Hshape b eq_refl)
      as (ip & pcp & iv & pcv & ifat & pcf & Cp & Cv & Cf & Hits & _).
    assert (Hcounts :
      count_cat cat_protein b = 1%nat /\ count_cat cat_veg b = 1%nat /\
      count_cat cat_fat b = 1%nat /\
      (count_cat cat_carb b = 1%nat \/ (goalHint = fat_loss /\ count_cat cat_carb b = 0%nat))).
    { unfold count_cat.
      destruct Hits as [(ic & pcc & Cc & ->)|[Hg ->]]; cbn [List.filter];
        rewrite ?item_of_category, ?Cp, ?Cv, ?Cf, ?Cc; cbn; auto 6. }
    destruct Hcounts as (H1 & H2 & H3 & H4).
    repeat split; try assumption; rewrite Hmeal; cbn [formatMeal protein_opts veg_opts
      fat_opts carb_opts]; rewrite formatMeal_counts; auto.
  - intros [cat [Hneed Hempty]]. destruct best as [b|]; [exfalso|reflexivity].
    destruct (Hshape b eq_refl)
      as (_ & _ & _ & _ & _ & _ & _ & _ & _ & _ & Pp & Pv & Pf & Pc).
    destruct cat; try contradiction.
    apply Pc; [|exact Hempty]. intros ->. discriminate Hneed.
  - intros Hnd Hcands Hpools. rewrite Hbest. apply selectBest_nonempty.
    apply mealBeams_nonempty; auto.
Qed.

Lemma C5_meal_witness :
  exists run,
    buildIngredientPlanFull demo_ingredients demo_macros 1 normal recomp = Some run /\
    forall tape n,
      length (fst (run tape n)) = mealCount 1 /\
      forall best meal, In (best, meal) (fst (run tape n)) ->
        meal = formatMeal best /\
        match best with
        | Some b =>
            count_cat cat_protein b = 1%nat /\
            count_cat cat_veg b = 1%nat /\
            count_cat cat_fat b = 1%nat /\
            (count_cat cat_carb b = 1%nat
             \/ (recomp = fat_loss /\ count_cat cat_carb b = 0%nat)) /\
            items_in (protein_opts meal) = 1%nat /\
            items_in (veg_opts meal) = 1%nat /\
            items_in (fat_opts meal) = 1%nat /\
            items_in (carb_opts meal) = count_cat cat_carb b
        | None => meal = empty_meal
        end /\
        ((exists cat, needed recomp cat = true /\ pool demo_ingredients cat = [])
         -> best = None) /\
        (List.NoDup (map ing_name demo_ingredients) ->
         (forall ing cands, In ing demo_ingredients ->
                            portionCandidates ing = Some cands -> cands <> []) ->
         (forall cat, needed recomp cat = true -> pool demo_ingredients cat <> []) ->
         best <> None).
Proof.
  apply (C5_meal_holds_one_item_per_category demo_ingredients demo_macros 1 normal recomp).
  exact demo_ingredients_end.
Defined.

Lemma shared_name_full_eq :
  buildIngredientPlanFull shared_name_ingredients demo_macros 1 normal recomp
  = Some shared_name_full.
Proof.
  apply runOf_eq. apply buildIngredientPlanFull_defined.
  intros ing Hing. cbn in Hing.
  destruct Hing as [<-|[<-|[<-|[<-|[]]]]]; vm_compute; discriminate.
Qed.

(** C5 as stated fails: every category pool is stocked, yet the meal holds
    no protein, vegetable or fat item; its four lists are empty. *)
Lemma C5_stocked_pools_empty_meal :
  (forall cat, pool shared_name_ingredients cat <> []) /\
  exists run,
    buildIngredientPlanFull shared_name_ingredients demo_macros 1 normal recomp = Some run /\
    fst (run (constant_tape 0.5) 0%nat) = [ (None, empty_meal) ] /\
    items_in (protein_opts empty_meal) = 0%nat.
Proof.
  split.
  - intros []; vm_compute; discriminate.
  - exists shared_name_full. split; [exact shared_name_full_eq|].
    split; vm_compute; reflexivity.
Qed.

(** ** Adaptation: the soreness rule applied twice *)

Lemma blockAt_forEachBlock (f : PlanBlock -> PlanBlock) (p : Plan) (i j : nat) :
  blockAt (forEachBlock f p) i j = option_map f (blockAt p i j).
Proof.
  unfold blockAt, forEachBlock. cbn [plan_workouts].
  destruct (plan_workouts p) as [ws|]; [|reflexivity]. cbn [option_map].
  rewrite nth_error_map. destruct (nth_error ws i) as [w|]; [|reflexivity].
  cbn [option_map pd_blocks]. destruct (pd_blocks w) as [bs|]; [|reflexivity].
  cbn [option_map]. apply nth_error_map.
Qed.

Lemma blockAt_sorenessRule (entries : list (string * number)) (p : Plan)
    (log : list LogLine) (i j : nat) :
  blockAt (fst (sorenessRule entries (p, log))) i j
  = option_map (sorenessBlock entries) (blockAt p i j).
Proof.
  unfold sorenessRule, sorenessBlock. revert p log.
  induction entries as [|[region sc] es IH]; intros p log; cbn [fold_left fst snd].
  - destruct (blockAt p i j); reflexivity.
  - destruct (Qle_bool 4 sc).
    + rewrite IH, blockAt_forEachBlock. destruct (blockAt p i j); reflexivity.
    + apply IH.
Qed.

Lemma blockAt_calorieRule trend (st : Plan * list LogLine) (i j : nat) :
  blockAt (fst (calorieRule trend st)) i j = blockAt (fst st) i j.
Proof.
  unfold calorieRule. destruct st as [p log]. cbn [fst].
  destruct (plan_kcal p) as [k|]; [|reflexivity].
  destruct (Qeq_bool k 0); [reflexivity|].
  destruct trend as [[| |]|]; try reflexivity.
  all: match goal with |- context [negb ?c] => destruct c end; reflexivity.
Qed.

(** With rules 2 and 4 silent, the handler applies [sorenessBlock] to
    every block. *)
Lemma adaptPlan_blocks (body : AdaptReq) (res : AdaptRes) (i j : nat) :
  adaptPlan body = Ok200 res ->
  onlySorenessAndTrend body ->
  exists plan0,
    current_plan body = Some plan0 /\
    blockAt (patched_plan res) i j
    = option_map (sorenessBlock (sorenessEntries body)) (blockAt plan0 i j).
Proof.
  unfold adaptPlan, onlySorenessAndTrend, sorenessEntries.
  destruct (current_plan body) as [plan0|]; [|discriminate].
  destruct (readiness body) as [r|]; [|discriminate].
  intros H [H2 H4]. injection H as <-. exists plan0. split; [reflexivity|].
  cbn [patched_plan]. unfold adherenceRule, fatigueRule.
  destruct (calorieRule _ _) as [p3 l3] eqn:E3.
  rewrite H4. cbn [fst].
  change p3 with (fst (p3, l3)). rewrite <- E3.
  destruct (sorenessRule _ _) as [p1 l1] eqn:E1. rewrite H2.
  rewrite blockAt_calorieRule. cbn [fst].
  change p1 with (fst (p1, l1)). rewrite <- E1.
  apply blockAt_sorenessRule.
Qed.

Lemma Math_max_1_spec (y : number) :
  (1 <= y /\ Math_max 1 y = y) \/ (y < 1 /\ Math_max 1 y = 1).
Proof.
  unfold Math_max. destruct (Qle_bool 1 y) eqn:E.
  - left. split; [now apply Qle_bool_iff|reflexivity].
  - right. split; [|reflexivity].
    apply Qnot_le_lt. intros H. apply Qle_bool_iff in H. congruence.
Qed.

Lemma hits_decBlock (entries : list (string * number)) (b : PlanBlock) :
  hits entries (decBlock b) = hits entries b.
Proof. reflexivity. Qed.

Lemma decrementFor_match (region : string) (b : PlanBlock) :
  decrementFor region b = if regionMatches region b then decBlock b else b.
Proof. reflexivity. Qed.

(** Rule 1 decrements a block once for every sore region that matches it. *)
Lemma sorenessBlock_iter (entries : list (string * number)) (b : PlanBlock) :
  sorenessBlock entries b = Nat.iter (hits entries b) decBlock b.
Proof.
  unfold sorenessBlock, hits. revert b.
  induction entries as [|[region sc] es IH]; intros b; [reflexivity|].
  cbn [fold_left List.filter fst snd]. rewrite decrementFor_match.
  destruct (Qle_bool 4 sc); cbn [andb]; [|apply IH].
  destruct (regionMatches region b) eqn:Em; [|apply IH].
  rewrite IH. cbn [length].
  change (List.filter _ es) with
    (List.filter (fun e => Qle_bool 4 (snd e) && regionMatches (fst e) b) es).
  now rewrite Nat.iter_succ_r.
Qed.

Lemma iter_decBlock_muscle (k : nat) (b : PlanBlock) :
  pb_muscle (Nat.iter k decBlock b) = pb_muscle b.
Proof. induction k as [|k IH]; [reflexivity|exact IH]. Qed.

Lemma hits_iter_decBlock (entries : list (string * number)) (k : nat) (b : PlanBlock) :
  hits entries (Nat.iter k decBlock b) = hits entries b.
Proof.
  unfold hits, regionMatches. now rewrite iter_decBlock_muscle.
Qed.

(** After [k >= 1] decrements the set count is [max(1, v - k)], where [v]
    is the block's [Number(sets) || 3]. *)
Lemma iter_decBlock_sets (k : nat) (b : PlanBlock) :
  (1 <= k)%nat ->
  exists s, pb_sets (Nat.iter k decBlock b) = Some s /\ 1 <= s /\
            s == Math_max 1 (setsOr3 b - inject_Z (Z.of_nat k)).
Proof.
  intros Hk. induction k as [|k IH]; [lia|].
  destruct k as [|k].
  - cbn [Nat.iter decBlock pb_sets]. eexists. split; [reflexivity|].
    change (inject_Z (Z.of_nat 1)) with 1.
    destruct (Math_max_1_spec (setsOr3 b - 1)) as [[H ->]|[H ->]]; split; lra.
  - destruct IH as (s & Hs & Hge & Heq); [lia|].
    change (Nat.iter (S (S k)) decBlock b) with (decBlock (Nat.iter (S k) decBlock b)).
    cbn [decBlock pb_sets]. eexists. split; [reflexivity|].
    assert (Hv : setsOr3 (Nat.iter (S k) decBlock b) = s).
    { unfold setsOr3. rewrite Hs.
      destruct (Qeq_bool s 0) eqn:E; [|reflexivity].
      apply Qeq_bool_iff in E. lra. }
    rewrite Hv.
    assert (Hinj : inject_Z (Z.of_nat (S (S k))) == inject_Z (Z.of_nat (S k)) + 1).
    { rewrite (Nat2Z.inj_succ (S k)). unfold Z.succ. rewrite inject_Z_plus. reflexivity. }
    destruct (Math_max_1_spec (setsOr3 b - inject_Z (Z.of_nat (S k)))) as [[H E]|[H E]];
      rewrite E in Heq;
      destruct (Math_max_1_spec (s - 1)) as [[H1 ->]|[H1 ->]];
      destruct (Math_max_1_spec (setsOr3 b - inject_Z (Z.of_nat (S (S k)))))
        as [[H2 ->]|[H2 ->]];
      split; lra.
Qed.

(** C9 (as amended).  With the fatigue and adherence rules silent, each
    application of adaptPlan lowers a block's sets once for every sore
    region (soreness at least 4) that matches its muscle, never below 1.
    A block matched by [k >= 1] sore regions, whose [Number(sets) || 3] is
    [v], has [max(1, v - k)] sets after one application and
    [max(1, v - 2k)] after a second one on the patched plan, which is
    strictly fewer whenever [v - k > 1]; an unmatched block is unchanged. *)
Theorem C9_adaptPlan_twice_decrements_twice
    (body : AdaptReq) (res1 res2 : AdaptRes) (i j : nat) (b0 : PlanBlock) (plan0 : Plan) :
  adaptPlan body = Ok200 res1 ->
  adaptPlan (withPlan body (patched_plan res1)) = Ok200 res2 ->
  onlySorenessAndTrend body ->
  current_plan body = Some plan0 ->
  blockAt plan0 i j = Some b0 ->
  exists b1 b2,
    blockAt (patched_plan res1) i j = Some b1 /\
    blockAt (patched_plan res2) i j = Some b2 /\
    pb_muscle b1 = pb_muscle b0 /\ pb_muscle b2 = pb_muscle b0 /\
    (hits (sorenessEntries body) b0 = 0%nat -> b1 = b0 /\ b2 = b0) /\
    ((1 <= hits (sorenessEntries body) b0)%nat ->
     exists s1 s2,
       pb_sets b1 = Some s1 /\ pb_sets b2 = Some s2 /\
       s1 == Math_max 1 (setsOr3 b0 - inject_Z (Z.of_nat (hits (sorenessEntries body) b0))) /\
       s2 == Math_max 1 (setsOr3 b0
                         - 2 * inject_Z (Z.of_nat (hits (sorenessEntries body) b0))) /\
       (1 < setsOr3 b0 - inject_Z (Z.of_nat (hits (sorenessEntries body) b0)) -> s2 < s1)).
Proof.
  intros H1 H2 Honly Hplan Hb0.
  destruct (adaptPlan_blocks body res1 i j H1 Honly) as (p0 & Hp0 & Hb1).
  rewrite Hplan in Hp0. injection Hp0 as <-.
  destruct (adaptPlan_blocks (withPlan body (patched_plan res1)) res2 i j H2 Honly)
    as (p1 & Hp1 & Hb2).
  cbn [withPlan current_plan] in Hp1. injection Hp1 as <-.
  change (sorenessEntries (withPlan body (patched_plan res1)))
    with (sorenessEntries body) in Hb2.
  set (entries := sorenessEntries body) in *.
  rewrite Hb0 in Hb1. cbn [option_map] in Hb1.
  rewrite Hb1 in Hb2. cbn [option_map] in Hb2.
  rewrite sorenessBlock_iter in Hb1.
  rewrite !sorenessBlock_iter, hits_iter_decBlock in Hb2.
  set (k := hits entries b0) in *.
  exists (Nat.iter k decBlock b0), (Nat.iter k decBlock (Nat.iter k decBlock b0)).
  split; [exact Hb1|]. split; [exact Hb2|].
  rewrite !iter_decBlock_muscle. split; [reflexivity|]. split; [reflexivity|]. split.
  - intros ->. split; reflexivity.
  - intros Hk. rewrite <- Nat.iter_add.
    destruct (iter_decBlock_sets k b0 Hk) as (s1 & Hs1 & Hge1 & He1).
    destruct (iter_decBlock_sets (k + k) b0) as (s2 & Hs2 & Hge2 & He2); [lia|].
    exists s1, s2. split; [exact Hs1|]. split; [exact Hs2|].
    assert (Hkk : inject_Z (Z.of_nat (k + k)) == 2 * inject_Z (Z.of_nat k)).
    { rewrite Nat2Z.inj_add, inject_Z_plus. ring. }
    assert (Hk1 : 1 <= inject_Z (Z.of_nat k)).
    { change 1 with (inject_Z 1). rewrite <- Zle_Qle. lia. }
    split; [exact He1|].
    destruct (Math_max_1_spec (setsOr3 b0 - inject_Z (Z.of_nat k))) as [[Ha Ea]|[Ha Ea]];
      rewrite Ea in He1;
      destruct (Math_max_1_spec (setsOr3 b0 - inject_Z (Z.of_nat (k + k))))
        as [[Hb Eb]|[Hb Eb]];
      rewrite Eb in He2;
      destruct (Math_max_1_spec (setsOr3 b0 - 2 * inject_Z (Z.of_nat k)))
        as [[Hc ->]|[Hc ->]];
      split; try lra; intros Hgt; lra.
Qed.

Lemma C9_adaptPlan_twice_witness :
  exists b1 b2,
    blockAt (patched_plan (patchedOf (adaptPlan sore_chest_request))) 0 0 = Some b1 /\
    blockAt (patched_plan
               (patchedOf (adaptPlan
                  (withPlan sore_chest_request
                     (patched_plan (patchedOf (adaptPlan sore_chest_request))))))) 0 0
      = Some b2 /\
    pb_sets b1 = Some 5 /\ pb_sets b2 = Some 4.
Proof.
  destruct (C9_adaptPlan_twice_decrements_twice sore_chest_request
              (patchedOf (adaptPlan sore_chest_request))
              (patchedOf (adaptPlan
                 (withPlan sore_chest_request
                    (patched_plan (patchedOf (adaptPlan sore_chest_request))))))
              0%nat 0%nat
              {| pb_muscle := "upper_chest"; pb_sets := Some 6;
                 pb_rir := Some "1-2"%string |}
              demo_workout_plan)
    as (b1 & b2 & H1 & H2 & _).
  - vm_compute; reflexivity.
  - vm_compute; reflexivity.
  - split; vm_compute; reflexivity.
  - reflexivity.
  - reflexivity.
  - exists b1, b2. split; [exact H1|]. split; [exact H2|].
    vm_compute in H1. injection H1 as <-.
    vm_compute in H2. injection H2 as <-.
    split; reflexivity.
Defined.

(** C9 as stated fails: with two sore regions matching one block, a single
    application lowers its sets by two (6 to 4, not 5), and two
    applications by four (6 to 2, not 4); and a block whose set count is
    zero is not decremented but set to 2. *)
Lemma C9_two_matching_regions_lower_sets_by_two :
  (exists res1 res2 b1 b2,
     adaptPlan sore_chest_and_upper_request = Ok200 res1 /\
     adaptPlan (withPlan sore_chest_and_upper_request (patched_plan res1)) = Ok200 res2 /\
     option_map pb_sets (blockAt demo_workout_plan 0 0) = Some (Some 6) /\
     blockAt (patched_plan res1) 0 0 = Some b1 /\ pb_sets b1 = Some 4 /\
     blockAt (patched_plan res2) 0 0 = Some b2 /\ pb_sets b2 = Some 2 /\
     ~ 4 == Math_max 1 (6 - 1) /\ ~ 2 == Math_max 1 (6 - 2))
  /\
  (exists res b,
     adaptPlan zero_sets_request = Ok200 res /\
     blockAt (patched_plan res) 0 0 = Some b /\ pb_sets b = Some 2 /\
     ~ 2 == Math_max 1 (0 - 1)).
Proof.
  split.
  - do 4 eexists.
    split; [vm_compute; reflexivity|].
    split; [vm_compute; reflexivity|].
    split; [reflexivity|].
    split; [vm_compute; reflexivity|].
    split; [reflexivity|].
    split; [vm_compute; reflexivity|].
    split; [reflexivity|].
    split; intros H; vm_compute in H; discriminate.
  - do 2 eexists.
    split; [vm_compute; reflexivity|].
    split; [vm_compute; reflexivity|].
    split; [reflexivity|].
    intros H; vm_compute in H; discriminate.
Qed.

(* ===================================================================== *)
(** * Further properties of the engine                                    *)
(* ===================================================================== *)

(** ** Index calculator: validation, overrides and suggestions *)

Lemma clamp_bounds (x lo hi : number) :
  lo <= hi -> lo <= clamp x lo hi /\ clamp x lo hi <= hi.
Proof.
  intros Hlh. unfold clamp, Math_max, Math_min.
  destruct (Qle_bool hi x) eqn:E1.
  - apply Qle_bool_iff in Hlh. rewrite Hlh. apply Qle_bool_iff in Hlh. split; lra.
  - destruct (Qle_bool lo x) eqn:E2.
    + apply Qle_bool_iff in E2. split; [exact E2|].
      apply Qlt_le_weak, Qnot_le_lt. intros H. apply Qle_bool_iff in H. congruence.
    + split; lra.
Qed.

Lemma recalculateIndexes_fields (body : IndexReqBase) (r : RecalcRes) :
  recalculateIndexes body = Ok200 r ->
  exists ar,
    age_range body = Some ar /\ ar <> ""%string /\ sex body <> None /\
    r = {| r_BMR := BMR (computeIndexes body ar);
           r_method := method (computeIndexes body ar);
           r_TDEE := computeTDEE (BMR (computeIndexes body ar)) (Some 3)
                                 (o_TDEE (overridesOf body));
           r_BMI := BMI (computeIndexes body ar);
           r_WHtR := WHtR (computeIndexes body ar);
           r_FFMI := FFMI (computeIndexes body ar);
           r_accuracy := fst (accuracyBand body);
           r_next_best_input := snd (accuracyBand body);
           r_warnings :=
             detectOverrideWarnings (BMR (computeIndexes body ar))
                                    (o_BMR (overridesOf body)) "BMR" ++
             detectOverrideWarnings
               (computeTDEE (BMR (computeIndexes body ar)) (Some 3)
                            (o_TDEE (overridesOf body)))
               (o_TDEE (overridesOf body)) "TDEE" ++
             detectOverrideWarnings (BMI (computeIndexes body ar))
                                    (o_BMI (overridesOf body)) "BMI" |}.
Proof.
  unfold recalculateIndexes. intros H.
  destruct (sex body) as [s|]; [|discriminate].
  destruct (age_range body) as [ar|]; [|discriminate].
  destruct (String.eqb_spec ar ""); [discriminate|].
  injection H as <-. exists ar. repeat split; try assumption. discriminate.
Qed.

(** X1.  /recalculateIndexes answers 400 exactly when sex is missing or
    age_range is missing or empty, whatever the other fields hold; in
    every other case it answers 200. *)
Theorem X1_recalc_rejects_exactly_missing_sex_or_age (body : IndexReqBase) :
  (recalculateIndexes body = Err400 "sex and age_range are required."
   <-> (sex body = None \/ age_range body = None \/ age_range body = Some ""%string))
  /\
  ((exists r, recalculateIndexes body = Ok200 r)
   <-> (sex body <> None /\ exists ar, age_range body = Some ar /\ ar <> ""%string)).
Proof.
  unfold recalculateIndexes.
  destruct (sex body) as [s|]; destruct (age_range body) as [ar|];
    try destruct (String.eqb_spec ar ""); subst; split; split;
    try (intros; auto; fail); try discriminate;
    try (intros [H|[H|H]]; congruence);
    try (intros [r H]; discriminate);
    try (intros [H _]; congruence);
    try (intros [_ [a [H1 H2]]]; congruence).
  - intros _. split; [discriminate|]. eauto.
  - intros _. eexists. reflexivity.
Qed.

(** X2.  An override wins and is clamped: with a BMR override the response
    carries method override and a BMR within [800, 3000]; with a TDEE
    override a TDEE within [1200, 5000]; with a BMI override a BMI within
    [10, 60], none of them depending on the measured fields. *)
Theorem X2_overrides_win_and_are_clamped (body : IndexReqBase) (r : RecalcRes) :
  recalculateIndexes body = Ok200 r ->
  (forall o, o_BMR (overridesOf body) = Some o ->
     r_method r = override_m /\ r_BMR r = Some (clamp o 800 3000) /\
     800 <= clamp o 800 3000 /\ clamp o 800 3000 <= 3000) /\
  (forall o, o_TDEE (overridesOf body) = Some o ->
     r_TDEE r = Some (clamp o 1200 5000) /\
     1200 <= clamp o 1200 5000 /\ clamp o 1200 5000 <= 5000) /\
  (forall o, o_BMI (overridesOf body) = Some o ->
     r_BMI r = Some (clamp o 10 60) /\
     10 <= clamp o 10 60 /\ clamp o 10 60 <= 60).
Proof.
  intros Hok. destruct (recalculateIndexes_fields body r Hok) as (ar & _ & _ & _ & ->).
  cbn [r_method r_BMR r_TDEE r_BMI]. unfold computeIndexes. cbn [BMR method BMI].
  fold (overridesOf body). repeat split.
  all: try (rewrite H; reflexivity).
  all: try (apply clamp_bounds; discriminate).
  all: unfold computeTDEE; rewrite H; reflexivity.
Qed.

Lemma X2_overrides_witness :
  exists r, recalculateIndexes all_overrides_profile = Ok200 r /\
    r_method r = override_m /\ r_BMR r = Some (clamp 2500 800 3000) /\
    r_TDEE r = Some (clamp 3000 1200 5000) /\ r_BMI r = Some (clamp 30 10 60).
Proof.
  eexists. split; [reflexivity|].
  destruct (X2_overrides_win_and_are_clamped all_overrides_profile _ eq_refl)
    as (HB & HT & HI).
  destruct (HB 2500 eq_refl) as (Hm & Hb & _).
  destruct (HT 3000 eq_refl) as (Ht & _).
  destruct (HI 30 eq_refl) as (Hi & _).
  repeat split; assumption.
Defined.

(** X3.  The suggested next input is absent exactly in the band highest
    (the branch that would leave it absent in the band high is never
    taken); in the band high it is waist_cm, in the band med bodyfat_pct,
    and in the band low weight_kg or height_cm. *)
Theorem X3_next_best_input_absent_iff_highest (req : IndexReqBase) :
  (snd (accuracyBand req) = None <-> fst (accuracyBand req) = acc_highest) /\
  (fst (accuracyBand req) = acc_high -> snd (accuracyBand req) = Some "waist_cm"%string) /\
  (fst (accuracyBand req) = acc_med -> snd (accuracyBand req) = Some "bodyfat_pct"%string) /\
  (fst (accuracyBand req) = acc_low ->
     snd (accuracyBand req) = Some "weight_kg"%string
     \/ snd (accuracyBand req) = Some "height_cm"%string).
Proof.
  destruct req as [s a h w bf wa ov]. unfold accuracyBand. cbn.
  destruct s, a as [a|], h, w, bf, wa; cbn;
    try destruct (String.eqb a ""); cbn;
    repeat split; intros; try discriminate; auto.
Qed.

(** X4.  When every supplied override lies inside its clamp range (BMR in
    [800, 3000], TDEE in [1200, 5000], BMI in [10, 60]) the response has no
    warning, however far the overrides are from the values the formulas
    give. *)
Theorem X4_no_warning_for_overrides_within_clamp (body : IndexReqBase) (r : RecalcRes) :
  recalculateIndexes body = Ok200 r ->
  (forall o, o_BMR (overridesOf body) = Some o -> 800 <= o /\ o <= 3000) ->
  (forall o, o_TDEE (overridesOf body) = Some o -> 1200 <= o /\ o <= 5000) ->
  (forall o, o_BMI (overridesOf body) = Some o -> 10 <= o /\ o <= 60) ->
  r_warnings r = [].
Proof.
  intros Hok HB HT HI.
  destruct (recalculateIndexes_fields body r Hok) as (ar & _ & _ & _ & ->).
  cbn [r_warnings].
  assert (Hnone : forall c l, detectOverrideWarnings c None l = [])
    by (intros [c|] l; reflexivity).
  assert (Hin : forall o lo hi l, lo <= o -> o <= hi -> 0 < lo ->
            detectOverrideWarnings (Some (clamp o lo hi)) (Some o) l = []).
  { intros o lo hi l Hlo Hhi Hpos. apply detectOverrideWarnings_same.
    - now apply clamp_Qeq.
    - rewrite (clamp_Qeq o lo hi Hlo Hhi). intros Hz. lra. }
  assert (E1 : detectOverrideWarnings (BMR (computeIndexes body ar))
                 (o_BMR (overridesOf body)) "BMR" = []).
  { unfold computeIndexes. cbn [BMR]. fold (overridesOf body).
    destruct (o_BMR (overridesOf body)) as [o|] eqn:Eo; [|apply Hnone].
    cbn [fst]. destruct (HB o eq_refl). apply Hin; [assumption|assumption|reflexivity]. }
  assert (E2 : detectOverrideWarnings
                 (computeTDEE (BMR (computeIndexes body ar)) (Some 3)
                              (o_TDEE (overridesOf body)))
                 (o_TDEE (overridesOf body)) "TDEE" = []).
  { destruct (o_TDEE (overridesOf body)) as [o|] eqn:Eo; [|apply Hnone].
    unfold computeTDEE. destruct (HT o eq_refl).
    apply Hin; [assumption|assumption|reflexivity]. }
  assert (E3 : detectOverrideWarnings (BMI (computeIndexes body ar))
                 (o_BMI (overridesOf body)) "BMI" = []).
  { unfold computeIndexes. cbn [BMI]. fold (overridesOf body).
    destruct (o_BMI (overridesOf body)) as [o|] eqn:Eo; [|apply Hnone].
    destruct (HI o eq_refl). apply Hin; [assumption|assumption|reflexivity]. }
  rewrite E1, E2, E3. reflexivity.
Qed.

Lemma X4_no_warning_witness :
  exists r, recalculateIndexes all_overrides_profile = Ok200 r /\ r_warnings r = [].
Proof.
  eexists. split; [reflexivity|].
  apply (X4_no_warning_for_overrides_within_clamp all_overrides_profile _ eq_refl).
  - intros o H. injection H as <-. split; apply Qle_bool_iff; reflexivity.
  - intros o H. injection H as <-. split; apply Qle_bool_iff; reflexivity.
  - intros o H. injection H as <-. split; apply Qle_bool_iff; reflexivity.
Defined.

(** ** Index calculator: activity, calories and macros *)

Lemma Qle_bool_inject_Z (a b : Z) :
  Qle_bool (inject_Z a) (inject_Z b) = (a <=? b)%Z.
Proof. unfold Qle_bool. cbn. rewrite !Z.mul_1_r. reflexivity. Qed.

Lemma clamp_inject_Z (z lo hi : Z) :
  (lo <= hi)%Z ->
  clamp (inject_Z z) (inject_Z lo) (inject_Z hi) = inject_Z (Z.max lo (Z.min hi z)).
Proof.
  intros H. unfold clamp, Math_max, Math_min. rewrite Qle_bool_inject_Z.
  destruct (Z.leb_spec hi z).
  - rewrite Qle_bool_inject_Z. destruct (Z.leb_spec lo hi); [|lia]. f_equal. lia.
  - rewrite Qle_bool_inject_Z. destruct (Z.leb_spec lo z); f_equal; lia.
Qed.

Lemma dayClass_cases (d : number) :
  dayClass d = 1%Z \/ dayClass d = 2%Z \/ dayClass d = 3%Z \/
  dayClass d = 4%Z \/ dayClass d = 5%Z \/ dayClass d = 6%Z.
Proof. unfold dayClass. lia. Qed.

Lemma activityMultiplier_dayClass (d : number) :
  activityMultiplier d = nullish (table_get ACTIVITY_BY_DAYS (dayClass d)) 1.55.
Proof.
  unfold activityMultiplier, Math_floor.
  change 1 with (inject_Z 1). change 6 with (inject_Z 6).
  rewrite clamp_inject_Z by lia. rewrite Qfloor_Z. reflexivity.
Qed.

Lemma Math_round_bounds (x : number) :
  x - (1 # 2) < Math_round x /\ Math_round x <= x + (1 # 2).
Proof.
  unfold Math_round. split.
  - pose proof (Qlt_floor (x + (1 # 2))) as H.
    rewrite inject_Z_plus in H. change (inject_Z 1) with 1 in H. lra.
  - apply Qfloor_le.
Qed.

Lemma Math_round_le (x y : number) : x <= y -> Math_round x <= Math_round y.
Proof.
  intros H. unfold Math_round. rewrite <- Zle_Qle. apply Qfloor_resp_le. lra.
Qed.

Lemma Math_round_nonneg (x : number) : 0 <= x -> 0 <= Math_round x.
Proof. intros H. apply (Math_round_le 0 x H). Qed.

(** X5.  The activity multiplier depends on the training days only through
    their whole part kept within 1 and 6: it is 1.375 up to two days, 1.55
    for three or four and 1.725 from five on (the default 1.55 of the
    lookup is never reached, also below one day or above six), and it
    never decreases when the training days increase. *)
Theorem X5_activity_multiplier_steps_and_monotone (d d' : number) :
  d <= d' ->
  activityMultiplier d =
    (if (dayClass d <=? 2)%Z then 1.375
     else if (dayClass d <=? 4)%Z then 1.55 else 1.725)
  /\ activityMultiplier d <= activityMultiplier d'.
Proof.
  intros Hle. rewrite !activityMultiplier_dayClass.
  assert (Hk : (dayClass d <= dayClass d')%Z).
  { unfold dayClass. pose proof (Qfloor_resp_le d d' Hle). lia. }
  split.
  - destruct (dayClass_cases d) as [E|[E|[E|[E|[E|E]]]]]; rewrite E; reflexivity.
  - destruct (dayClass_cases d) as [E|[E|[E|[E|[E|E]]]]];
      destruct (dayClass_cases d') as [E'|[E'|[E'|[E'|[E'|E']]]]];
      rewrite E, E' in *; try lia; cbn; apply Qle_bool_iff; reflexivity.
Qed.

Lemma X5_activity_multiplier_witness :
  activityMultiplier (5 # 2) = 1.375 /\
  activityMultiplier (5 # 2) <= activityMultiplier 9.
Proof.
  apply (X5_activity_multiplier_steps_and_monotone (5 # 2) 9).
  apply Qle_bool_iff. reflexivity.
Defined.

(** X6.  For a non-negative TDEE the calorie targets are ordered by goal:
    fat_loss is at most recomp, recomp equals strength, and
    recomp <= hypertrophy <= lean_mass; none of them is negative. *)
Theorem X6_calorie_targets_ordered_by_goal (TDEE : number) :
  0 <= TDEE ->
  0 <= setCalories TDEE fat_loss /\
  setCalories TDEE fat_loss <= setCalories TDEE recomp /\
  setCalories TDEE recomp = setCalories TDEE strength /\
  setCalories TDEE recomp <= setCalories TDEE hypertrophy /\
  setCalories TDEE hypertrophy <= setCalories TDEE lean_mass.
Proof.
  intros H. unfold setCalories. destruct (Qeq_bool TDEE 0).
  - repeat split; apply Qle_refl.
  - split; [apply Math_round_nonneg; lra|].
    split; [apply Math_round_le; lra|].
    split; [reflexivity|].
    split; apply Math_round_le; lra.
Qed.

Lemma X6_calorie_targets_witness :
  0 <= setCalories 2641 fat_loss /\
  setCalories 2641 fat_loss <= setCalories 2641 recomp /\
  setCalories 2641 recomp = setCalories 2641 strength /\
  setCalories 2641 recomp <= setCalories 2641 hypertrophy /\
  setCalories 2641 hypertrophy <= setCalories 2641 lean_mass.
Proof.
  apply (X6_calorie_targets_ordered_by_goal 2641). apply Qle_bool_iff. reflexivity.
Defined.

(** X7.  Energy balance of the macro split: the carbohydrate grams are never
    negative; when the calorie target covers protein and fat (4 kcal and
    9 kcal per gram) the three macros add up to the target within 2 kcal;
    when it does not, the carbohydrates are 0 and protein and fat alone
    exceed the target.  This holds for every sex, weight (also absent),
    target and goal. *)
Theorem X7_macros_add_up_to_calories (s : option Sex) (weight : option number)
    (kcal : number) (goal : Goal) :
  let m := setMacros s weight kcal goal in
  let fixed := protein_g m * 4 + fat_g m * 9 in
  0 <= carb_g m /\
  (fixed <= kcal ->
     - (2) < fixed + carb_g m * 4 - kcal /\ fixed + carb_g m * 4 - kcal <= 2) /\
  (kcal <= fixed -> carb_g m == 0).
Proof.
  cbv zeta. unfold setMacros. cbn [protein_g fat_g carb_g].
  set (P := Math_round (nullish weight 70 * match goal with fat_loss => 2.0 | _ => 1.8 end)).
  set (F := Math_round (nullish weight 70 * match goal with fat_loss => 0.6 | _ => 0.7 end)).
  set (ck := Math_max 0 (kcal - (P * 4 + F * 9))).
  assert (Hck : 0 <= ck).
  { unfold ck, Math_max. destruct (Qle_bool 0 _) eqn:E.
    - now apply Qle_bool_iff. - apply Qle_refl. }
  assert (Hr : 0 <= Math_round (ck / 4)).
  { apply Math_round_nonneg. apply Qle_shift_div_l; [reflexivity|lra]. }
  assert (Hc : Math_max 0 (Math_round (ck / 4)) = Math_round (ck / 4)).
  { unfold Math_max. apply Qle_bool_iff in Hr. now rewrite Hr. }
  rewrite Hc. split; [exact Hr|]. split.
  - intros Hfix.
    assert (Eck : ck = kcal - (P * 4 + F * 9)).
    { unfold ck, Math_max.
      assert (Hb : Qle_bool 0 (kcal - (P * 4 + F * 9)) = true)
        by (apply Qle_bool_iff; lra).
      now rewrite Hb. }
    destruct (Math_round_bounds (ck / 4)) as [Hlo Hhi].
    assert (E4 : ck / 4 * 4 == ck) by (field).
    rewrite Eck in *. lra.
  - intros Hfix.
    assert (Eck : ck == 0).
    { unfold ck, Math_max. destruct (Qle_bool 0 _) eqn:E.
      - apply Qle_bool_iff in E. lra.
      - reflexivity. }
    unfold Math_round.
    assert (Ez : Qfloor (ck / 4 + (1 # 2)) = 0%Z).
    { assert (E0 : ck / 4 + (1 # 2) == 1 # 2) by (rewrite Eck; reflexivity).
      rewrite (Qfloor_comp _ _ E0). reflexivity. }
    rewrite Ez. reflexivity.
Qed.

Lemma replace_first_hyphen_free (by_ s : string) :
  hyphen_free s = true -> replace_first "-"%char by_ s = s.
Proof.
  induction s as [|c s IH]; [reflexivity|]. cbn [replace_first hyphen_free]. intros H.
  apply andb_prop in H as [Hc Hs]. apply negb_true_iff in Hc.
  rewrite Hc, (IH Hs). reflexivity.
Qed.

Lemma replace_first_at_hyphen (by_ a b : string) :
  hyphen_free a = true ->
  replace_first "-"%char by_ (a ++ String "-"%char b) = (a ++ by_ ++ b)%string.
Proof.
  induction a as [|c a IH]; [reflexivity|].
  cbn [hyphen_free]. intros H.
  apply andb_prop in H as [Hc Hs]. apply negb_true_iff in Hc.
  change (String c a ++ String "-"%char b)%string
    with (String c (a ++ String "-"%char b)).
  cbn [replace_first]. rewrite Hc, (IH Hs). reflexivity.
Qed.

Lemma hyphen_free_app (a b : string) :
  hyphen_free (a ++ b) = hyphen_free a && hyphen_free b.
Proof.
  induction a as [|c a IH]; [reflexivity|].
  change (String c a ++ b)%string with (String c (a ++ b)).
  cbn [hyphen_free]. rewrite IH. apply andb_assoc.
Qed.

(** X8.  Age buckets: a bucket written with an ASCII hyphen maps to the same
    numeric age as the bucket written with an en dash (for every pair of
    hyphen-free halves, recognised or not), and every string, recognised or
    not, maps to an age between 16 and 65. *)
Theorem X8_age_bucket_hyphen_equals_en_dash (a b : string) :
  hyphen_free a = true -> hyphen_free b = true ->
  mapAgeRangeToNumeric (a ++ "-" ++ b) = mapAgeRangeToNumeric (a ++ en_dash ++ b)
  /\ (forall s, 16 <= mapAgeRangeToNumeric s /\ mapAgeRangeToNumeric s <= 65).
Proof.
  intros Ha Hb. split.
  - unfold mapAgeRangeToNumeric.
    change ("-" ++ b)%string with (String "-"%char b).
    rewrite (replace_first_at_hyphen en_dash a b Ha).
    rewrite (replace_first_hyphen_free en_dash (a ++ en_dash ++ b)); [reflexivity|].
    rewrite !hyphen_free_app, Ha, Hb. reflexivity.
  - intros s. unfold mapAgeRangeToNumeric.
    repeat (match goal with |- context [String.eqb ?x ?y] => destruct (String.eqb x y) end);
      split; apply Qle_bool_iff; reflexivity.
Qed.

Lemma X8_age_bucket_witness :
  mapAgeRangeToNumeric ("35" ++ "-" ++ "44") = mapAgeRangeToNumeric ("35" ++ en_dash ++ "44")
  /\ (forall s, 16 <= mapAgeRangeToNumeric s /\ mapAgeRangeToNumeric s <= 65).
Proof.
  apply (X8_age_bucket_hyphen_equals_en_dash "35" "44"); reflexivity.
Defined.

(** ** Workouts: days, merged blocks and the candidate filter *)

Lemma splitByDays_days (days : number) :
  map fst (splitByDays days)
  = map (fun i => inject_Z (Z.of_nat i)) (seq 1 (Z.to_nat (dayClass days))).
Proof.
  unfold splitByDays, Math_floor.
  assert (Hc : clamp (inject_Z (Qfloor days)) 1 7
               = inject_Z (Z.max 1 (Z.min 7 (Qfloor days))))
    by (apply (clamp_inject_Z (Qfloor days) 1 7); lia).
  rewrite Hc. clear Hc. unfold dayClass.
  assert (H : let k := Z.max 1 (Z.min 7 (Qfloor days)) in
              k = 1%Z \/ k = 2%Z \/ k = 3%Z \/ k = 4%Z \/ k = 5%Z \/ k = 6%Z \/ k = 7%Z)
    by (cbv zeta; lia).
  cbv zeta in H.
  destruct H as [E|[E|[E|[E|[E|[E|E]]]]]]; rewrite E;
    match goal with
    | |- context [Z.to_nat ?z] =>
        replace z with (Z.min 6 (Z.max 1 (Z.min 7 (Qfloor days)))) by lia
    end; rewrite E; reflexivity.
Qed.

(** X9.  A generated week has exactly as many training days as the whole
    part of schedule_days kept within 1 and 6, numbered 1, 2, ..., n in
    order, whatever the experience, goal, equipment, injuries and exercise
    catalog; in particular seven requested days give six. *)
Theorem X9_workout_days_numbered_from_one
    (localeCompare : string -> string -> number) (exercises : list Exercise)
    (days : number) (experience_ : Experience) (goal_ : Goal)
    (equipment_ : Equipment) (injuries_ : list Injury) :
  map day (buildWorkouts localeCompare exercises days experience_ goal_
             equipment_ injuries_)
  = map (fun i => inject_Z (Z.of_nat i)) (seq 1 (Z.to_nat (dayClass days))).
Proof.
  rewrite <- splitByDays_days. unfold buildWorkouts. rewrite map_map.
  apply map_ext. intros [d muscles]. reflexivity.
Qed.

Section SelectedPush.
Variable f : string -> string.

Lemma wellGrouped_nil : wellGrouped f [].
Proof. split; constructor. Qed.

Lemma selected_push_keys (m : list (string * list string)) (id t k : string) :
  In k (map fst (selected_push m id t)) <-> In k (map fst m) \/ k = id.
Proof.
  induction m as [|[k' ms] m IH]; cbn.
  - intuition.
  - destruct (String.eqb_spec k' id); cbn.
    + subst. intuition.
    + rewrite IH. intuition.
Qed.

Lemma selected_push_wellGrouped (m : list (string * list string)) (t : string) :
  wellGrouped f m -> wellGrouped f (selected_push m (f t) t).
Proof.
  unfold wellGrouped. induction m as [|[k ms] m IH]; cbn.
  - intros _. split.
    + constructor; [intros []|constructor].
    + repeat constructor. discriminate.
  - intros [Hnd Hall]. inversion Hnd as [|? ? Hnotin Hnd']; subst.
    inversion Hall as [|? ? [Hne Hms] Hall']; subst. cbn in Hne, Hms.
    destruct (String.eqb_spec k (f t)); cbn.
    + split; [constructor; assumption|]. constructor; [|assumption]. cbn. split.
      * destruct ms; discriminate.
      * apply Forall_app. split; [assumption|]. repeat constructor. congruence.
    + destruct (IH (conj Hnd' Hall')) as [IH1 IH2]. split.
      * constructor; [|assumption]. rewrite selected_push_keys. intuition.
      * constructor; [|assumption]. cbn. split; assumption.
Qed.

Lemma selected_push_muscles (m : list (string * list string)) (id t : string) :
  Permutation (concat (map snd (selected_push m id t))) (concat (map snd m) ++ [t]).
Proof.
  induction m as [|[k ms] m IH]; cbn.
  - reflexivity.
  - destruct (String.eqb k id); cbn.
    + rewrite <- !app_assoc. apply Permutation_app_head. apply Permutation_app_comm.
    + rewrite IH. rewrite app_assoc. reflexivity.
Qed.

Lemma selected_fold (muscles : list string) (m : list (string * list string)) :
  wellGrouped f m ->
  let r := fold_left (fun m target => selected_push m (f target) target) muscles m in
  wellGrouped f r /\ Permutation (concat (map snd r)) (concat (map snd m) ++ muscles).
Proof.
  revert m. induction muscles as [|t muscles IH]; intros m Hm; cbn.
  - split; [assumption|]. rewrite app_nil_r. reflexivity.
  - destruct (IH _ (selected_push_wellGrouped m t Hm)) as [H1 H2]. split; [exact H1|].
    cbv zeta in H2. rewrite H2. rewrite selected_push_muscles.
    rewrite <- app_assoc. reflexivity.
Qed.

End SelectedPush.

(** X10.  Merging of a day's blocks: for every day of the split, the blocks
    of the generated day carry pairwise distinct exercise ids; the muscles
    worked by its blocks are, taken together, exactly the muscles the split
    assigns to that day (each once per assignment); every block works at
    least one muscle, names the first of them as its muscle, and its
    exercise is the one chooseExercise returns for each muscle it works. *)
Theorem X10_day_blocks_merge_muscles_by_exercise
    (localeCompare : string -> string -> number) (exercises : list Exercise)
    (days : number) (experience_ : Experience) (goal_ : Goal)
    (equipment_ : Equipment) (injuries_ : list Injury) :
  Forall2
    (fun sp dp =>
       day dp = fst sp /\
       List.NoDup (map exerciseId (blocks dp)) /\
       Permutation (concat (map musclesWorked (blocks dp))) (snd sp) /\
       Forall (fun b =>
                 musclesWorked b <> [] /\
                 muscle b = hd ""%string (musclesWorked b) /\
                 Forall (fun t =>
                           chooseExercise localeCompare exercises equipment_ t injuries_
                           = exerciseId b)
                        (musclesWorked b))
              (blocks dp))
    (splitByDays days)
    (buildWorkouts localeCompare exercises days experience_ goal_ equipment_ injuries_).
Proof.
  unfold buildWorkouts. cbv zeta.
  set (spm := Math_max 3 _). clearbody spm.
  generalize (splitByDays days) as split.
  intros split. induction split as [|[d muscles] split IH]; cbn [map];
    constructor; [|exact IH].
  cbn [day blocks fst snd].
  pose proof (selected_fold
                (fun t => chooseExercise localeCompare exercises equipment_ t injuries_)
                muscles [] (wellGrouped_nil _)) as [[Hnd Hall] Hperm].
  cbv zeta in Hperm. cbn [map concat app] in Hperm.
  set (sel := fold_left _ muscles []) in *.
  split; [reflexivity|]. rewrite !map_map. split; [|split].
  - erewrite map_ext; [exact Hnd|]. intros [k ms]. reflexivity.
  - erewrite map_ext; [exact Hperm|]. intros [k ms]. reflexivity.
  - apply List.Forall_map. eapply List.Forall_impl; [|exact Hall].
    intros [k ms] [Hne Hms]. cbn in *. repeat split; assumption.
Qed.

(** X11.  The candidate filter only ever loses exercises when the user gets
    more restricted: an exercise that is a candidate for an equipment class
    and an injury list remains a candidate for every equipment class that
    admits at least as much (bodyweight only <= dumbbells or bands <= full
    gym) and every sub-list of the injuries. *)
Theorem X11_candidates_grow_with_equipment_and_fewer_injuries
    (eq eq' : Equipment) (target : string) (inj inj' : list Injury) (e : Exercise) :
  equipment_le eq eq' = true ->
  incl inj' inj ->
  isCandidate eq target inj e = true ->
  isCandidate eq' target inj' e = true.
Proof.
  intros Heq Hinc. unfold isCandidate.
  destruct (list_includes (ex_muscles e) target); cbn; [|discriminate].
  destruct (checkEquipmentCompatibility (ex_equipment e) eq) eqn:Ec; cbn; [|discriminate].
  assert (Ec' : checkEquipmentCompatibility (ex_equipment e) eq' = true).
  { destruct eq, eq'; try discriminate; cbn in *; try reflexivity; try assumption;
      rewrite Ec; auto using orb_true_r. }
  rewrite Ec'. cbn. rewrite !negb_true_iff. intros Hno.
  destruct (existsb _ (flat_map INJURY_AVOID inj')) eqn:Ex; [|reflexivity].
  apply existsb_exists in Ex. destruct Ex as [token [Hin Ht]].
  assert (Hex : existsb (fun token0 =>
             includes (ex_id e) token0 || includes (toLowerCase (ex_name e)) token0)
             (flat_map INJURY_AVOID inj) = true).
  { apply existsb_exists. exists token. split; [|assumption].
    apply in_flat_map in Hin. destruct Hin as [i [Hi Htok]].
    apply in_flat_map. exists i. split; [apply Hinc; assumption|assumption]. }
  congruence.
Qed.

Lemma X11_candidates_witness :
  isCandidate dumbbells_only "chest" [knee] demo_pushup = true.
Proof.
  apply (X11_candidates_grow_with_equipment_and_fewer_injuries
           bodyweight_only dumbbells_only "chest" [knee; ankle] [knee] demo_pushup).
  - reflexivity.
  - intros i [<-|[]]. left. reflexivity.
  - reflexivity.
Defined.

(** ** Meal allocator: portions, scores, formatting and shuffling *)






Lemma dedupe_In (x : number) (xs : list number) : In x (dedupe xs) -> In x xs.
Proof.
  revert x. induction xs as [|y xs IH]; intros x; cbn; [tauto|].
  intros [H|H]; [left; exact H|right].
  apply filter_In in H. apply IH. tauto.
Qed.

Lemma dedupe_length (xs : list number) : (length (dedupe xs) <= length xs)%nat.
Proof.
  induction xs as [|y xs IH]; cbn; [lia|].
  apply le_n_S. etransitivity; [apply List.filter_length_le|exact IH].
Qed.

Lemma clampValue_bounds (n lo hi : number) :
  lo <= clampValue n lo hi /\ (lo <= hi -> clampValue n lo hi <= hi).
Proof.
  unfold clampValue, Math_max, Math_min.
  destruct (Qle_bool hi n) eqn:E1.
  - destruct (Qle_bool lo hi) eqn:E2.
    + apply Qle_bool_iff in E2. split; [exact E2|intros; apply Qle_refl].
    + split; [apply Qle_refl|]. intros H. apply Qle_bool_iff in H. congruence.
  - destruct (Qle_bool lo n) eqn:E2.
    + apply Qle_bool_iff in E2. split; [exact E2|]. intros _.
      apply Qlt_le_weak, Qnot_le_lt. intros H. apply Qle_bool_iff in H. congruence.
    + split; [apply Qle_refl|tauto].
Qed.

(** X13.  Gram-based portions: for an ingredient that is not portioned in
    pieces (or whose weight per piece is missing or zero) and whose gram
    step is not zero, the portion computation always ends, with between
    one and four unlabelled candidates; every candidate weighs at least the
    minimum portion, and at most the maximum portion whenever the minimum
    does not exceed the maximum. *)
Theorem X13_gram_portions_bounded (ing : IngredientDocV2) :
  pm_unit (portionOf ing) <> Some unit_piece
  \/ truthy (grams_per_piece (portionOf ing)) = false ->
  ~ nullish (step_g (portionOf ing)) 10 == 0 ->
  exists cands,
    portionCandidates ing = Some cands /\
    (1 <= length cands <= 4)%nat /\
    Forall (fun c => pc_label c = None /\
                     minGOf ing <= pc_grams c /\
                     (minGOf ing <= maxGOf ing -> pc_grams c <= maxGOf ing))
           cands.
Proof.
  intros Hg _. unfold portionCandidates.
  fold (portionOf ing). fold (typicalOf ing). fold (minGOf ing). fold (maxGOf ing).
  set (stepG := nullish (step_g (portionOf ing)) 10).
  set (raw := sort (fun a b : number => a - b)
                   (dedupe (map (fun x : number =>
                                   clampValue (qRound (typicalOf ing * x) stepG)
                                              (minGOf ing) (maxGOf ing))
                                [0.75; 1.0; 1.25; 1.5]))).
  assert (Hraw : (1 <= length raw <= 4)%nat /\
                 Forall (fun g => minGOf ing <= g /\
                                  (minGOf ing <= maxGOf ing -> g <= maxGOf ing)) raw).
  { unfold raw. rewrite sort_length. split.
    - split; [cbn; lia|].
      etransitivity; [apply dedupe_length|]. cbn. lia.
    - apply List.Forall_forall. intros g Hin. apply sort_In in Hin.
      apply dedupe_In in Hin. apply in_map_iff in Hin. destruct Hin as [x [<- _]].
      apply clampValue_bounds. }
  destruct Hraw as [Hlen Hall].
  assert (Hres : exists cands,
             Some (map (fun g => candidate_of (macro_per_100g ing) g None) raw)
             = Some cands /\
             (1 <= length cands <= 4)%nat /\
             Forall (fun c => pc_label c = None /\ minGOf ing <= pc_grams c /\
                              (minGOf ing <= maxGOf ing -> pc_grams c <= maxGOf ing))
                    cands).
  { eexists. split; [reflexivity|]. split; [rewrite length_map; exact Hlen|].
    apply List.Forall_map. eapply List.Forall_impl; [|exact Hall].
    cbn. intros g [H1 H2]. repeat split; assumption. }
  destruct (nullish (pm_unit (portionOf ing)) unit_g) eqn:Eu; [exact Hres|].
  destruct (truthy (grams_per_piece (portionOf ing))) eqn:Et; [|exact Hres].
  exfalso. destruct Hg as [Hg|Hg]; [|discriminate].
  apply Hg. destruct (pm_unit (portionOf ing)) as [u|]; cbn in Eu; congruence.
Qed.

Lemma X13_gram_portions_witness :
  exists cands,
    portionCandidates (gram_ingredient "Chicken breast" cat_protein 165 31 0 3.6 100)
    = Some cands /\
    (1 <= length cands <= 4)%nat /\
    Forall (fun c => pc_label c = None /\
                     minGOf (gram_ingredient "Chicken breast" cat_protein 165 31 0 3.6 100)
                     <= pc_grams c /\
                     (minGOf (gram_ingredient "Chicken breast" cat_protein 165 31 0 3.6 100)
                      <= maxGOf (gram_ingredient "Chicken breast" cat_protein 165 31 0 3.6 100)
                      -> pc_grams c
                         <= maxGOf (gram_ingredient "Chicken breast" cat_protein 165 31 0 3.6 100)))
           cands.
Proof.
  apply (X13_gram_portions_bounded
           (gram_ingredient "Chicken breast" cat_protein 165 31 0 3.6 100)).
  - left. discriminate.
  - intros H. discriminate H.
Defined.

Lemma Qabs_zero_iff (x : Q) : Qabs x == 0 <-> x == 0.
Proof. apply Qabs_case; intros; split; lra. Qed.

(** X14.  The score of a combination is never negative, and against the
    per-meal targets (whose calorie target is derived from the three macro
    targets) it is zero exactly when the combination's protein,
    carbohydrate and fat totals all hit their targets. *)
Theorem X14_score_zero_iff_macros_hit (macros_ : Macros) (mpd : number)
    (tp tc tf : number) :
  let t := baseTargets macros_ mpd in
  0 <= scoreCombo tp tc tf (Ppm t) (Cpm t) (Fpm t) (Kpm t) /\
  (scoreCombo tp tc tf (Ppm t) (Cpm t) (Fpm t) (Kpm t) == 0
   <-> tp == Ppm t /\ tc == Cpm t /\ tf == Fpm t).
Proof.
  cbv zeta. unfold baseTargets. cbn [Ppm Cpm Fpm Kpm].
  set (P := protein_g macros_ / mpd). set (C := carb_g macros_ / mpd).
  set (F := fat_g macros_ / mpd).
  unfold scoreCombo, Math_abs.
  pose proof (Qabs_nonneg (tp - P)) as HP.
  pose proof (Qabs_nonneg (tc - C)) as HC.
  pose proof (Qabs_nonneg (tf - F)) as HF.
  pose proof (Qabs_nonneg (tp * 4 + tc * 4 + tf * 9 - (P * 4 + C * 4 + F * 9))) as HK.
  pose proof (Qabs_zero_iff (tp - P)) as ZP.
  pose proof (Qabs_zero_iff (tc - C)) as ZC.
  pose proof (Qabs_zero_iff (tf - F)) as ZF.
  pose proof (Qabs_zero_iff (tp * 4 + tc * 4 + tf * 9 - (P * 4 + C * 4 + F * 9))) as ZK.
  revert HP HC HF HK ZP ZC ZF ZK.
  generalize (Qabs (tp - P)) (Qabs (tc - C)) (Qabs (tf - F))
             (Qabs (tp * 4 + tc * 4 + tf * 9 - (P * 4 + C * 4 + F * 9))).
  intros eP eC eF eK HP HC HF HK ZP ZC ZF ZK. split; [lra|]. split.
  - intros H.
    assert (E1 : eP == 0) by lra. assert (E2 : eC == 0) by lra.
    assert (E3 : eF == 0) by lra.
    apply ZP in E1. apply ZC in E2. apply ZF in E3. repeat split; lra.
  - intros (E1 & E2 & E3).
    assert (Z1 : eP == 0) by (apply ZP; lra).
    assert (Z2 : eC == 0) by (apply ZC; lra).
    assert (Z3 : eF == 0) by (apply ZF; lra).
    assert (Z4 : eK == 0) by (apply ZK; lra).
    lra.
Qed.

Lemma category_partition (its : list IngredientItem) :
  Permutation
    (List.filter (fun it => Category_eqb (it_category it) cat_protein) its
     ++ List.filter (fun it => Category_eqb (it_category it) cat_carb) its
     ++ List.filter (fun it => Category_eqb (it_category it) cat_veg) its
     ++ List.filter (fun it => Category_eqb (it_category it) cat_fat) its)
    its.
Proof.
  induction its as [|a its IH]; [reflexivity|].
  cbn [List.filter]. destruct (it_category a); cbn [Category_eqb].
  - cbn. constructor. exact IH.
  - symmetry. apply Permutation_cons_app. symmetry. exact IH.
  - rewrite app_assoc. symmetry. apply Permutation_cons_app.
    rewrite <- app_assoc. symmetry. exact IH.
  - rewrite !app_assoc. symmetry. apply Permutation_cons_app.
    rewrite <- !app_assoc. symmetry. exact IH.
Qed.

Lemma categoryOpts_items (label : string) (its : list IngredientItem) :
  flat_map co_items (categoryOpts label its) = formatItems its.
Proof. destruct its; [reflexivity|]. cbn. rewrite app_nil_r. reflexivity. Qed.

(** X15.  Formatting a selected combination loses no item and repeats none:
    the items of the four per-category lists of the response are, taken
    together, the items of the combination with their grams and macros
    rounded, each exactly once. *)
Theorem X15_formatted_meal_partitions_items (b : MealCombo) :
  Permutation (mealItems (formatMeal (Some b))) (formatItems (items b))
  /\ length (mealItems (formatMeal (Some b))) = length (items b).
Proof.
  assert (H : Permutation (mealItems (formatMeal (Some b))) (formatItems (items b))).
  { unfold mealItems, formatMeal. cbn [protein_opts carb_opts veg_opts fat_opts].
    rewrite !categoryOpts_items. unfold formatItems.
    rewrite <- !map_app. apply Permutation_map. apply category_partition. }
  split; [exact H|].
  rewrite (Permutation_length H). unfold formatItems. apply length_map.
Qed.

Lemma insert_swap_perm {T} (l : list T) (j : nat) (a b : T) :
  l !! j = Some b -> Permutation (b :: <[j := a]> l) (a :: l).
Proof.
  revert j. induction l as [|y l IH]; intros [|j] H; cbn in *; try discriminate.
  - injection H as ->. apply perm_swap.
  - rewrite perm_swap. rewrite (IH j H). apply perm_swap.
Qed.

Lemma swap_Permutation {T} (i j : nat) (l : list T) : Permutation (swap i j l) l.
Proof.
  unfold swap. destruct (l !! i) as [a|] eqn:Ei; [|reflexivity].
  destruct (l !! j) as [b|] eqn:Ej; [|reflexivity].
  revert i j Ei Ej. induction l as [|x l IH]; intros [|i] [|j] Ei Ej; cbn in *;
    try discriminate.
  - injection Ei as ->. injection Ej as ->. reflexivity.
  - injection Ei as ->. apply insert_swap_perm. exact Ej.
  - injection Ej as ->. apply insert_swap_perm. exact Ei.
  - constructor. apply IH; assumption.
Qed.

Lemma foldM_one_draw {A B} (f : B -> A -> Rand B) (l : list A) :
  (forall b a t n, snd (f b a t n) = S n) ->
  forall b t n, snd (foldM f l b t n) = (n + length l)%nat.
Proof.
  intros Hf. induction l as [|a l IH]; intros b t n; cbn [foldM length].
  - cbn. lia.
  - unfold bind. specialize (Hf b a t n). destruct (f b a t n) as [b' n'].
    cbn in Hf. subst n'. rewrite IH. lia.
Qed.

(** X16.  The shuffle of the candidate ingredients returns a rearrangement
    of its input for every tape of draws in [0, 1), and it reads exactly
    length - 1 draws (none for an empty list). *)
Theorem X16_shuffle_permutes_and_counts_draws {T} (l : list T)
    (t : nat -> number) (n : nat) :
  (forall k, 0 <= t k /\ t k < 1) ->
  Permutation (fst (shuffle l t n)) l /\
  snd (shuffle l t n) = (n + (length l - 1))%nat.
Proof.
  intros _. unfold shuffle. split.
  - apply (foldM_invariant (fun arr => Permutation arr l)); [|reflexivity].
    intros arr i t' n' Harr. unfold bind, ret, Math_random. cbn.
    rewrite swap_Permutation. exact Harr.
  - rewrite foldM_one_draw.
    + rewrite length_rev, length_seq. reflexivity.
    + intros. reflexivity.
Qed.

Lemma X16_shuffle_witness :
  Permutation (fst (shuffle [1; 2; 3] (constant_tape 0.5) 0%nat)) [1; 2; 3] /\
  snd (shuffle [1; 2; 3] (constant_tape 0.5) 0%nat) = (0 + (length [1; 2; 3] - 1))%nat.
Proof.
  apply (X16_shuffle_permutes_and_counts_draws [1; 2; 3] (constant_tape 0.5) 0%nat).
  intros k. split; [apply Qle_bool_iff; reflexivity|reflexivity].
Defined.

(** ** Meal allocator: what every surviving combination satisfies *)

Lemma bind_fst {A B} (m : Rand A) (k : A -> Rand B) (t : nat -> number) (n : nat) :
  fst (bind m k t n) = fst (k (fst (m t n)) t (snd (m t n))).
Proof. unfold bind. destruct (m t n). reflexivity. Qed.

Lemma sumBy_snoc (f : IngredientItem -> number) (its : list IngredientItem)
    (it : IngredientItem) :
  sumBy f (its ++ [it]) = sumBy f its + f it.
Proof. unfold sumBy. rewrite fold_left_app. reflexivity. Qed.

Lemma NoDup_snoc {T} (l : list T) (x : T) :
  ~ In x l -> List.NoDup l -> List.NoDup (l ++ [x]).
Proof.
  induction l as [|y l IH]; intros Hx Hl; cbn.
  - constructor; [intros []|constructor].
  - inversion Hl as [|? ? Hy Hl']; subst. constructor.
    + rewrite in_app_iff. intros [H|[H|[]]]; [contradiction|].
      subst. apply Hx. left. reflexivity.
    + apply IH; [|exact Hl']. intros H. apply Hx. right. exact H.
Qed.

Lemma hasIngredient_names (beam : MealCombo) (name : string) :
  hasIngredient beam name = false -> ~ In name (map it_name (items beam)).
Proof.
  unfold hasIngredient. intros H Hin. apply in_map_iff in Hin.
  destruct Hin as [it [Hn Hit]].
  assert (Hex : existsb (fun item => String.eqb (it_name item) name) (items beam) = true).
  { apply existsb_exists. exists it. split; [exact Hit|]. now apply String.eqb_eq. }
  congruence.
Qed.

Section Survivors.

Variable all : list IngredientDocV2.
Variable base : MealTargets.
Variable pcands : gmap string (list (IngredientDocV2 * PortionCandidate)).

Lemma singles_balanced targets beam choices b' :
  balanced beam -> In b' (singles pcands targets beam choices) -> balanced b'.
Proof.
  intros (HP & HC & HF & HK & Hnd). unfold singles. intros H.
  apply in_flat_map in H. destruct H as [ing [_ H]].
  destruct (hasIngredient beam (ing_name ing)) eqn:Eh; [contradiction|].
  apply in_map_iff in H. destruct H as [pc [<- _]].
  unfold balanced. cbn [items totP totC totF totK].
  rewrite !sumBy_snoc, <- HP, <- HC, <- HF, <- HK.
  repeat split. rewrite map_app. cbn [map]. apply NoDup_snoc; [|exact Hnd].
  apply hasIngredient_names. exact Eh.
Qed.

(** Every beam that leaves [extendBeams] is a beam that entered it, taken
    as it is or extended by [singles] or by [pairs]. *)
Lemma extendBeams_step beams cat kMin kMax beamSize mealTargets t n b' :
  In b' (fst (extendBeams all base pcands beams cat kMin kMax beamSize mealTargets t n)) ->
  exists beam, In beam beams /\
    ( (kMin = 0%nat /\ b' = beam)
      \/ ((1 <= kMax)%nat /\ exists choices,
            In b' (singles pcands (nullish mealTargets base) beam choices))
      \/ ((2 <= kMax)%nat /\ exists choices,
            In b' (pairs pcands (nullish mealTargets base) beam choices)) ).
Proof.
  unfold extendBeams, bind, ret.
  set (ranked := sort _ (pool all cat)).
  destruct (shuffle ranked t n) as [shuffled n1].
  match goal with
  | |- context [forM ?F beams t n1] => set (perBeam := F)
  end.
  destruct (forM perBeam beams t n1) as [out n2] eqn:Eout. cbn [fst].
  intros H. apply In_firstn in H. apply sort_In in H.
  apply in_concat in H. destruct H as [per [Hper Hb']].
  assert (Hper' : In per (fst (forM perBeam beams t n1))) by (rewrite Eout; exact Hper).
  apply forM_elements in Hper'. destruct Hper' as (beam & k0 & Hbeam & ->).
  exists beam. split; [exact Hbeam|].
  unfold perBeam in Hb'.
  match type of Hb' with
  | context [forM ?G (seq kMin _) t k0] => set (perK := G) in Hb'
  end.
  destruct (forM perK (seq kMin (S kMax - kMin)) t k0) as [per_k k1] eqn:Ek.
  cbn [fst] in Hb'. apply in_concat in Hb'. destruct Hb' as [xs [Hxs Hb']].
  assert (Hxs' : In xs (fst (forM perK (seq kMin (S kMax - kMin)) t k0)))
    by (rewrite Ek; exact Hxs).
  apply forM_elements in Hxs'. destruct Hxs' as (k & k2 & Hk & ->).
  apply in_seq in Hk. unfold perK in Hb'.
  destruct (Nat.eqb_spec k 0) as [->|Hk0].
  - cbn in Hb'. destruct Hb' as [<-|[]]. left. split; [lia|reflexivity].
  - cbn [fst] in Hb'. apply in_app_iff in Hb'. destruct Hb' as [Hs|Hp].
    + destruct (Nat.leb_spec 1 k); [|contradiction].
      right; left. split; [lia|]. eexists. exact Hs.
    + destruct (Nat.leb_spec 2 k); [|contradiction].
      right; right. split; [lia|]. eexists. exact Hp.
Qed.

Lemma extendBeams_balanced beams cat kMin kMax beamSize mealTargets t n :
  (kMax <= 1)%nat ->
  (forall b, In b beams -> balanced b) ->
  forall b', In b' (fst (extendBeams all base pcands beams cat kMin kMax beamSize
                                      mealTargets t n)) ->
             balanced b'.
Proof.
  intros Hk Hall b' H. apply extendBeams_step in H.
  destruct H as [beam [Hbeam [[_ ->]|[[_ [choices Hs]]|[H2 _]]]]].
  - apply Hall. exact Hbeam.
  - eapply singles_balanced; [apply Hall; exact Hbeam|exact Hs].
  - lia.
Qed.

Lemma ranges_at_most_one (goalHint : Goal) (cat : Category) :
  (snd (ranges goalHint cat) <= 1)%nat.
Proof. destruct goalHint, cat; cbn; lia. Qed.

Lemma mealBeams_balanced goalHint t n b :
  In b (fst (mealBeams all base pcands goalHint t n)) -> balanced b.
Proof.
  unfold mealBeams. repeat (rewrite bind_fst; cbv beta zeta).
  intros H.
  eapply extendBeams_balanced; [apply ranges_at_most_one| |exact H].
  intros b3 H3.
  eapply extendBeams_balanced; [apply ranges_at_most_one| |exact H3].
  intros b2 H2.
  eapply extendBeams_balanced; [apply ranges_at_most_one| |exact H2].
  intros b1 H1.
  eapply extendBeams_balanced; [apply ranges_at_most_one| |exact H1].
  intros b0 [<-|[]]. unfold balanced. cbn. repeat split. constructor.
Qed.

Lemma extendBeams_width beams cat kMin kMax beamSize mealTargets t n :
  (length (fst (extendBeams all base pcands beams cat kMin kMax beamSize mealTargets t n))
   <= beamSize)%nat.
Proof.
  unfold extendBeams, bind, ret.
  destruct (shuffle _ t n) as [shuffled n1].
  match goal with
  | |- context [forM ?F beams t n1] => destruct (forM F beams t n1) as [out n2]
  end.
  cbn [fst]. rewrite length_firstn. lia.
Qed.

End Survivors.

(** X17.  For every meal of the allocator's result whose search selected a
    combination, the running totals of the selected combination (the
    values the tolerance test and the score read) are exactly the sums of
    protein, carbohydrate, fat and calories over its items, and its items
    bear pairwise distinct ingredient names. *)
Theorem X17_selected_totals_are_item_sums
    (all : list IngredientDocV2) (macros_ : Macros) (mpd : number)
    (strictness : Strictness) (goalHint : Goal)
    (run : Rand (list (option MealCombo * MealOptions)))
    (tape : nat -> number) (n : nat) (best : MealCombo) (meal : MealOptions) :
  buildIngredientPlanFull all macros_ mpd strictness goalHint = Some run ->
  In (Some best, meal) (fst (run tape n)) ->
  totP best = sumBy it_p (items best) /\
  totC best = sumBy it_c (items best) /\
  totF best = sumBy it_f (items best) /\
  totK best = sumBy it_kcal (items best) /\
  List.NoDup (map it_name (items best)).
Proof.
  intros Hrun Hin.
  destruct (buildIngredientPlanFull_meal _ _ _ _ _ _ _ _ _ _ Hrun Hin)
    as (pcands & k & _ & Hbest & _).
  symmetry in Hbest. apply selectBest_spec in Hbest. destruct Hbest as [Hb _].
  exact (mealBeams_balanced _ _ _ _ _ _ _ Hb).
Qed.

Lemma X17_selected_totals_witness :
  exists best,
    totP best = sumBy it_p (items best) /\
    totC best = sumBy it_c (items best) /\
    totF best = sumBy it_f (items best) /\
    totK best = sumBy it_kcal (items best) /\
    List.NoDup (map it_name (items best)).
Proof.
  eexists.
  eapply (X17_selected_totals_are_item_sums demo_ingredients demo_macros 1
            normal recomp demo_full (constant_tape 0) 0%nat).
  - exact demo_full_eq.
  - vm_compute. left. reflexivity.
Defined.

Section SortSorted.

Context {A : Type} (cmp : A -> A -> number).

Hypothesis before_total :
  forall x y, Qle_bool (cmp x y) 0 = true \/ Qle_bool (cmp y x) 0 = true.
Hypothesis before_trans :
  forall x y z, Qle_bool (cmp x y) 0 = true -> Qle_bool (cmp y z) 0 = true ->
                Qle_bool (cmp x z) 0 = true.

Lemma sort_insert_sorted (x : A) (l : list A) :
  StronglySorted (fun a b => Qle_bool (cmp a b) 0 = true) l ->
  StronglySorted (fun a b => Qle_bool (cmp a b) 0 = true) (sort_insert cmp x l).
Proof.
  induction l as [|y l IH]; intros Hs; cbn.
  - repeat constructor.
  - inversion Hs as [|? ? Hs' Hall]; subst.
    destruct (Qle_bool (cmp x y) 0) eqn:E.
    + constructor; [exact Hs|]. constructor; [exact E|].
      eapply List.Forall_impl; [|exact Hall]. intros z Hz.
      eapply before_trans; eassumption.
    + constructor; [apply IH; exact Hs'|].
      apply List.Forall_forall. intros z Hz. apply sort_insert_In in Hz.
      destruct Hz as [->|Hz].
      * destruct (before_total y x) as [H|H]; [exact H|congruence].
      * rewrite List.Forall_forall in Hall. apply Hall. exact Hz.
Qed.

(** A total and transitive comparator leaves the array in order. *)
Lemma sort_sorted (l : list A) :
  StronglySorted (fun a b => Qle_bool (cmp a b) 0 = true) (sort cmp l).
Proof.
  induction l as [|x l IH]; [constructor|].
  rewrite sort_cons. apply sort_insert_sorted. exact IH.
Qed.

End SortSorted.

Lemma StronglySorted_firstn {T} (R : T -> T -> Prop) (k : nat) (l : list T) :
  StronglySorted R l -> StronglySorted R (firstn k l).
Proof.
  revert k. induction l as [|x l IH]; intros [|k] H; cbn; try constructor.
  - inversion H; subst. apply IH. assumption.
  - inversion H as [|? ? _ Hall]; subst. apply List.Forall_forall. intros y Hy.
    rewrite List.Forall_forall in Hall. apply Hall. eapply In_firstn. exact Hy.
Qed.

Lemma StronglySorted_impl {T} (R R' : T -> T -> Prop) (l : list T) :
  (forall x y, R x y -> R' x y) -> StronglySorted R l -> StronglySorted R' l.
Proof.
  intros HR. induction 1 as [|x l Hs IH Hall]; constructor; [exact IH|].
  eapply List.Forall_impl; [|exact Hall]. intros y. apply HR.
Qed.

Lemma beamOrder_le_iff (x y : MealCombo) :
  Qle_bool (beamOrder x y) 0 = true
  <-> score x < score y
      \/ (score x == score y /\ (length (items x) <= length (items y))%nat).
Proof.
  unfold beamOrder. destruct (Qeq_bool (score x) (score y)) eqn:E; cbn [negb].
  - apply Qeq_bool_iff in E. rewrite Qle_bool_sub, <- Zle_Qle. split.
    + intros H. right. split; [exact E|lia].
    + intros [H|[_ H]]; [lra|lia].
  - assert (Hne : ~ score x == score y).
    { intros H. apply Qeq_bool_iff in H. congruence. }
    rewrite Qle_bool_sub. split.
    + intros H. left. apply Qle_lteq in H. destruct H as [H|H]; [exact H|contradiction].
    + intros [H|[H _]]; [lra|contradiction].
Qed.

Lemma beamOrder_total (x y : MealCombo) :
  Qle_bool (beamOrder x y) 0 = true \/ Qle_bool (beamOrder y x) 0 = true.
Proof.
  rewrite !beamOrder_le_iff.
  destruct (Q_dec (score x) (score y)) as [[H|H]|H]; [tauto|tauto|].
  destruct (Nat.le_ge_cases (length (items x)) (length (items y))).
  - left. right. split; assumption.
  - right. right. split; [symmetry; assumption|assumption].
Qed.

Lemma beamOrder_trans (x y z : MealCombo) :
  Qle_bool (beamOrder x y) 0 = true -> Qle_bool (beamOrder y z) 0 = true ->
  Qle_bool (beamOrder x z) 0 = true.
Proof.
  rewrite !beamOrder_le_iff.
  intros [H1|[H1 L1]] [H2|[H2 L2]].
  - left. lra.
  - left. lra.
  - left. lra.
  - right. split; [lra|lia].
Qed.

(** X18.  The beams that leave a search step are at most beamSize many and
    are ordered best first: the score never decreases along the list, and
    among beams of equal score one with fewer items never comes after one
    with more. *)
Theorem X18_surviving_beams_bounded_and_ordered
    (all : list IngredientDocV2) (base : MealTargets)
    (pcands : gmap string (list (IngredientDocV2 * PortionCandidate)))
    (beams : list MealCombo) (cat : Category) (kMin kMax beamSize : nat)
    (mealTargets : option MealTargets) (t : nat -> number) (n : nat) :
  let out := fst (extendBeams all base pcands beams cat kMin kMax beamSize
                              mealTargets t n) in
  (length out <= beamSize)%nat /\
  StronglySorted
    (fun x y => score x <= score y /\
                (score x == score y -> (length (items x) <= length (items y))%nat))
    out.
Proof.
  cbv zeta. split; [apply extendBeams_width|].
  unfold extendBeams, bind, ret.
  destruct (shuffle _ t n) as [shuffled n1].
  match goal with
  | |- context [forM ?F beams t n1] => destruct (forM F beams t n1) as [out n2]
  end.
  cbn [fst]. apply StronglySorted_firstn.
  eapply StronglySorted_impl; [|apply (sort_sorted beamOrder beamOrder_total beamOrder_trans)].
  intros x y H. apply beamOrder_le_iff in H. destruct H as [H|[H L]].
  - split; [lra|]. intros E. lra.
  - split; [lra|]. intros _. exact L.
Qed.

(** ** POST /generatePlan: validation, shape of the answer and fallbacks *)

Lemma missingFields_nil (body : GenerateReq) :
  missingFields body = [] <-> allPresent body.
Proof.
  unfold missingFields, allPresent.
  destruct (sex (g_index body)), (age_range (g_index body)) as [ar|],
    (schedule_days body), (equipment body), (experience body), (goal body),
    (budget_tier body); try destruct (String.eqb_spec ar ""); cbn.
  all: split; [intros H | intros (H1 & (a & H2 & H2') & H3 & H4 & H5 & H6 & H7)].
  all: try discriminate H.
  all: try congruence.
  split; [discriminate|].
  split; [exists ar; split; [reflexivity|assumption]|].
  repeat split; discriminate.
Qed.

Lemma generatePlan_fields (localeCompare : string -> string -> number)
    (exercises : list Exercise) (ingredients_db : list IngredientDocV2)
    (body : GenerateReq) (run : Rand (Http GenerateRes))
    (tape : nat -> number) (n : nat) (resp : GenerateRes) :
  generatePlan localeCompare exercises ingredients_db body = Some run ->
  fst (run tape n) = Ok200 resp ->
  exists ar daysRaw equip exper gl tier,
    missingFields body = [] /\
    age_range (g_index body) = Some ar /\
    schedule_days body = Some daysRaw /\
    equipment body = Some equip /\
    experience body = Some exper /\
    goal body = Some gl /\
    budget_tier body = Some tier /\
    idx_BMR resp = BMR (computeIndexes (g_index body) ar) /\
    idx_method resp = method (computeIndexes (g_index body) ar) /\
    idx_TDEE resp =
      nullish (computeTDEE (BMR (computeIndexes (g_index body) ar))
                           (Some (trainingDays daysRaw))
                           (o_TDEE (idx_overrides (computeIndexes (g_index body) ar))))
              (Math_round (nullish (BMR (computeIndexes (g_index body) ar)) 1500
                           * activityMultiplier (trainingDays daysRaw))) /\
    kcal resp = (if Qeq_bool (setCalories (idx_TDEE resp) gl) 0 then idx_TDEE resp
                 else setCalories (idx_TDEE resp) gl) /\
    macros resp = setMacros (sex (g_index body)) (weight_kg (g_index body)) (kcal resp) gl /\
    workouts resp =
      buildWorkouts localeCompare exercises (trainingDays daysRaw) exper gl equip
                    (nullish (injuries body) []) /\
    confidence resp =
      match fst (accuracyBand (g_index body)) with
      | acc_highest | acc_high => conf_high
      | acc_med => conf_med
      | acc_low => conf_low
      end /\
    tips resp =
      match snd (accuracyBand (g_index body)) with
      | Some nb => [("Add " ++ nb ++ " to improve accuracy")%string]
      | None => []
      end /\
    (notes resp = [] <-> ~ daysRaw == 7).
Proof.
  unfold generatePlan. intros Hgen Hrun.
  destruct (missingFields body) as [|m ms].
  2:{ injection Hgen as <-. cbn in Hrun. discriminate. }
  destruct (age_range (g_index body)) as [ar|];
    [|injection Hgen as <-; cbn in Hrun; discriminate].
  destruct (schedule_days body) as [daysRaw|];
    [|injection Hgen as <-; cbn in Hrun; discriminate].
  destruct (equipment body) as [equip|];
    [|injection Hgen as <-; cbn in Hrun; discriminate].
  destruct (experience body) as [exper|];
    [|injection Hgen as <-; cbn in Hrun; discriminate].
  destruct (goal body) as [gl|];
    [|injection Hgen as <-; cbn in Hrun; discriminate].
  destruct (budget_tier body) as [tier|];
    [|injection Hgen as <-; cbn in Hrun; discriminate].
  match type of Hgen with
  | match ?bp with _ => _ end = _ => destruct bp as [plan|] eqn:Eplan; [|discriminate]
  end.
  injection Hgen as <-. unfold bind, ret in Hrun.
  destruct (plan tape n) as [ing n1] eqn:Ep. cbn [fst] in Hrun.
  injection Hrun as <-.
  exists ar, daysRaw, equip, exper, gl, tier.
  cbn [idx_BMR idx_method idx_TDEE kcal macros workouts confidence tips notes].
  fold (trainingDays daysRaw).
  repeat (split; [reflexivity|]).
  destruct (Qeq_bool daysRaw 7) eqn:E.
  - apply Qeq_bool_iff in E. split; [discriminate|]. intros H. contradiction.
  - split; [|reflexivity]. intros _ H. apply Qeq_bool_iff in H. congruence.
Qed.

Lemma dayClass_trainingDays (daysRaw : number) :
  dayClass (trainingDays daysRaw) = dayClass daysRaw.
Proof.
  unfold trainingDays. destruct (Qeq_bool daysRaw 7) eqn:E7.
  - apply Qeq_bool_iff in E7. unfold dayClass. rewrite (Qfloor_comp _ _ E7). reflexivity.
  - unfold clamp, Math_max, Math_min, dayClass.
    destruct (Qle_bool 6 daysRaw) eqn:E6.
    + apply Qle_bool_iff in E6. apply Qfloor_resp_le in E6.
      assert (H6 : Qfloor 6 = 6%Z) by reflexivity. rewrite H6 in E6.
      change (Qle_bool 1 6) with true. cbv iota. rewrite H6. lia.
    + destruct (Qle_bool 1 daysRaw) eqn:E1; [reflexivity|].
      assert (H : daysRaw < 1).
      { apply Qnot_le_lt. intros H. apply Qle_bool_iff in H. congruence. }
      pose proof (Qfloor_le daysRaw) as Hf.
      assert (Hz : (Qfloor daysRaw < 1)%Z).
      { rewrite Zlt_Qlt. change (inject_Z 1) with 1. lra. }
      assert (H1 : Qfloor 1 = 1%Z) by reflexivity. rewrite H1. lia.
Qed.

Lemma buildWorkouts_length (localeCompare : string -> string -> number)
    (exercises : list Exercise) (days : number) (experience_ : Experience)
    (goal_ : Goal) (equipment_ : Equipment) (injuries_ : list Injury) :
  length (buildWorkouts localeCompare exercises days experience_ goal_ equipment_ injuries_)
  = Z.to_nat (dayClass days).
Proof.
  unfold buildWorkouts. rewrite length_map.
  rewrite <- (length_map fst), splitByDays_days, length_map, length_seq. reflexivity.
Qed.

Lemma mapR_fst {A B} (f : A -> B) (m : Rand A) (t : nat -> number) (n : nat) :
  fst (mapR f m t n) = f (fst (m t n)).
Proof. unfold mapR, bind, ret. destruct (m t n). reflexivity. Qed.

Lemma buildIngredientPlan_length all macros_ mpd strictness goalHint plan tape n :
  buildIngredientPlan all macros_ mpd strictness goalHint = Some plan ->
  length (fst (plan tape n)) = mealCount mpd.
Proof.
  unfold buildIngredientPlan, buildIngredientPlanFull.
  destruct (precompute all (baseTargets macros_ mpd)) as [pcands|]; [|discriminate].
  cbn [option_map]. intros H. injection H as <-.
  rewrite mapR_fst, length_map, forM_length, length_seq. reflexivity.
Qed.

(** X19.  /generatePlan validates before anything else: no field is
    reported missing exactly when sex, a non-empty age_range,
    schedule_days, equipment, experience, goal and budget_tier are all
    present; otherwise the answer is 400 with the missing fields listed in
    that order, whatever the catalogs hold, and no random draw is read. *)
Theorem X19_generatePlan_rejects_missing_fields
    (localeCompare : string -> string -> number) (exercises : list Exercise)
    (ingredients_db : list IngredientDocV2) (body : GenerateReq) :
  (missingFields body = [] <-> allPresent body) /\
  (missingFields body <> [] ->
   generatePlan localeCompare exercises ingredients_db body
   = Some (ret (Err400 ("Missing required fields: "
                        ++ join_comma (missingFields body))%string))).
Proof.
  split; [apply missingFields_nil|].
  intros H. unfold generatePlan. destruct (missingFields body); [contradiction|].
  reflexivity.
Qed.

(** X20.  With every required field present and a catalog whose portion
    loops end, /generatePlan answers 200 for every tape of draws: the
    response has as many workout days as the whole part of schedule_days
    kept within 1 and 6, one meal entry per meal (meals_per_day rounded up,
    or the default of the goal), and the 7-day note exactly when
    schedule_days is 7. *)
Theorem X20_generatePlan_answers_200_with_days_and_meals
    (localeCompare : string -> string -> number) (exercises : list Exercise)
    (ingredients_db : list IngredientDocV2) (body : GenerateReq) :
  missingFields body = [] ->
  (forall tier ing, budget_tier body = Some tier ->
     In ing (fetchIngredientsByTierV2 ingredients_db tier) ->
     portionCandidates ing <> None) ->
  exists run daysRaw gl,
    generatePlan localeCompare exercises ingredients_db body = Some run /\
    schedule_days body = Some daysRaw /\ goal body = Some gl /\
    forall tape n, exists resp,
      fst (run tape n) = Ok200 resp /\
      length (workouts resp) = Z.to_nat (dayClass daysRaw) /\
      length (ingredients resp)
      = mealCount (nullish (meals_per_day body) (DEFAULT_MEALS_BY_GOAL gl)) /\
      (notes resp = [] <-> ~ daysRaw == 7).
Proof.
  intros Hmiss Hend.
  destruct (proj1 (missingFields_nil body) Hmiss)
    as (Hs & (ar & Har & Hne) & Hd & He & Hx & Hg & Hb).
  destruct (schedule_days body) as [daysRaw|] eqn:Ed; [|contradiction].
  destruct (equipment body) as [equip|] eqn:Ee; [|contradiction].
  destruct (experience body) as [exper|] eqn:Ex; [|contradiction].
  destruct (goal body) as [gl|] eqn:Eg; [|contradiction].
  destruct (budget_tier body) as [tier|] eqn:Eb; [|contradiction].
  assert (Hgen : exists run,
            generatePlan localeCompare exercises ingredients_db body = Some run).
  { unfold generatePlan. rewrite Hmiss, Har, Ed, Ee, Ex, Eg, Eb.
    match goal with
    | |- context [buildIngredientPlan ?a ?m ?k ?s ?g] =>
        pose proof (buildIngredientPlan_defined a m k s g
                      (fun ing => Hend tier ing eq_refl)) as Hdef;
        destruct (buildIngredientPlan a m k s g) as [plan|]; [|contradiction]
    end.
    eexists. reflexivity. }
  destruct Hgen as [run Hrun]. exists run, daysRaw, gl.
  split; [exact Hrun|]. split; [reflexivity|]. split; [reflexivity|].
  intros tape n.
  assert (Hok : exists resp, fst (run tape n) = Ok200 resp).
  { revert Hrun. unfold generatePlan. rewrite Hmiss, Har, Ed, Ee, Ex, Eg, Eb.
    match goal with
    | |- context [buildIngredientPlan ?a ?m ?k ?s ?g] =>
        destruct (buildIngredientPlan a m k s g) as [plan|]; [|discriminate]
    end.
    intros H. injection H as <-. unfold bind, ret.
    destruct (plan tape n). eexists. reflexivity. }
  destruct Hok as [resp Hresp]. exists resp. split; [exact Hresp|].
  destruct (generatePlan_fields _ _ _ _ _ _ _ _ Hrun Hresp)
    as (ar' & d' & eq' & ex' & gl' & tier' & _ & _ & Hd' & _ & _ & Hg' & _ & _ & _ & _
        & _ & _ & Hw & _ & _ & Hn).
  rewrite Ed in Hd'. injection Hd' as <-. rewrite Eg in Hg'. injection Hg' as <-.
  split; [rewrite Hw, buildWorkouts_length; now rewrite dayClass_trainingDays|].
  split; [|exact Hn].
  destruct (generatePlan_ok _ _ _ _ _ tape n (snd (run tape n)) resp Hrun)
    as (d2 & eq2 & ex2 & gl2 & tier2 & plan & _ & _ & _ & Hg2 & _ & _ & Hplan & Hing).
  { rewrite <- Hresp. apply surjective_pairing. }
  rewrite Eg in Hg2. injection Hg2 as <-.
  rewrite Hing. eapply buildIngredientPlan_length. exact Hplan.
Qed.

Lemma X20_generatePlan_witness :
  exists run daysRaw gl,
    generatePlan byteCompare demo_exercises demo_ingredients reference_request = Some run /\
    schedule_days reference_request = Some daysRaw /\ goal reference_request = Some gl /\
    forall tape n, exists resp,
      fst (run tape n) = Ok200 resp /\
      length (workouts resp) = Z.to_nat (dayClass daysRaw) /\
      length (ingredients resp)
      = mealCount (nullish (meals_per_day reference_request) (DEFAULT_MEALS_BY_GOAL gl)) /\
      (notes resp = [] <-> ~ daysRaw == 7).
Proof.
  apply (X20_generatePlan_answers_200_with_days_and_meals
           byteCompare demo_exercises demo_ingredients reference_request).
  - reflexivity.
  - intros tier ing _ Hin. apply filter_In in Hin. destruct Hin as [Hin _].
    apply demo_ingredients_end. exact Hin.
Defined.

(** X21.  Confidence and tips of a 200 response follow the measurements
    alone: the confidence is high exactly when the body fat is a number
    and height and weight are given, medium exactly when height and weight
    are given and the body fat is missing or null, and low otherwise;
    there is no tip exactly when body fat (a number), waist, height and
    weight are all given, and exactly one tip otherwise. *)
Theorem X21_confidence_and_tips_follow_measurements
    (localeCompare : string -> string -> number) (exercises : list Exercise)
    (ingredients_db : list IngredientDocV2) (body : GenerateReq)
    (run : Rand (Http GenerateRes)) (tape : nat -> number) (n : nat)
    (resp : GenerateRes) :
  generatePlan localeCompare exercises ingredients_db body = Some run ->
  fst (run tape n) = Ok200 resp ->
  let p := g_index body in
  (confidence resp = conf_high
   <-> (exists q, bodyfat_pct p = j_number q) /\ height_cm p <> None
       /\ weight_kg p <> None) /\
  (confidence resp = conf_med
   <-> (bodyfat_pct p = j_undefined \/ bodyfat_pct p = j_null)
       /\ height_cm p <> None /\ weight_kg p <> None) /\
  (tips resp = []
   <-> (exists q, bodyfat_pct p = j_number q) /\ waist_cm p <> None /\
       height_cm p <> None /\ weight_kg p <> None) /\
  (tips resp <> [] -> length (tips resp) = 1%nat).
Proof.
  intros Hrun Hresp.
  destruct (generatePlan_fields _ _ _ _ _ _ _ _ Hrun Hresp)
    as (ar & d & eq & ex & gl & tier & Hmiss & Har & _ & _ & _ & _ & _ & _ & _ & _
        & _ & _ & _ & Hc & Ht & _).
  apply missingFields_nil in Hmiss.
  destruct Hmiss as (Hs & (ar' & Har' & Hne) & _).
  cbv zeta. rewrite Hc, Ht. unfold accuracyBand. rewrite Har'.
  destruct (String.eqb_spec ar' ""); [contradiction|].
  destruct (sex (g_index body)); [|contradiction].
  destruct (bodyfat_pct (g_index body)) as [| |q], (waist_cm (g_index body)),
    (height_cm (g_index body)), (weight_kg (g_index body)); cbn;
    repeat split; intros; try discriminate; try congruence; eauto;
    repeat match goal with
           | H : _ /\ _ |- _ => destruct H
           | H : exists _, _ |- _ => destruct H
           | H : _ \/ _ |- _ => destruct H
           end;
    try discriminate; try congruence.
Qed.

Lemma X21_confidence_witness :
  exists resp,
    (confidence resp = conf_high
     <-> (exists q, bodyfat_pct (g_index reference_request) = j_number q) /\
         height_cm (g_index reference_request) <> None /\
         weight_kg (g_index reference_request) <> None) /\
    (confidence resp = conf_med
     <-> (bodyfat_pct (g_index reference_request) = j_undefined
          \/ bodyfat_pct (g_index reference_request) = j_null) /\
         height_cm (g_index reference_request) <> None /\
         weight_kg (g_index reference_request) <> None) /\
    (tips resp = []
     <-> (exists q, bodyfat_pct (g_index reference_request) = j_number q) /\
         waist_cm (g_index reference_request) <> None /\
         height_cm (g_index reference_request) <> None /\
         weight_kg (g_index reference_request) <> None) /\
    (tips resp <> [] -> length (tips resp) = 1%nat).
Proof.
  eexists.
  eapply (X21_confidence_and_tips_follow_measurements byteCompare demo_exercises []
            reference_request _ (constant_tape 0.5) 0%nat).
  - vm_compute. reflexivity.
  - vm_compute. reflexivity.
Defined.

(** X22.  The fallback of /generatePlan: when the weight is missing and
    neither a BMR nor a TDEE override is given, the response carries no BMR
    and a TDEE computed from the default BMR of 1500, that is 2063, 2325 or
    2588 according to the training days; the calorie target is then the
    goal's share of that TDEE and is not zero. *)
Theorem X22_missing_weight_falls_back_to_bmr_1500
    (localeCompare : string -> string -> number) (exercises : list Exercise)
    (ingredients_db : list IngredientDocV2) (body : GenerateReq)
    (run : Rand (Http GenerateRes)) (tape : nat -> number) (n : nat)
    (resp : GenerateRes) :
  generatePlan localeCompare exercises ingredients_db body = Some run ->
  fst (run tape n) = Ok200 resp ->
  weight_kg (g_index body) = None ->
  o_BMR (overridesOf (g_index body)) = None ->
  o_TDEE (overridesOf (g_index body)) = None ->
  idx_BMR resp = None /\
  (idx_TDEE resp = 2063 \/ idx_TDEE resp = 2325 \/ idx_TDEE resp = 2588) /\
  (exists gl, goal body = Some gl /\ kcal resp = setCalories (idx_TDEE resp) gl) /\
  ~ kcal resp == 0.
Proof.
  intros Hrun Hresp Hw Hob Hot.
  destruct (generatePlan_fields _ _ _ _ _ _ _ _ Hrun Hresp)
    as (ar & d & eq & ex & gl & tier & _ & _ & _ & _ & _ & Hg & _ & HB & _ & HT & HK
        & _).
  assert (EB : BMR (computeIndexes (g_index body) ar) = None).
  { unfold computeIndexes. cbn [BMR]. fold (overridesOf (g_index body)).
    rewrite Hob, Hw. reflexivity. }
  assert (EO : idx_overrides (computeIndexes (g_index body) ar)
               = overridesOf (g_index body)) by reflexivity.
  rewrite EB, EO, Hot in HT. cbn [computeTDEE truthy negb nullish] in HT.
  rewrite activityMultiplier_dayClass in HT.
  assert (HT3 : idx_TDEE resp = 2063 \/ idx_TDEE resp = 2325 \/ idx_TDEE resp = 2588).
  { destruct (dayClass_cases (trainingDays d)) as [E|[E|[E|[E|[E|E]]]]];
      rewrite E in HT; rewrite HT; vm_compute; auto. }
  assert (HK' : kcal resp = setCalories (idx_TDEE resp) gl /\ ~ kcal resp == 0).
  { rewrite HK.
    destruct HT3 as [E|[E|E]]; rewrite E; destruct gl; vm_compute;
      (split; [reflexivity|discriminate]). }
  destruct HK' as [HK1 HK2].
  split; [rewrite HB; exact EB|]. split; [exact HT3|].
  split; [exists gl; split; assumption|exact HK2].
Qed.

Lemma X22_missing_weight_witness :
  exists resp,
    idx_BMR resp = None /\
    (idx_TDEE resp = 2063 \/ idx_TDEE resp = 2325 \/ idx_TDEE resp = 2588) /\
    (exists gl, goal unmeasured_request = Some gl
                /\ kcal resp = setCalories (idx_TDEE resp) gl) /\
    ~ kcal resp == 0.
Proof.
  eexists.
  eapply (X22_missing_weight_falls_back_to_bmr_1500 byteCompare demo_exercises []
            unmeasured_request _ (constant_tape 0.5) 0%nat).
  - vm_compute. reflexivity.
  - vm_compute. reflexivity.
  - reflexivity.
  - reflexivity.
  - reflexivity.
Defined.

(** ** POST /adaptPlan: what every rule preserves *)

Lemma adaptPlan_blockAt (body : AdaptReq) (res : AdaptRes) (i j : nat) :
  adaptPlan body = Ok200 res ->
  exists plan0 r,
    current_plan body = Some plan0 /\ readiness body = Some r /\
    blockAt (patched_plan res) i j
    = option_map (adaptBlock r (last_week_adherence_pct body)) (blockAt plan0 i j).
Proof.
  unfold adaptPlan.
  destruct (current_plan body) as [plan0|]; [|discriminate].
  destruct (readiness body) as [r|]; [|discriminate].
  intros H. injection H as <-. exists plan0, r.
  split; [reflexivity|]. split; [reflexivity|].
  cbn [patched_plan]. unfold adherenceRule, adaptBlock.
  destruct (calorieRule _ _) as [p3 l3] eqn:E3.
  assert (H3 : blockAt p3 i j
               = option_map
                   (fun b =>
                      if Qle_bool 4 (stress r) && Qle_bool (motivation r) 2
                      then fatigued (sorenessBlock (nullish (soreness r) []) b)
                      else sorenessBlock (nullish (soreness r) []) b)
                   (blockAt plan0 i j)).
  { change p3 with (fst (p3, l3)). rewrite <- E3, blockAt_calorieRule.
    unfold fatigueRule.
    destruct (sorenessRule _ _) as [p1 l1] eqn:E1.
    assert (H1 : blockAt p1 i j
                 = option_map (sorenessBlock (nullish (soreness r) [])) (blockAt plan0 i j)).
    { change p1 with (fst (p1, l1)). rewrite <- E1. apply blockAt_sorenessRule. }
    destruct (Qle_bool 4 (stress r) && Qle_bool (motivation r) 2); cbn [fst].
    - rewrite blockAt_forEachBlock, H1. destruct (blockAt plan0 i j); reflexivity.
    - exact H1. }
  destruct (Qlt_bool (nullish (last_week_adherence_pct body) 100) 60); cbn [fst].
  - rewrite blockAt_forEachBlock, H3. destruct (blockAt plan0 i j); reflexivity.
  - rewrite H3. destruct (blockAt plan0 i j); reflexivity.
Qed.

Lemma setsOr3_whole (b : PlanBlock) (z : Z) :
  wholeSets b z -> (1 <= z)%Z -> setsOr3 b == inject_Z z.
Proof.
  intros (s & Hs & E) Hz. unfold setsOr3. rewrite Hs.
  assert (H1 : 1 <= inject_Z z).
  { change 1 with (inject_Z 1). rewrite <- Zle_Qle. exact Hz. }
  destruct (Qeq_bool s 0) eqn:E0; [|exact E].
  apply Qeq_bool_iff in E0. lra.
Qed.

Lemma max_1_whole (y : number) (k z : Z) :
  y == inject_Z k -> (k <= z)%Z -> (1 <= z)%Z ->
  exists z', Math_max 1 y == inject_Z z' /\ (1 <= z' <= z)%Z.
Proof.
  intros E Hk Hz. destruct (Math_max_1_spec y) as [[H ->]|[H ->]].
  - exists k. split; [exact E|]. split; [|exact Hk].
    rewrite E in H. change 1 with (inject_Z 1) in H. now rewrite <- Zle_Qle in H.
  - exists 1%Z. split; [reflexivity|lia].
Qed.

Lemma decBlock_whole (b : PlanBlock) (z : Z) :
  wholeSets b z -> (1 <= z)%Z ->
  exists z', wholeSets (decBlock b) z' /\ (1 <= z' <= z)%Z.
Proof.
  intros Hb Hz. pose proof (setsOr3_whole b z Hb Hz) as E.
  destruct (max_1_whole (setsOr3 b - 1) (z - 1) z) as (z' & E' & Hz'); [|lia|exact Hz|].
  { rewrite E. unfold Z.sub. rewrite inject_Z_plus. reflexivity. }
  exists z'. split; [|exact Hz']. eexists. split; [reflexivity|exact E'].
Qed.

Lemma scaleSets_whole (f : number) (b : PlanBlock) (z : Z) :
  0 <= f -> f <= 1 ->
  wholeSets b z -> (1 <= z)%Z ->
  exists z', wholeSets (scaleSets f b) z' /\ (1 <= z' <= z)%Z.
Proof.
  intros Hf0 Hf1 Hb Hz. pose proof (setsOr3_whole b z Hb Hz) as E.
  assert (Hk : (Qfloor (setsOr3 b * f + (1 # 2)) <= z)%Z).
  { assert (Hlt : (Qfloor (setsOr3 b * f + (1 # 2)) < z + 1)%Z).
    { rewrite Zlt_Qlt. rewrite inject_Z_plus. change (inject_Z 1) with 1.
      pose proof (Qfloor_le (setsOr3 b * f + (1 # 2))) as Hfl.
      assert (H1 : 1 <= inject_Z z).
      { change 1 with (inject_Z 1). rewrite <- Zle_Qle. exact Hz. }
      assert (Hm : setsOr3 b * f <= setsOr3 b * 1).
      { rewrite (Qmult_comm _ f), (Qmult_comm _ 1).
        apply Qmult_le_compat_r; [exact Hf1|]. rewrite E. lra. }
      lra. }
    lia. }
  destruct (max_1_whole (Math_round (setsOr3 b * f))
                        (Qfloor (setsOr3 b * f + (1 # 2))) z)
    as (z' & E' & Hz'); [reflexivity|exact Hk|exact Hz|].
  exists z'. split; [|exact Hz']. eexists. split; [reflexivity|exact E'].
Qed.

Lemma iter_decBlock_whole (k : nat) (b : PlanBlock) (z : Z) :
  wholeSets b z -> (1 <= z)%Z ->
  exists z', wholeSets (Nat.iter k decBlock b) z' /\ (1 <= z' <= z)%Z.
Proof.
  intros Hb Hz. induction k as [|k IH]; cbn [Nat.iter].
  - exists z. split; [exact Hb|lia].
  - destruct IH as (z1 & H1 & Hz1).
    destruct (decBlock_whole _ z1 H1) as (z2 & H2 & Hz2); [lia|].
    exists z2. split; [exact H2|lia].
Qed.

Lemma adaptBlock_muscle r pct (b : PlanBlock) :
  pb_muscle (adaptBlock r pct b) = pb_muscle b.
Proof.
  unfold adaptBlock. rewrite sorenessBlock_iter.
  assert (H : forall k, pb_muscle (Nat.iter k decBlock b) = pb_muscle b).
  { induction k; [reflexivity|]. cbn. assumption. }
  destruct (Qlt_bool _ 60), (Qle_bool 4 (stress r) && Qle_bool (motivation r) 2);
    cbn; apply H.
Qed.

Lemma adaptBlock_whole r pct (b : PlanBlock) (z : Z) :
  wholeSets b z -> (1 <= z)%Z ->
  exists z', wholeSets (adaptBlock r pct b) z' /\ (1 <= z' <= z)%Z.
Proof.
  intros Hb Hz. unfold adaptBlock. rewrite sorenessBlock_iter.
  destruct (iter_decBlock_whole (hits (nullish (soreness r) []) b) b z Hb Hz)
    as (z1 & H1 & Hz1).
  set (b1 := Nat.iter _ decBlock b) in *.
  assert (H2 : exists z2,
             wholeSets (if Qle_bool 4 (stress r) && Qle_bool (motivation r) 2
                        then fatigued b1 else b1) z2 /\ (1 <= z2 <= z)%Z).
  { destruct (Qle_bool 4 (stress r) && Qle_bool (motivation r) 2).
    - destruct (scaleSets_whole 0.9 b1 z1) as (z2 & (s & Hs & E) & Hz2);
        [discriminate|discriminate|exact H1|lia|].
      exists z2. split; [exists s; split; [exact Hs|exact E]|lia].
    - exists z1. split; [exact H1|lia]. }
  destruct H2 as (z2 & H2 & Hz2).
  set (b2 := if Qle_bool 4 (stress r) && Qle_bool (motivation r) 2
             then fatigued b1 else b1) in *.
  destruct (Qlt_bool _ 60).
  - destruct (scaleSets_whole 0.85 b2 z2) as (z3 & H3 & Hz3);
      [discriminate|discriminate|exact H2|lia|].
    exists z3. split; [exact H3|lia].
  - exists z2. split; [exact H2|lia].
Qed.

(** X23.  Whatever rules fire, /adaptPlan keeps every block in its place
    with its muscle, and never adds volume: a block that had a whole number
    z >= 1 of sets has a whole number of sets between 1 and z
    afterwards. *)
Theorem X23_adaptPlan_never_adds_sets_nor_drops_below_one
    (body : AdaptReq) (res : AdaptRes) (plan0 : Plan) (i j : nat)
    (b : PlanBlock) (z : Z) :
  adaptPlan body = Ok200 res ->
  current_plan body = Some plan0 ->
  blockAt plan0 i j = Some b ->
  wholeSets b z -> (1 <= z)%Z ->
  exists b' z',
    blockAt (patched_plan res) i j = Some b' /\
    pb_muscle b' = pb_muscle b /\
    wholeSets b' z' /\ (1 <= z' <= z)%Z.
Proof.
  intros Hok Hplan Hb Hw Hz.
  destruct (adaptPlan_blockAt body res i j Hok) as (p0 & r & Hp0 & _ & Hat).
  rewrite Hplan in Hp0. injection Hp0 as <-. rewrite Hb in Hat. cbn in Hat.
  destruct (adaptBlock_whole r (last_week_adherence_pct body) b z Hw Hz) as (z' & H' & Hz').
  eexists _, z'. split; [exact Hat|]. split; [apply adaptBlock_muscle|].
  split; [exact H'|exact Hz'].
Qed.

Lemma X23_adaptPlan_witness :
  exists b' z',
    blockAt (patched_plan (patchedOf (adaptPlan worn_out_request))) 0 1 = Some b' /\
    pb_muscle b' = "chest"%string /\
    wholeSets b' z' /\ (1 <= z' <= 4)%Z.
Proof.
  apply (X23_adaptPlan_never_adds_sets_nor_drops_below_one worn_out_request
           (patchedOf (adaptPlan worn_out_request)) demo_workout_plan 0 1
           {| pb_muscle := "chest"; pb_sets := Some 4; pb_rir := Some "1-2"%string |} 4).
  - reflexivity.
  - reflexivity.
  - reflexivity.
  - exists 4. split; reflexivity.
  - lia.
Defined.

Lemma sorenessRule_log (entries : list (string * number)) (st : Plan * list LogLine) :
  sorenessRule entries st = st
  \/ (length (snd st) < length (snd (sorenessRule entries st)))%nat.
Proof.
  unfold sorenessRule. revert st.
  induction entries as [|[region sc] es IH]; intros [p log]; cbn [fold_left].
  - left. reflexivity.
  - destruct (Qle_bool 4 sc).
    + right.
      destruct (IH (forEachBlock (decrementFor region) p, log ++ [SorenessLine region sc]))
        as [->|H]; cbn [snd] in *; rewrite ?length_app in *; cbn [length] in *; lia.
    + apply IH.
Qed.

Lemma fatigueRule_log (r : ReadinessPayload) (st : Plan * list LogLine) :
  fatigueRule r st = st \/ (length (snd st) < length (snd (fatigueRule r st)))%nat.
Proof.
  unfold fatigueRule. destruct st as [p log].
  destruct (Qle_bool 4 (stress r) && Qle_bool (motivation r) 2); [right|left; reflexivity].
  cbn [snd]. rewrite length_app. cbn. lia.
Qed.

Lemma calorieRule_log trend (st : Plan * list LogLine) :
  calorieRule trend st = st \/ (length (snd st) < length (snd (calorieRule trend st)))%nat.
Proof.
  unfold calorieRule. destruct st as [p log].
  destruct (plan_kcal p) as [k|]; [|left; reflexivity].
  destruct (Qeq_bool k 0); [left; reflexivity|].
  destruct trend as [[| |]|]; try (left; reflexivity).
  all: match goal with |- context [negb ?c] => destruct c end; cbn [negb];
       [left; reflexivity|right; cbn [snd]; rewrite length_app; cbn; lia].
Qed.

Lemma adherenceRule_log pct (st : Plan * list LogLine) :
  adherenceRule pct st = st \/ (length (snd st) < length (snd (adherenceRule pct st)))%nat.
Proof.
  unfold adherenceRule. destruct st as [p log].
  destruct (Qlt_bool (nullish pct 100) 60); [right|left; reflexivity].
  cbn [snd]. rewrite length_app. cbn. lia.
Qed.

(** X24.  /adaptPlan changes nothing silently: when the change log of a 200
    answer is empty, the patched plan is the current plan, field for
    field. *)
Theorem X24_empty_change_log_means_unchanged_plan
    (body : AdaptReq) (res : AdaptRes) (plan0 : Plan) :
  adaptPlan body = Ok200 res ->
  current_plan body = Some plan0 ->
  change_log res = [] ->
  patched_plan res = plan0.
Proof.
  unfold adaptPlan. intros Hok Hplan. rewrite Hplan in Hok.
  destruct (readiness body) as [r|]; [|discriminate].
  injection Hok as <-. cbn [change_log patched_plan].
  set (st1 := sorenessRule _ (plan0, [])).
  set (st2 := fatigueRule r st1).
  set (st3 := calorieRule (weight_trend_2w body) st2).
  intros Hlog.
  destruct (adherenceRule_log (last_week_adherence_pct body) st3) as [E4|H4];
    [|rewrite Hlog in H4; cbn in H4; lia].
  rewrite E4 in *.
  destruct (calorieRule_log (weight_trend_2w body) st2) as [E3|H3];
    [|fold st3 in H3; rewrite Hlog in H3; cbn in H3; lia].
  fold st3 in E3. rewrite E3 in *.
  destruct (fatigueRule_log r st1) as [E2|H2];
    [|fold st2 in H2; rewrite Hlog in H2; cbn in H2; lia].
  fold st2 in E2. rewrite E2 in *.
  destruct (sorenessRule_log (nullish (soreness r) []) (plan0, [])) as [E1|H1];
    [|fold st1 in H1; rewrite Hlog in H1; cbn in H1; lia].
  fold st1 in E1. rewrite E1. reflexivity.
Qed.

Lemma X24_empty_change_log_witness :
  patched_plan (patchedOf (adaptPlan calm_request)) = demo_workout_plan.
Proof.
  apply (X24_empty_change_log_means_unchanged_plan calm_request
           (patchedOf (adaptPlan calm_request)) demo_workout_plan);
    reflexivity.
Defined.




(** ** The seeding script: batches *)

Lemma upsert_loop_concat {T} (items : list T) (fuel i : nat) :
  (length items < fuel + i)%nat ->
  concat (upsert_loop fuel i items) = skipn i items.
Proof.
  revert i. induction fuel as [|fuel IH]; intros i H; cbn [upsert_loop].
  - cbn. symmetry. apply skipn_all2. lia.
  - destruct (Nat.ltb_spec i (length items)) as [Hi|Hi].
    + cbn [concat]. rewrite IH by lia. unfold slice.
      replace (i + 400 - i)%nat with 400%nat by lia.
      rewrite (Nat.add_comm i 400), <- skipn_skipn. apply firstn_skipn.
    + cbn. symmetry. apply skipn_all2. lia.
Qed.

Lemma upsert_loop_sizes {T} (items : list T) (fuel i : nat) :
  Forall (fun batch => (1 <= length batch <= 400)%nat) (upsert_loop fuel i items).
Proof.
  revert i. induction fuel as [|fuel IH]; intros i; cbn [upsert_loop]; [constructor|].
  destruct (Nat.ltb_spec i (length items)) as [Hi|Hi]; [|constructor].
  constructor; [|apply IH].
  unfold slice. rewrite length_firstn, length_skipn. lia.
Qed.

(** X26.  The seeding script writes every item exactly once and in order:
    the committed batches, concatenated, are the items of the collection;
    no batch is empty and none exceeds 400 writes (Firestore allows 500 per
    batch); an empty collection commits no batch. *)
Theorem X26_seed_batches_cover_items_within_limit {T} (items : list T) :
  concat (upsertCollection items) = items /\
  Forall (fun batch => (1 <= length batch <= 400)%nat) (upsertCollection items) /\
  (upsertCollection items = [] <-> items = []).
Proof.
  unfold upsertCollection. split; [|split].
  - rewrite upsert_loop_concat by lia. reflexivity.
  - apply upsert_loop_sizes.
  - cbn [upsert_loop]. destruct items as [|x items]; cbn; split; try reflexivity;
      discriminate.
Qed.

(** ** Index calculator: method selection and rounding of the indexes *)




Lemma toFixed_1_error (x : number) : 0 <= x -> Qabs (toFixed 1 x - x) <= 1 # 20.
Proof.
  intros Hx. unfold toFixed, Qlt_bool.
  assert (Hb : Qle_bool 0 x = true) by (now apply Qle_bool_iff).
  rewrite Hb. cbn [negb]. rewrite (Qabs_pos x Hx).
  change (inject_Z (10 ^ Z.of_nat 1)) with 10.
  pose proof (Qfloor_le (x * 10 + (1 # 2))) as H1.
  pose proof (Qlt_floor (x * 10 + (1 # 2))) as H2.
  rewrite inject_Z_plus in H2. change (inject_Z 1) with 1 in H2.
  unfold Qdiv. change (/ 10) with (1 # 10).
  apply Qabs_case; intros _; lra.
Qed.

Lemma toFixed_2_error (x : number) : 0 <= x -> Qabs (toFixed 2 x - x) <= 1 # 200.
Proof.
  intros Hx. unfold toFixed, Qlt_bool.
  assert (Hb : Qle_bool 0 x = true) by (now apply Qle_bool_iff).
  rewrite Hb. cbn [negb]. rewrite (Qabs_pos x Hx).
  change (inject_Z (10 ^ Z.of_nat 2)) with 100.
  pose proof (Qfloor_le (x * 100 + (1 # 2))) as H1.
  pose proof (Qlt_floor (x * 100 + (1 # 2))) as H2.
  rewrite inject_Z_plus in H2. change (inject_Z 1) with 1 in H2.
  unfold Qdiv. change (/ 100) with (1 # 100).
  apply Qabs_case; intros _; lra.
Qed.

(** X28.  Rounding of the indexes: for a positive weight and height and no
    BMI override, the BMI of the response is within 0.05 of
    weight / (height in metres)^2; and when a positive waist is given, the
    waist-to-height ratio is within 0.005 of waist / height. *)
Theorem X28_bmi_and_whtr_are_rounded_quotients (body : IndexReqBase) (r : RecalcRes)
    (kg cm : number) :
  recalculateIndexes body = Ok200 r ->
  weight_kg body = Some kg -> height_cm body = Some cm ->
  0 < kg -> 0 < cm ->
  o_BMI (overridesOf body) = None ->
  (exists bmi, r_BMI r = Some bmi /\
               Qabs (bmi - kg / ((cm / 100) * (cm / 100))) <= 1 # 20) /\
  (forall wa, waist_cm body = Some wa -> 0 < wa ->
     exists w, r_WHtR r = Some w /\ Qabs (w - wa / cm) <= 1 # 200).
Proof.
  intros Hok Hkg Hcm Hk Hc Hov.
  destruct (recalculateIndexes_fields body r Hok) as (ar & _ & _ & _ & ->).
  cbn [r_BMI r_WHtR]. unfold computeIndexes. cbn [BMI WHtR].
  fold (overridesOf body). rewrite Hov, Hkg, Hcm. cbn [truthy].
  assert (Ek : Qeq_bool kg 0 = false).
  { destruct (Qeq_bool kg 0) eqn:E; [|reflexivity]. apply Qeq_bool_iff in E. lra. }
  assert (Ec : Qeq_bool cm 0 = false).
  { destruct (Qeq_bool cm 0) eqn:E; [|reflexivity]. apply Qeq_bool_iff in E. lra. }
  rewrite Ek, Ec. cbn [negb andb]. split.
  - eexists. split; [reflexivity|]. apply toFixed_1_error.
    apply Qlt_le_weak. apply Qlt_shift_div_l; [|lra].
    assert (H : 0 < cm / 100) by (apply Qlt_shift_div_l; [reflexivity|lra]).
    apply Qmult_lt_0_compat; exact H.
  - intros wa Hwa Hw. rewrite Hwa. cbn [truthy].
    assert (Ew : Qeq_bool wa 0 = false).
    { destruct (Qeq_bool wa 0) eqn:E; [|reflexivity]. apply Qeq_bool_iff in E. lra. }
    rewrite Ew. cbn [negb andb]. eexists. split; [reflexivity|].
    apply toFixed_2_error. apply Qlt_le_weak. apply Qlt_shift_div_l; [exact Hc|lra].
Qed.

Lemma X28_bmi_witness :
  exists r,
    recalculateIndexes reference_profile = Ok200 r /\
    (exists bmi, r_BMI r = Some bmi /\
                 Qabs (bmi - 75 / ((175 / 100) * (175 / 100))) <= 1 # 20) /\
    (forall wa, waist_cm reference_profile = Some wa -> 0 < wa ->
       exists w, r_WHtR r = Some w /\ Qabs (w - wa / 175) <= 1 # 200).
Proof.
  eexists. split; [reflexivity|].
  apply (X28_bmi_and_whtr_are_rounded_quotients reference_profile _ 75 175);
    reflexivity.
Defined.

(** ** The random source: what a run of the allocator reads *)














